(** * VisaVoyager: the agent orchestration layer of [services/gemini.ts]

    A shallow embedding of the TypeScript module that drives the
    self-correcting visa search, the one-shot orchestrators and the
    passport parser, together with the properties its specification
    states about them.  The repository holds the module twice; the
    parts of the second copy that differ are embedded as well.

    The module is dynamically typed where it matters: whatever
    [JSON.parse] returns flows unchecked into property reads, [||]
    defaults, [Math.min] and [>=].  The embedding therefore works on
    JavaScript values and spells out the coercions the code relies on. *)

From Stdlib Require Import List String Ascii Bool Arith ZArith QArith Lia.
From Stdlib Require Import DecimalString.
Import ListNotations.

Local Close Scope Q_scope.
Local Open Scope list_scope.
Local Open Scope string_scope.

Set Implicit Arguments.
Set Warnings "-register-all".

(* ================================================================== *)
(** * JavaScript values *)
(* ================================================================== *)

Module JS.

(** A JavaScript number: a finite value, [NaN] or an infinity.  Doubles
    embed into this type in an order preserving way, and the code only
    compares numbers and takes minima. *)
Inductive number : Type :=
| Fin (q : Q)
| NaN
| PosInf
| NegInf.

(** A string is a sequence of code units; one [ascii] stands for one
    unit.  The code never looks at the value of a unit other than by
    comparing with the literals written in the source. *)
Inductive value : Type :=
| VUndefined
| VNull
| VBool (b : bool)
| VNum (n : number)
| VStr (s : string)
| VArr (elems : list value) (extra : list (string * value))
| VObj (props : list (string * value)).

(** The exceptions that can cross the module. *)
Inductive error : Type :=
| SyntaxError (text : string)
| TypeError (msg : string)
| Error (msg : string)
| ServiceError (msg : string).

(** The result of running a piece of code: a value, an exception, or a
    loop that was cut off by the step budget of the model. *)
Inductive outcome (A : Type) : Type :=
| Ok (a : A)
| Throw (e : error)
| OutOfFuel.

Arguments Ok {A} a.
Arguments Throw {A} e.
Arguments OutOfFuel {A}.

Definition of_num (z : Z) : value := VNum (Fin (inject_Z z)).

(** ** Own properties *)

Fixpoint lookup (k : string) (props : list (string * value)) : value :=
  match props with
  | [] => VUndefined
  | (k', v) :: rest => if String.eqb k k' then v else lookup k rest
  end.

(** Defining a property keeps the position of an existing key and
    appends a new one, as property order does in JavaScript. *)
Fixpoint define (k : string) (v : value) (props : list (string * value))
  : list (string * value) :=
  match props with
  | [] => [(k, v)]
  | (k', v') :: rest =>
      if String.eqb k k' then (k, v) :: rest else (k', v') :: define k v rest
  end.

(** [o.k] for the property names the module reads.  None of them is an
    array index, [length] or a name found on a prototype, so a read on
    a primitive or on an array without such an own property is
    [undefined]; a read on [null] or [undefined] throws. *)
Definition get (o : value) (k : string) : outcome value :=
  match o with
  | VUndefined => Throw (TypeError ("Cannot read properties of undefined (reading '" ++ k ++ "')"))
  | VNull => Throw (TypeError ("Cannot read properties of null (reading '" ++ k ++ "')"))
  | VObj props => Ok (lookup k props)
  | VArr _ extra => Ok (lookup k extra)
  | VBool _ | VNum _ | VStr _ => Ok VUndefined
  end.

(** [o.k = v] in strict mode (module code is always strict): writing to
    a primitive throws, writing to an object or an array defines the
    property. *)
Definition put (o : value) (k : string) (v : value) : outcome value :=
  match o with
  | VUndefined => Throw (TypeError ("Cannot set properties of undefined (setting '" ++ k ++ "')"))
  | VNull => Throw (TypeError ("Cannot set properties of null (setting '" ++ k ++ "')"))
  | VObj props => Ok (VObj (define k v props))
  | VArr elems extra => Ok (VArr elems (define k v extra))
  | VBool _ | VNum _ | VStr _ =>
      Throw (TypeError ("Cannot create property '" ++ k ++ "'"))
  end.

(** ** Coercions *)

Definition is_zero (n : number) : bool :=
  match n with
  | Fin q => Qeq_bool q 0
  | _ => false
  end.

(** [ToBoolean]. *)
Definition truthy (v : value) : bool :=
  match v with
  | VUndefined | VNull => false
  | VBool b => b
  | VNum NaN => false
  | VNum n => negb (is_zero n)
  | VStr s => negb (String.eqb s "")
  | VArr _ _ | VObj _ => true
  end.

(** [a || b] *)
Definition or_else (a b : value) : value := if truthy a then a else b.

Fixpoint join (sep : string) (l : list string) : string :=
  match l with
  | [] => ""
  | [x] => x
  | x :: rest => x ++ sep ++ join sep rest
  end.

Section Coercions.

(** The two conversions between numbers and text are left to the
    engine; nothing below depends on what they compute. *)
Variable NumberToString : number -> string.
Variable StringToNumber : string -> number.

(** [ToString], as used by template literals and by [+] with a string
    operand.  An array joins its elements with commas, printing
    [null] and [undefined] as nothing. *)
Fixpoint ToString (v : value) : string :=
  match v with
  | VUndefined => "undefined"
  | VNull => "null"
  | VBool true => "true"
  | VBool false => "false"
  | VNum n => NumberToString n
  | VStr s => s
  | VArr elems _ =>
      join ","
        ((fix each (l : list value) : list string :=
            match l with
            | [] => []
            | VUndefined :: rest => "" :: each rest
            | VNull :: rest => "" :: each rest
            | x :: rest => ToString x :: each rest
            end) elems)
  | VObj _ => "[object Object]"
  end.

(** [ToNumber]. *)
Definition ToNumber (v : value) : number :=
  match v with
  | VUndefined => NaN
  | VNull => Fin 0
  | VBool true => Fin 1
  | VBool false => Fin 0
  | VNum n => n
  | VStr s => StringToNumber s
  | VArr _ _ => StringToNumber (ToString v)
  | VObj _ => NaN
  end.

End Coercions.

(** ** Numbers *)

(** [a >= b] on numbers; any comparison with [NaN] is false. *)
Definition num_ge (a b : number) : bool :=
  match a, b with
  | NaN, _ | _, NaN => false
  | PosInf, _ => true
  | _, NegInf => true
  | NegInf, _ => false
  | _, PosInf => false
  | Fin x, Fin y => Qle_bool y x
  end.

(** [a <= b] on numbers. *)
Definition num_le (a b : number) : bool := num_ge b a.

(** [Math.min(a, b)] on two numbers. *)
Definition Math_min (a b : number) : number :=
  match a, b with
  | NaN, _ | _, NaN => NaN
  | NegInf, _ | _, NegInf => NegInf
  | PosInf, y => y
  | x, PosInf => x
  | Fin x, Fin y => if Qle_bool x y then Fin x else Fin y
  end.

(** [SameValueZero] between the keys of two different entries of a list:
    primitives compare by value, while two objects or arrays taken from
    different places are distinct references and never the same key. *)
Definition same_key (a b : value) : bool :=
  match a, b with
  | VUndefined, VUndefined => true
  | VNull, VNull => true
  | VBool x, VBool y => Bool.eqb x y
  | VNum (Fin x), VNum (Fin y) => Qeq_bool x y
  | VNum NaN, VNum NaN => true
  | VNum PosInf, VNum PosInf => true
  | VNum NegInf, VNum NegInf => true
  | VStr x, VStr y => String.eqb x y
  | _, _ => false
  end.

(** ** Strings *)

(** [s.substring(a, b)]: both indices are clamped to the length and
    swapped when out of order. *)
Definition substring (a b : nat) (s : string) : string :=
  let a' := Nat.min a (String.length s) in
  let b' := Nat.min b (String.length s) in
  String.substring (Nat.min a' b') (Nat.max a' b' - Nat.min a' b') s.

(** [s.startsWith(p)] *)
Definition startsWith (p s : string) : bool := String.prefix p s.

Fixpoint rev_string (s : string) : string :=
  match s with
  | EmptyString => EmptyString
  | String c s' => rev_string s' ++ String c EmptyString
  end.

(** [s.endsWith(p)] *)
Definition endsWith (p s : string) : bool :=
  String.prefix (rev_string p) (rev_string s).

(** The text of a string without its first [n] units. *)
Definition drop (n : nat) (s : string) : string :=
  String.substring n (String.length s - n) s.

(** Whether [needle] occurs somewhere in [s]. *)
Fixpoint includes (needle s : string) : bool :=
  String.prefix needle s ||
  match s with
  | EmptyString => false
  | String _ s' => includes needle s'
  end.

End JS.

Import JS.

(* ================================================================== *)
(** * The engine and the generative service *)
(* ================================================================== *)

(** The built-ins the module calls.  [JSON_parse] answers [None] where
    [JSON.parse] throws a [SyntaxError]. *)
Class Engine : Type := {
  JSON_parse : string -> option value;
  JSON_stringify : value -> string;
  NumberToString : number -> string;
  StringToNumber : string -> number
}.

Definition nl : string := String (ascii_of_nat 10) EmptyString.
Definition dq : string := String (ascii_of_nat 34) EmptyString.

(** ** The shapes exchanged with [@google/genai] *)

(** [Type.OBJECT], [Type.ARRAY], ... as used in response schemas. *)
Inductive Schema : Type :=
| TString
| TNumber
| TBoolean
| TEnum (options : list string)
| TArray (items : Schema)
| TObject (properties : list (string * Schema)).

Inductive Tool : Type := googleSearch | googleMaps.

Record SessionConfig : Type := {
  systemInstruction : string;
  tools : option (list Tool)
}.

Record OutputConfig : Type := {
  responseMimeType : string;
  responseSchema : Schema
}.

(** The argument of [chat.sendMessage]. *)
Record RequestOptions : Type := {
  message : string;
  config : option OutputConfig
}.

Inductive Part : Type :=
| InlineData (data mimeType : string)
| TextPart (text : string).

Inductive Contents : Type :=
| ContentText (s : string)
| ContentParts (parts : list Part).

(** The argument of [ai.models.generateContent]. *)
Record GenerateRequest : Type := {
  g_model : string;
  g_contents : Contents;
  g_config : OutputConfig
}.

Record Web : Type := { title : value; uri : value }.
Record GroundingChunk : Type := { web : option Web }.
Record GroundingMetadata : Type := { groundingChunks : option (list GroundingChunk) }.

(** A candidate of a response: its grounding metadata, and whether the
    chat of the SDK counts its content as valid (the content is there,
    it has parts, and none of them is empty). *)
Record Candidate : Type := {
  groundingMetadata : option GroundingMetadata;
  valid_content : bool
}.

(** What the service answers: the text (which the SDK leaves undefined
    when there is none) and the envelope with the grounding metadata. *)
Record Response : Type := {
  text : option string;
  candidates : option (list Candidate)
}.

Record Turn : Type := { sent : RequestOptions; received : Response }.

(** [response.candidates?.[0]?.content] is there and valid: the chat of
    the SDK sends along, with the messages to come, only the turns
    whose response is of this kind (its curated history). *)
Definition kept (r : Response) : bool :=
  match candidates r with
  | Some (c :: _) => valid_content c
  | _ => false
  end.

(** The chat object of the SDK, as far as the module can tell: the
    turns it sends along with every new message. *)
Record Chat : Type := {
  chat_model : string;
  chat_config : SessionConfig;
  turns : list Turn
}.

(** What the module does to the outside world, in order. *)
Inductive Event : Type :=
| ChatsCreate (model : string) (cfg : SessionConfig) (history : list Turn)
| SendMessage (chat : Chat) (req : RequestOptions)
| GenerateContent (req : GenerateRequest)
| Progress (stage : string)
| ConsoleError (label : string) (e : error).

Inductive answer : Type :=
| Answer (r : Response)
| Failure (e : error).

(** The service and the clock: what they answer may depend on
    everything that happened before, the request included. *)
Class Service : Type := {
  reply : list Event -> answer;
  getFullYear : list Event -> number
}.

(* ================================================================== *)
(** * Sessions *)
(* ================================================================== *)

(** An [AgentSession]: the model and configuration it was constructed
    with, and its two mutable fields. *)
Record AgentSession : Type := {
  session_model : string;
  session_config : SessionConfig;
  chat : option Chat;
  history : list Turn
}.

(** [new AgentSession(model, config)] *)
Definition new_AgentSession (model : string) (cfg : SessionConfig) : AgentSession :=
  {| session_model := model; session_config := cfg; chat := None; history := [] |}.

(** The three module-level sessions. *)
Inductive Persona : Type := visaConsultant | travelGuide | legalDrafter.

(** The state of the module and the record of its effects. *)
Record World : Type := {
  consultant : AgentSession;
  guide : AgentSession;
  drafter : AgentSession;
  trace : list Event
}.

Definition session (p : Persona) (w : World) : AgentSession :=
  match p with
  | visaConsultant => consultant w
  | travelGuide => guide w
  | legalDrafter => drafter w
  end.

Definition with_session (p : Persona) (s : AgentSession) (w : World) : World :=
  match p with
  | visaConsultant =>
      {| consultant := s; guide := guide w; drafter := drafter w; trace := trace w |}
  | travelGuide =>
      {| consultant := consultant w; guide := s; drafter := drafter w; trace := trace w |}
  | legalDrafter =>
      {| consultant := consultant w; guide := guide w; drafter := s; trace := trace w |}
  end.

Definition record (e : Event) (w : World) : World :=
  {| consultant := consultant w; guide := guide w; drafter := drafter w;
     trace := trace w ++ [e] |}.

(** ** Computations: state threaded through, exceptions propagated *)

Definition M (A : Type) : Type := World -> outcome A * World.

Definition ret {A} (a : A) : M A := fun w => (Ok a, w).

Definition throw {A} (e : error) : M A := fun w => (Throw e, w).

Definition bind {A B} (m : M A) (k : A -> M B) : M B :=
  fun w =>
    match m w with
    | (Ok a, w') => k a w'
    | (Throw e, w') => (Throw e, w')
    | (OutOfFuel, w') => (OutOfFuel, w')
    end.

Definition lift {A} (o : outcome A) : M A := fun w => (o, w).

Definition emit (e : Event) : M unit := fun w => (Ok tt, record e w).

(** [try { body } catch (error) { handler(error) }] *)
Definition try_catch {A} (body : M A) (handler : error -> M A) : M A :=
  fun w =>
    match body w with
    | (Throw e, w') => handler e w'
    | r => r
    end.

Declare Scope js_scope.
Delimit Scope js_scope with js.
Notation "x <- m ;; k" := (bind m (fun x => k))
  (at level 61, m at next level, right associativity) : js_scope.
Notation "m ;;; k" := (bind m (fun _ => k))
  (at level 61, right associativity) : js_scope.
Local Open Scope js_scope.

Section Module_gemini.

Context {engine : Engine} {service : Service}.

(** [JSON.parse(text)] *)
Definition parse (text : string) : M value :=
  match JSON_parse text with
  | Some v => ret v
  | None => throw (SyntaxError text)
  end.

(** [text || fallback] on a text that may be undefined. *)
Definition text_or (t : option string) (fallback : string) : string :=
  match t with
  | Some s => if String.eqb s "" then fallback else s
  | None => fallback
  end.

(** ** class AgentSession *)

(** [getSession]: the chat is created on first use, from the history
    the session holds. *)
Definition getSession (p : Persona) : M Chat :=
  fun w =>
    let this := session p w in
    match chat this with
    | Some c => (Ok c, w)
    | None =>
        let c := {| chat_model := session_model this;
                    chat_config := session_config this;
                    turns := history this |} in
        (Ok c,
         with_session p
           {| session_model := session_model this;
              session_config := session_config this;
              chat := Some c; history := history this |}
           (record (ChatsCreate (session_model this) (session_config this) (history this)) w))
    end.

(** [clearSession] *)
Definition clearSession (p : Persona) : M unit :=
  fun w =>
    let this := session p w in
    (Ok tt,
     with_session p
       {| session_model := session_model this;
          session_config := session_config this;
          chat := None; history := [] |} w).

(** [session.sendMessage(requestOptions)] on the chat of [p]: the
    request goes out with the turns of the chat; when the service
    answers, the new turn joins them if the response has valid content,
    and is left out of what the chat sends from then on if not. *)
Definition sendMessage (p : Persona) (c : Chat) (req : RequestOptions) : M Response :=
  fun w =>
    let w1 := record (SendMessage c req) w in
    let this := session p w1 in
    match reply (trace w1) with
    | Answer r =>
        let c' := {| chat_model := chat_model c; chat_config := chat_config c;
                     turns := if kept r
                              then turns c ++ [{| sent := req; received := r |}]
                              else turns c |} in
        (Ok r,
         with_session p
           {| session_model := session_model this;
              session_config := session_config this;
              chat := Some c'; history := history this |} w1)
    | Failure e => (Throw e, w1)
    end.

(** [run(prompt, outputSchema?)] *)
Definition run (p : Persona) (prompt : string) (outputSchema : option Schema)
  : M (option string * Response) :=
  session <- getSession p ;;
  let requestOptions :=
    {| message := prompt;
       config := match outputSchema with
                 | Some s => Some {| responseMimeType := "application/json";
                                     responseSchema := s |}
                 | None => None
                 end |} in
  result <- sendMessage p session requestOptions ;;
  ret (text result, result).

(** [ai.models.generateContent(request)] *)
Definition generateContent (req : GenerateRequest) : M Response :=
  fun w =>
    let w1 := record (GenerateContent req) w in
    match reply (trace w1) with
    | Answer r => (Ok r, w1)
    | Failure e => (Throw e, w1)
    end.

Definition evaluation_schema : Schema :=
  TObject [("score", TNumber); ("pass", TBoolean); ("reasoning", TString)].

Definition evaluation_fallback : string :=
  "{" ++ dq ++ "score" ++ dq ++ ": 0, " ++ dq ++ "pass" ++ dq ++ ": false, "
      ++ dq ++ "reasoning" ++ dq ++ ": " ++ dq ++ "Evaluation failed" ++ dq ++ "}".

(** The request [evaluateOutput] sends for a candidate and a rubric. *)
Definition evaluation_request (content criteria : string) : GenerateRequest :=
  {| g_model := "gemini-2.5-flash";
     g_contents := ContentText
       ("You are an AI Output Auditor. " ++ nl ++
        "      " ++ nl ++
        "      Task: Evaluate the quality of the following JSON data based on these criteria: "
          ++ dq ++ criteria ++ dq ++ "." ++ nl ++
        "      " ++ nl ++
        "      Data to Evaluate:" ++ nl ++
        "      " ++ JS.substring 0 3000 content ++ nl ++
        "      " ++ nl ++
        "      Return JSON with:" ++ nl ++
        "      - score: number (1-10, where 10 is perfect)" ++ nl ++
        "      - pass: boolean (true if usable, false if hallucinated or broken)" ++ nl ++
        "      - reasoning: string (brief explanation)");
     g_config := {| responseMimeType := "application/json";
                    responseSchema := evaluation_schema |} |}.

(** [evaluateOutput(content, criteria)] *)
Definition evaluateOutput (content criteria : string) : M value :=
  evalResponse <- generateContent (evaluation_request content criteria) ;;
  parse (text_or (text evalResponse) evaluation_fallback).

(** ** The agent swarm *)

Definition consultant_session : AgentSession :=
  new_AgentSession "gemini-2.5-flash"
    {| systemInstruction := "You are an expert Visa Consultant. Your goal is to find the most accurate, up-to-date visa policies. You MUST use Google Search to verify facts. You can use Google Maps to check embassy locations if relevant.";
       tools := Some [googleSearch; googleMaps] |}.

Definition guide_session : AgentSession :=
  new_AgentSession "gemini-2.5-flash"
    {| systemInstruction := "You are a local cultural expert. You provide safety tips and cultural etiquette advice for travelers.";
       tools := Some [googleSearch] |}.

Definition drafter_session : AgentSession :=
  new_AgentSession "gemini-2.5-flash"
    {| systemInstruction := "You are a professional legal document drafter for immigration purposes.";
       tools := None |}.

(** The module right after it is loaded. *)
Definition initial_world : World :=
  {| consultant := consultant_session; guide := guide_session;
     drafter := drafter_session; trace := [] |}.

(** ** Orchestration layer *)

Definition purposes_schema : Schema :=
  TArray (TObject [("id", TString); ("label", TString); ("description", TString)]).

(** [getCommonVisaPurposes(citizenship, destination)] *)
Definition getCommonVisaPurposes (citizenship destination : string) : M value :=
  clearSession visaConsultant ;;;
  r <- run visaConsultant
         ("Suggest 5 common visa purposes for a " ++ citizenship
            ++ " citizen visiting " ++ destination ++ ". Return JSON only.")
         (Some purposes_schema) ;;
  parse (text_or (fst r) "[]").

Definition advisory_schema : Schema :=
  TArray (TObject [("category", TString); ("tip", TString)]).

(** [getTravelAdvisory(destination)] *)
Definition getTravelAdvisory (destination : string) : M value :=
  clearSession travelGuide ;;;
  r <- run travelGuide
         ("Give me 3 critical safety or cultural etiquette tips for a tourist visiting "
            ++ destination ++ ".")
         (Some advisory_schema) ;;
  parse (text_or (fst r) "[]").

(** *** searchVisaInfo *)

(** The record [searchVisaInfo] returns. *)
Record VisaPolicy : Type := {
  country : string;
  citizenship : string;
  residency : string;
  purpose : string;
  visaStatus : value;
  summary : value;
  whatsNext : value;
  timeline : value;
  requirements : value;
  sources : list value;
  verification : value
}.

Definition MAX_RETRIES : nat := 2.

Definition policy_schema : Schema :=
  TObject
    [("visaStatus", TEnum ["visa_required"; "visa_free"; "e_visa"; "on_arrival"; "unknown"]);
     ("summary", TString);
     ("whatsNext", TArray (TObject [("title", TString); ("description", TString)]));
     ("timeline", TString);
     ("requirements", TArray TString);
     ("sources", TArray (TObject [("title", TString); ("uri", TString)]))].

Definition initial_prompt (citizenship residency destination purpose : string)
    (year : number) : string :=
  "Find current visa requirements for:" ++ nl ++
  "      - Citizen of: " ++ citizenship ++ nl ++
  "      - Residing in: " ++ residency ++ nl ++
  "      - Destination: " ++ destination ++ nl ++
  "      - Purpose: " ++ purpose ++ nl ++
  nl ++
  "      I need a structured JSON response with status, summary, steps, timeline, requirements, and sources." ++ nl ++
  "      Use Google Search to ensure data is current for " ++ NumberToString year ++ "." ++ nl ++
  "      IMPORTANT: The 'sources' array is MANDATORY. Extract URLs from search results.".

Definition retry_prompt (reasoning : value) : string :=
  "The previous answer was insufficient. Critique: " ++ dq
    ++ ToString NumberToString reasoning ++ dq ++ ". " ++ nl ++
  "        Please fix this. Search specifically for the missing information (especially official sources) and update the JSON.".

Definition criteria : string :=
  "Does the data contain a definitive visa status? Is the timeline specific? " ++ nl ++
  "         CRITICAL: Does the 'sources' array contain at least one valid URL?".

(** [if (onProgress) onProgress(stage)]: the callback is the caller's;
    its invocations are recorded. *)
Definition notify (onProgress : bool) (stage : string) : M unit :=
  if onProgress then emit (Progress stage) else ret tt.

(** The elements [...jsonSources] spreads into the array of all
    sources: those of an array, the code units of a text; anything else
    is not iterable. *)
Definition spread_elements (v : value) : outcome (list value) :=
  match v with
  | VArr elems _ => Ok elems
  | VStr s => Ok (map (fun c => VStr (String c EmptyString)) (list_ascii_of_string s))
  | _ => Throw (TypeError "jsonSources is not iterable")
  end.

(** [raw.candidates?.[0]?.groundingMetadata?.groundingChunks] *)
Definition grounding_chunks (raw : Response) : option (list GroundingChunk) :=
  match candidates raw with
  | Some (c :: _) =>
      match groundingMetadata c with
      | Some gm => groundingChunks gm
      | None => None
      end
  | _ => None
  end.

(** [chunks?.map(chunk => chunk.web ? {title, uri} : null).filter(Boolean) || []] *)
Definition metadata_sources (raw : Response) : list value :=
  match grounding_chunks raw with
  | Some chunks =>
      filter truthy
        (map (fun chunk =>
                match web chunk with
                | Some wb => VObj [("title", title wb); ("uri", uri wb)]
                | None => VNull
                end) chunks)
  | None => []
  end.

(** The [Map] of the reconciler: entries in insertion order. *)
Definition SourceMap : Type := list (value * value).

Definition map_has (k : value) (m : SourceMap) : bool :=
  existsb (fun e => same_key (fst e) k) m.

(** [allSources.forEach(s => { if (s.uri && !map.has(s.uri)) map.set(s.uri, s) })] *)
Fixpoint collect_unique (all : list value) (m : SourceMap) : outcome SourceMap :=
  match all with
  | [] => Ok m
  | s :: rest =>
      match get s "uri" with
      | Ok u =>
          if truthy u && negb (map_has u m)
          then collect_unique rest (m ++ [(u, s)])%list
          else collect_unique rest m
      | Throw e => Throw e
      | OutOfFuel => OutOfFuel
      end
  end.

(** The source aggregation of one attempt: explicit sources of the
    parsed answer, then the grounding metadata, first URI wins. *)
Definition reconcile (jsonSources : list value) (metadataSources : list value)
  : outcome (list value) :=
  match collect_unique (jsonSources ++ metadataSources) [] with
  | Ok m => Ok (map snd m)
  | Throw e => Throw e
  | OutOfFuel => OutOfFuel
  end.

Definition missing_sources_notice : string := " Missing official source links.".

(** The manual guardrail applied when no source was found. *)
Definition penalize (v : value) : outcome value :=
  match get v "score" with
  | Ok sc =>
      match put v "score"
              (VNum (Math_min (ToNumber NumberToString StringToNumber sc) (Fin 5))) with
      | Ok v1 =>
          match put v1 "pass" (VBool false) with
          | Ok v2 =>
              match get v2 "reasoning" with
              | Ok r =>
                  put v2 "reasoning"
                    (VStr (ToString NumberToString (or_else r (VStr ""))
                             ++ missing_sources_notice))
              | Throw e => Throw e
              | OutOfFuel => OutOfFuel
              end
          | Throw e => Throw e
          | OutOfFuel => OutOfFuel
          end
      | Throw e => Throw e
      | OutOfFuel => OutOfFuel
      end
  | Throw e => Throw e
  | OutOfFuel => OutOfFuel
  end.

Definition guardrail (currentSources : list value) (v : value) : outcome value :=
  if Nat.eqb (List.length currentSources) 0 then penalize v else Ok v.

(** [verification.score >= 8] *)
Definition accepted (v : value) : outcome bool :=
  match get v "score" with
  | Ok sc => Ok (num_ge (ToNumber NumberToString StringToNumber sc) (Fin 8))
  | Throw e => Throw e
  | OutOfFuel => OutOfFuel
  end.

(** The variables of the loop. *)
Record LoopState : Type := {
  attempts : nat;
  currentData : value;
  currentSources : list value;
  current_verification : value
}.

Definition loop_start : LoopState :=
  {| attempts := 0;
     currentData := VObj [];
     currentSources := [];
     current_verification :=
       VObj [("score", of_num 0); ("pass", VBool false); ("reasoning", VStr "")] |}.

(** What one attempt leaves in the loop variables. *)
Record Attempt : Type := {
  att_data : value;
  att_sources : list value;
  att_verification : value
}.

(** One pass through the body of the loop, up to and including the
    guardrail. *)
Definition attempt (ctz res dest purp : string) (onProgress : bool)
    (n : nat) (previous : value) : M Attempt :=
  year <- (fun w => (Ok (getFullYear (trace w)), w)) ;;
  prompt <-
    (if Nat.ltb 0 n then
       notify onProgress
         ("Self-Correcting (Attempt "
            ++ NumberToString (Fin (inject_Z (Z.of_nat (n + 1)))) ++ ")...") ;;;
       reasoning <- lift (get previous "reasoning") ;;
       ret (retry_prompt reasoning)
     else
       notify onProgress "Consulting Official Sources..." ;;;
       ret (initial_prompt ctz res dest purp year)) ;;
  r <- run visaConsultant prompt (Some policy_schema) ;;
  let '(text, raw) := r in
  data <- parse (text_or text "{}") ;;
  declared <- lift (get data "sources") ;;
  jsonSources <- lift (spread_elements (or_else declared (VArr [] []))) ;;
  srcs <- lift (reconcile jsonSources (metadata_sources raw)) ;;
  notify onProgress "Verifying Accuracy (AI Auditor)..." ;;;
  v <- match text with
       | Some content => evaluateOutput content criteria
       | None => throw (TypeError "Cannot read properties of undefined (reading 'substring')")
       end ;;
  v' <- lift (guardrail srcs v) ;;
  ret {| att_data := data; att_sources := srcs; att_verification := v' |}.

(** [while (attempts <= MAX_RETRIES) { ... }] *)
Fixpoint search_loop (fuel : nat) (ctz res dest purp : string) (onProgress : bool)
    (st : LoopState) : M LoopState :=
  if Nat.leb (attempts st) MAX_RETRIES then
    match fuel with
    | O => lift OutOfFuel
    | S fuel' =>
        a <- attempt ctz res dest purp onProgress (attempts st) (current_verification st) ;;
        let st' := {| attempts := attempts st;
                      currentData := att_data a;
                      currentSources := att_sources a;
                      current_verification := att_verification a |} in
        stop <- lift (accepted (att_verification a)) ;;
        if (stop : bool) then ret st'
        else search_loop fuel' ctz res dest purp onProgress
               {| attempts := attempts st + 1;
                  currentData := att_data a;
                  currentSources := att_sources a;
                  current_verification := att_verification a |}
    end
  else ret st.

(** The record built after the loop. *)
Definition policy_of (ctz res dest purp : string) (data : value)
    (srcs : list value) (v : value) : outcome VisaPolicy :=
  match get data "visaStatus", get data "summary", get data "whatsNext",
        get data "timeline", get data "requirements" with
  | Ok st, Ok su, Ok wn, Ok tl, Ok rq =>
      Ok {| country := dest; citizenship := ctz; residency := res; purpose := purp;
            visaStatus := or_else st (VStr "unknown");
            summary := or_else su (VStr "Summary not available");
            whatsNext := or_else wn (VArr [] []);
            timeline := or_else tl (VStr "Check official sources");
            requirements := or_else rq (VArr [] []);
            sources := srcs;
            verification := v |}
  | Throw e, _, _, _, _ | _, Throw e, _, _, _ | _, _, Throw e, _, _
  | _, _, _, Throw e, _ | _, _, _, _, Throw e => Throw e
  | _, _, _, _, _ => OutOfFuel
  end.

Definition searchVisaInfo_with (fuel : nat) (ctz res dest purp : string)
    (onProgress : bool) : M VisaPolicy :=
  try_catch
    (clearSession visaConsultant ;;;
     st <- search_loop fuel ctz res dest purp onProgress loop_start ;;
     lift (policy_of ctz res dest purp (currentData st) (currentSources st)
             (current_verification st)))
    (fun e => emit (ConsoleError "Agent failed:" e) ;;; throw e).

(** [searchVisaInfo(citizenship, residency, destination, purpose, onProgress?)];
    three passes are all the loop can make. *)
Definition searchVisaInfo : string -> string -> string -> string -> bool -> M VisaPolicy :=
  searchVisaInfo_with (S MAX_RETRIES).

(** *** generateDocumentChecklist *)

Definition checklist_schema : Schema :=
  TArray (TObject [("id", TString); ("name", TString);
                   ("description", TString); ("isRequired", TBoolean)]).

Definition index_key (i : nat) : string := NilEmpty.string_of_uint (Nat.to_uint i).

Fixpoint indexed (i : nat) (l : list value) : list (string * value) :=
  match l with
  | [] => []
  | x :: rest => (index_key i, x) :: indexed (S i) rest
  end.

(** The own enumerable properties [{...item}] copies. *)
Definition own_properties (item : value) : list (string * value) :=
  match item with
  | VObj props => props
  | VArr elems extra => indexed 0 elems ++ extra
  | VStr s => indexed 0 (map (fun c => VStr (String c EmptyString)) (list_ascii_of_string s))
  | _ => []
  end.

(** [({ ...item, completed: false })] *)
Definition new_item (item : value) : value :=
  VObj (define "completed" (VBool false) (own_properties item)).

(** [items.map(f)]: only an array has [map]. *)
Definition array_map (f : value -> value) (items : value) : outcome value :=
  match items with
  | VArr elems _ => Ok (VArr (map f elems) [])
  | VNull => Throw (TypeError "Cannot read properties of null (reading 'map')")
  | _ => Throw (TypeError "items.map is not a function")
  end.

(** [policy.visaStatus === "visa_free"] *)
Definition is_visa_free (status : value) : bool :=
  match status with
  | VStr s => String.eqb s "visa_free"
  | _ => false
  end.

(** [generateDocumentChecklist(policy)] *)
Definition generateDocumentChecklist (policy : VisaPolicy) : M value :=
  let isVisaFree := is_visa_free (visaStatus policy) in
  r <- run legalDrafter
         ("Generate a JSON checklist for " ++ country policy ++ ". Status: "
            ++ ToString NumberToString (visaStatus policy) ++ "." ++ nl ++
          "     " ++ (if isVisaFree then "Only entry docs (Passport, Ticket)."
                      else "Full visa application docs."))
         (Some checklist_schema) ;;
  items <- parse (text_or (fst r) "[]") ;;
  lift (array_map new_item items).

(** *** generateVisaDocument *)

(** [generateVisaDocument(template, data)]; the text comes back as the
    service gave it. *)
Definition generateVisaDocument (template : string) (data : list (string * value))
  : M (option string) :=
  r <- run legalDrafter
         ("Write a " ++ template ++ " for "
            ++ ToString NumberToString (lookup "destination" data) ++ ". " ++ nl ++
          "    Details: " ++ JSON_stringify (VObj data) ++ ". " ++ nl ++
          "    Format: Professional, formal tone." ++ nl ++
          "    IMPORTANT: Do NOT include the top formal letter header block (Sender Name/Address, Phone, Email, Date, Recipient Address). " ++ nl ++
          "    Start directly with the Subject Line or Salutation.")
         None ;;
  ret (fst r).

(** *** parsePassportImage *)

Definition passport_prompt : string :=
  "Analyze this image of a passport or identification document." ++ nl ++
  "  Extract the following information into a strict JSON object:" ++ nl ++
  "  - fullName" ++ nl ++
  "  - passportNumber" ++ nl ++
  "  - citizenship" ++ nl ++
  "  - dateOfBirth (YYYY-MM-DD)" ++ nl ++
  "  - passportExpiry (YYYY-MM-DD)" ++ nl ++
  "  " ++ nl ++
  "  If a field is not visible or cannot be read, return null. " ++ nl ++
  "  Do not be strict about document validity; extract any text that looks like the requested fields.".

Definition passport_schema : Schema :=
  TObject [("fullName", TString); ("passportNumber", TString);
           ("citizenship", TString); ("dateOfBirth", TString);
           ("passportExpiry", TString)].

Definition fence : string := "```".

(** [s.replace(/^```(json)?\n/, "")] *)
Definition strip_opening (s : string) : string :=
  if startsWith (fence ++ "json" ++ nl) s then drop 8 s
  else if startsWith (fence ++ nl) s then drop 4 s
  else s.

(** [s.replace(/\n```$/, "")] *)
Definition strip_closing (s : string) : string :=
  if endsWith (nl ++ fence) s then String.substring 0 (String.length s - 4) s
  else s.

(** The text handed to [JSON.parse] for a response text. *)
Definition cleaned_text (response_text : option string) : string :=
  let cleanedText := text_or response_text "{}" in
  if startsWith fence cleanedText
  then strip_closing (strip_opening cleanedText)
  else cleanedText.

Definition extraction_failed : error :=
  Error "Could not extract passport details. The image might be too blurry or obscure.".

(** Everything after the response has arrived. *)
Definition passport_result (response_text : option string) : M value :=
  result <- parse (cleaned_text response_text) ;;
  number <- lift (get result "passportNumber") ;;
  missing <- (if truthy number then ret false
              else name <- lift (get result "fullName") ;; ret (negb (truthy name))) ;;
  if (missing : bool) then throw extraction_failed
  else
    fullName <- lift (get result "fullName") ;;
    passportNumber <- lift (get result "passportNumber") ;;
    ctz <- lift (get result "citizenship") ;;
    dateOfBirth <- lift (get result "dateOfBirth") ;;
    passportExpiry <- lift (get result "passportExpiry") ;;
    ret (VObj [("fullName", fullName); ("passportNumber", passportNumber);
               ("citizenship", ctz); ("dateOfBirth", dateOfBirth);
               ("passportExpiry", passportExpiry)]).

(** The multimodal request: the image, then the instructions. *)
Definition passport_request (base64Image mimeType : string) : GenerateRequest :=
  {| g_model := "gemini-2.5-flash";
     g_contents := ContentParts [InlineData base64Image mimeType;
                                 TextPart passport_prompt];
     g_config := {| responseMimeType := "application/json";
                    responseSchema := passport_schema |} |}.

(** [parsePassportImage(base64Image, mimeType)] *)
Definition parsePassportImage (base64Image mimeType : string) : M value :=
  response <- generateContent (passport_request base64Image mimeType) ;;
  passport_result (text response).

End Module_gemini.

(* ================================================================== *)
(** * The second copy of the service module *)
(* ================================================================== *)

(** The repository holds a second copy of the module (headed
    "VISAVOYAGER: AGENTIC CORE SERVICES", with the type declarations
    appended).  Its [AgentSession] class, purpose and advisory
    functions are the same code; the parts below differ. *)
Module CoreServices.

Section Module_core.

Context {engine : Engine} {service : Service}.

Definition consultant_session : AgentSession :=
  new_AgentSession "gemini-2.5-flash"
    {| systemInstruction := "You are an expert Visa Consultant. Your goal is to find the most accurate, up-to-date visa policies. You MUST use Google Search to verify facts.";
       tools := Some [googleSearch; googleMaps] |}.

Definition guide_session : AgentSession :=
  new_AgentSession "gemini-2.5-flash"
    {| systemInstruction := "You are a local cultural expert. You provide safety tips and cultural etiquette advice for travelers.";
       tools := Some [googleSearch] |}.

Definition drafter_session : AgentSession :=
  new_AgentSession "gemini-2.5-flash"
    {| systemInstruction := "You are a professional legal document drafter for immigration purposes. You are precise, formal, and detail-oriented.";
       tools := None |}.

Definition initial_world : World :=
  {| consultant := consultant_session; guide := guide_session;
     drafter := drafter_session; trace := [] |}.

Definition AUDITOR_SYSTEM_PROMPT : string :=
  "You are an AI Output Auditor. " ++ nl ++
  "Task: Evaluate the quality of the provided JSON data." ++ nl ++
  "Criteria: Completeness, Source Validity, and Logic." ++ nl ++
  "Return strict JSON evaluation.".

Definition initial_prompt (citizenship residency destination purpose : string) : string :=
  "Find requirements for " ++ citizenship ++ " citizen residing in " ++ residency
    ++ " visiting " ++ destination ++ " for " ++ purpose ++ "." ++ nl ++
  "      Use Google Search. Return JSON with status, timeline, requirements, and SOURCES.".

Definition retry_prompt (reasoning : value) : string :=
  "Previous answer quality was poor: " ++ dq ++ ToString NumberToString reasoning ++ dq
    ++ ". Fix missing sources/details. Search again.".

(** [map.set(k, v)]: a key already present keeps its place and takes
    the new value. *)
Fixpoint map_set (k v : value) (m : SourceMap) : SourceMap :=
  match m with
  | [] => [(k, v)]
  | (k', v') :: rest =>
      if same_key k' k then (k', v) :: rest else (k', v') :: map_set k v rest
  end.

(** [allSources.map(s => [s.uri, s])] *)
Fixpoint keyed (all : list value) : outcome (list (value * value)) :=
  match all with
  | [] => Ok []
  | s :: rest =>
      match get s "uri" with
      | Ok u =>
          match keyed rest with
          | Ok l => Ok ((u, s) :: l)
          | Throw e => Throw e
          | OutOfFuel => OutOfFuel
          end
      | Throw e => Throw e
      | OutOfFuel => OutOfFuel
      end
  end.

(** [new Map(pairs)] *)
Definition new_Map (pairs : list (value * value)) : SourceMap :=
  fold_left (fun m e => map_set (fst e) (snd e) m) pairs [].

(** [Array.from(new Map(allSources.map(s => [s.uri, s])).values())] *)
Definition reconcile (jsonSources metadataSources : list value) : outcome (list value) :=
  match keyed (jsonSources ++ metadataSources) with
  | Ok pairs => Ok (map snd (new_Map pairs))
  | Throw e => Throw e
  | OutOfFuel => OutOfFuel
  end.

Definition evaluation_fallback : string :=
  "{" ++ dq ++ "score" ++ dq ++ ": 0}".

Definition evaluation_request (data : value) (count : nat) : GenerateRequest :=
  {| g_model := "gemini-2.5-flash";
     g_contents := ContentText
       (AUDITOR_SYSTEM_PROMPT ++ " " ++ nl ++ " Data: " ++ JSON_stringify data
          ++ " " ++ nl ++ " Sources Count: "
          ++ NumberToString (Fin (inject_Z (Z.of_nat count))));
     g_config := {| responseMimeType := "application/json";
                    responseSchema := evaluation_schema |} |}.

(** The auditor call made inside the loop:
    [JSON.parse(evalResponse.text || '{"score": 0}')] *)
Definition evaluate (data : value) (count : nat) : M value :=
  evalResponse <- generateContent (evaluation_request data count) ;;
  parse (text_or (text evalResponse) evaluation_fallback).

Definition missing_sources_notice : string := " Missing official sources.".

(** The manual penalty:
    [verification.score = Math.min(verification.score, 5);
     verification.reasoning += " Missing official sources."] *)
Definition penalize (v : value) : outcome value :=
  match get v "score" with
  | Ok sc =>
      match put v "score"
              (VNum (Math_min (ToNumber NumberToString StringToNumber sc) (Fin 5))) with
      | Ok v1 =>
          match get v1 "reasoning" with
          | Ok r =>
              put v1 "reasoning"
                (VStr (ToString NumberToString r ++ missing_sources_notice))
          | Throw e => Throw e
          | OutOfFuel => OutOfFuel
          end
      | Throw e => Throw e
      | OutOfFuel => OutOfFuel
      end
  | Throw e => Throw e
  | OutOfFuel => OutOfFuel
  end.

Definition guardrail (currentSources : list value) (v : value) : outcome value :=
  if Nat.eqb (List.length currentSources) 0 then penalize v else Ok v.

(** One pass through the body of the loop. *)
Definition attempt (ctz res dest purp : string) (onProgress : bool)
    (n : nat) (previous : value) : M Attempt :=
  prompt <-
    (if Nat.ltb 0 n then
       notify onProgress
         ("Self-Correcting (Attempt "
            ++ NumberToString (Fin (inject_Z (Z.of_nat (n + 1)))) ++ ")...") ;;;
       reasoning <- lift (get previous "reasoning") ;;
       ret (retry_prompt reasoning)
     else
       notify onProgress "Consulting Official Sources..." ;;;
       ret (initial_prompt ctz res dest purp)) ;;
  r <- run visaConsultant prompt (Some policy_schema) ;;
  let '(txt, raw) := r in
  data <- parse (text_or txt "{}") ;;
  declared <- lift (get data "sources") ;;
  jsonSources <- lift (spread_elements (or_else declared (VArr [] []))) ;;
  srcs <- lift (reconcile jsonSources (metadata_sources raw)) ;;
  notify onProgress "Verifying Accuracy (AI Auditor)..." ;;;
  v <- evaluate data (List.length srcs) ;;
  v' <- lift (guardrail srcs v) ;;
  ret {| att_data := data; att_sources := srcs; att_verification := v' |}.

(** [while (attempts <= MAX_RETRIES) { ... }] *)
Fixpoint search_loop (fuel : nat) (ctz res dest purp : string) (onProgress : bool)
    (st : LoopState) : M LoopState :=
  if Nat.leb (attempts st) MAX_RETRIES then
    match fuel with
    | O => lift OutOfFuel
    | S fuel' =>
        a <- attempt ctz res dest purp onProgress (attempts st) (current_verification st) ;;
        let st' := {| attempts := attempts st;
                      currentData := att_data a;
                      currentSources := att_sources a;
                      current_verification := att_verification a |} in
        stop <- lift (accepted (att_verification a)) ;;
        if (stop : bool) then ret st'
        else search_loop fuel' ctz res dest purp onProgress
               {| attempts := attempts st + 1;
                  currentData := att_data a;
                  currentSources := att_sources a;
                  current_verification := att_verification a |}
    end
  else ret st.

Definition searchVisaInfo_with (fuel : nat) (ctz res dest purp : string)
    (onProgress : bool) : M VisaPolicy :=
  try_catch
    (clearSession visaConsultant ;;;
     st <- search_loop fuel ctz res dest purp onProgress loop_start ;;
     lift (policy_of ctz res dest purp (currentData st) (currentSources st)
             (current_verification st)))
    (fun e => emit (ConsoleError "Agent failed:" e) ;;; throw e).

Definition searchVisaInfo : string -> string -> string -> string -> bool -> M VisaPolicy :=
  searchVisaInfo_with (S MAX_RETRIES).

(** [generateDocumentChecklist(policy)] *)
Definition generateDocumentChecklist (policy : VisaPolicy) : M value :=
  let isVisaFree := is_visa_free (visaStatus policy) in
  r <- run legalDrafter
         ("Generate a JSON checklist for " ++ country policy ++ ". Status: "
            ++ ToString NumberToString (visaStatus policy) ++ ". "
            ++ (if isVisaFree then "Entry docs only." else "Visa application docs."))
         (Some checklist_schema) ;;
  items <- parse (text_or (fst r) "[]") ;;
  lift (array_map new_item items).

(** [generateVisaDocument(template, data)] *)
Definition generateVisaDocument (template : string) (data : list (string * value))
  : M (option string) :=
  r <- run legalDrafter
         ("Write a " ++ template ++ " for "
            ++ ToString NumberToString (lookup "destination" data) ++ ". Details: "
            ++ JSON_stringify (VObj data) ++ ". Format: Professional. NO header block.")
         None ;;
  ret (fst r).

Definition passport_prompt : string :=
  "Analyze this ID. Extract JSON: fullName, passportNumber, citizenship, dateOfBirth (YYYY-MM-DD), passportExpiry (YYYY-MM-DD). Return null if unclear.".

Definition extraction_failed : error := Error "Could not extract details.".

(** Everything after the response has arrived; the parsed object
    itself is returned. *)
Definition passport_result (response_text : option string) : M value :=
  result <- parse (cleaned_text response_text) ;;
  number <- lift (get result "passportNumber") ;;
  missing <- (if truthy number then ret false
              else name <- lift (get result "fullName") ;; ret (negb (truthy name))) ;;
  if (missing : bool) then throw extraction_failed else ret result.

(** The multimodal request: the image, then the instructions. *)
Definition passport_request (base64Image mimeType : string) : GenerateRequest :=
  {| g_model := "gemini-2.5-flash";
     g_contents := ContentParts [InlineData base64Image mimeType;
                                 TextPart passport_prompt];
     g_config := {| responseMimeType := "application/json";
                    responseSchema := passport_schema |} |}.

(** [parsePassportImage(base64Image, mimeType)] *)
Definition parsePassportImage (base64Image mimeType : string) : M value :=
  response <- generateContent (passport_request base64Image mimeType) ;;
  passport_result (text response).

End Module_core.

End CoreServices.

(* ================================================================== *)
(** * A reference engine *)
(* ================================================================== *)

(** An executable [Engine], used to run the module on concrete
    responses.  It reads the JSON grammar (texts whose strings stay
    within one-byte code units) and prints numbers in plain decimal
    notation.  The general results further down hold for every engine
    and do not refer to this one. *)
Module ReferenceEngine.

Definition is_space (c : ascii) : bool :=
  let n := nat_of_ascii c in
  Nat.eqb n 32 || Nat.eqb n 9 || Nat.eqb n 10 || Nat.eqb n 13.

Fixpoint skip_ws (s : string) : string :=
  match s with
  | String c r => if is_space c then skip_ws r else s
  | EmptyString => s
  end.

Definition digit_of (c : ascii) : option Z :=
  let n := nat_of_ascii c in
  if Nat.leb 48 n && Nat.leb n 57 then Some (Z.of_nat (n - 48)) else None.

Definition hex_of (c : ascii) : option nat :=
  let n := nat_of_ascii c in
  if Nat.leb 48 n && Nat.leb n 57 then Some (n - 48)
  else if Nat.leb 65 n && Nat.leb n 70 then Some (n - 55)
  else if Nat.leb 97 n && Nat.leb n 102 then Some (n - 87)
  else None.

(** A run of digits: its value, how many there were, and the rest. *)
Fixpoint digits (acc : Z) (count : nat) (s : string) : Z * nat * string :=
  match s with
  | String c r =>
      match digit_of c with
      | Some d => digits (acc * 10 + d) (S count) r
      | None => (acc, count, s)
      end
  | EmptyString => (acc, count, s)
  end.

Definition pow10 (n : nat) : positive := Pos.pow 10 (Pos.of_nat n).

Definition ten_to (n : nat) : Q :=
  match n with
  | O => 1%Q
  | _ => Qmake (Zpos (pow10 n)) 1
  end.

Definition ten_to_minus (n : nat) : Q :=
  match n with
  | O => 1%Q
  | _ => Qmake 1 (pow10 n)
  end.

(** The integer part of a number: a lone zero, or digits that do not
    start with a zero. *)
Definition integer_part (s : string) : option (Z * string) :=
  match s with
  | String c r =>
      match digit_of c with
      | Some 0%Z => Some (0%Z, r)
      | Some _ => let '(v, _, r') := digits 0 0 s in Some (v, r')
      | None => None
      end
  | EmptyString => None
  end.

Definition fraction_part (s : string) : option (Q * string) :=
  match s with
  | String "." r =>
      let '(v, n, r') := digits 0 0 r in
      match n with
      | O => None
      | _ => Some (Qmult (inject_Z v) (ten_to_minus n), r')
      end
  | _ => Some (0%Q, s)
  end.

Definition exponent_part (s : string) : option (Q * string) :=
  let read (neg : bool) (r : string) :=
    let '(v, n, r') := digits 0 0 r in
    match n with
    | O => None
    | _ => Some ((if neg then ten_to_minus (Z.to_nat v) else ten_to (Z.to_nat v)), r')
    end in
  match s with
  | String c r =>
      if Ascii.eqb c "e" || Ascii.eqb c "E" then
        match r with
        | String "-" r' => read true r'
        | String "+" r' => read false r'
        | _ => read false r
        end
      else Some (1%Q, s)
  | EmptyString => Some (1%Q, s)
  end.

Definition parse_number (s : string) : option (Q * string) :=
  let '(neg, s1) := match s with
                    | String "-" r => (true, r)
                    | _ => (false, s)
                    end in
  match integer_part s1 with
  | Some (i, s2) =>
      match fraction_part s2 with
      | Some (f, s3) =>
          match exponent_part s3 with
          | Some (e, s4) =>
              let q := Qred (Qmult (Qplus (inject_Z i) f) e) in
              Some ((if neg then Qred (Qopp q) else q), s4)
          | None => None
          end
      | None => None
      end
  | None => None
  end.

(** The characters of a string literal after its opening quote. *)
Fixpoint parse_string (s : string) : option (string * string) :=
  match s with
  | EmptyString => None
  | String c r =>
      if Ascii.eqb c (ascii_of_nat 34) then Some (EmptyString, r)
      else if Ascii.eqb c (ascii_of_nat 92) then
        match r with
        | String e r' =>
            let continue_with (x : ascii) (rest : string) :=
              match parse_string rest with
              | Some (body, out) => Some (String x body, out)
              | None => None
              end in
            let n := nat_of_ascii e in
            if Nat.eqb n 34 then continue_with (ascii_of_nat 34) r'
            else if Nat.eqb n 92 then continue_with (ascii_of_nat 92) r'
            else if Nat.eqb n 47 then continue_with (ascii_of_nat 47) r'
            else if Nat.eqb n 98 then continue_with (ascii_of_nat 8) r'
            else if Nat.eqb n 102 then continue_with (ascii_of_nat 12) r'
            else if Nat.eqb n 110 then continue_with (ascii_of_nat 10) r'
            else if Nat.eqb n 114 then continue_with (ascii_of_nat 13) r'
            else if Nat.eqb n 116 then continue_with (ascii_of_nat 9) r'
            else if Nat.eqb n 117 then
              match r' with
              | String h1 (String h2 (String h3 (String h4 r''))) =>
                  match hex_of h1, hex_of h2, hex_of h3, hex_of h4 with
                  | Some 0, Some 0, Some a, Some b =>
                      continue_with (ascii_of_nat (16 * a + b)) r''
                  | _, _, _, _ => None
                  end
              | _ => None
              end
            else None
        | EmptyString => None
        end
      else if Nat.ltb (nat_of_ascii c) 32 then None
      else
        match parse_string r with
        | Some (body, out) => Some (String c body, out)
        | None => None
        end
  end.

Definition expect (word : string) (v : value) (s : string) : option (value * string) :=
  if String.prefix word s then Some (v, drop (String.length word) s) else None.

Fixpoint parse_value (fuel : nat) (s : string) : option (value * string) :=
  match fuel with
  | O => None
  | S f =>
      match skip_ws s with
      | EmptyString => None
      | String c r as s' =>
          let n := nat_of_ascii c in
          if Nat.eqb n 123 then
            match skip_ws r with
            | String "}" r' => Some (VObj [], r')
            | r' => parse_members f [] r'
            end
          else if Nat.eqb n 91 then
            match skip_ws r with
            | String "]" r' => Some (VArr [] [], r')
            | r' => parse_elements f [] r'
            end
          else if Nat.eqb n 34 then
            match parse_string r with
            | Some (str, r') => Some (VStr str, r')
            | None => None
            end
          else if Nat.eqb n 116 then expect "true" (VBool true) s'
          else if Nat.eqb n 102 then expect "false" (VBool false) s'
          else if Nat.eqb n 110 then expect "null" VNull s'
          else
            match parse_number s' with
            | Some (q, r') => Some (VNum (Fin q), r')
            | None => None
            end
      end
  end

with parse_elements (fuel : nat) (acc : list value) (s : string)
  : option (value * string) :=
  match fuel with
  | O => None
  | S f =>
      match parse_value f s with
      | Some (v, r) =>
          match skip_ws r with
          | String "," r' => parse_elements f (acc ++ [v]) r'
          | String "]" r' => Some (VArr (acc ++ [v]) [], r')
          | _ => None
          end
      | None => None
      end
  end

with parse_members (fuel : nat) (acc : list (string * value)) (s : string)
  : option (value * string) :=
  match fuel with
  | O => None
  | S f =>
      match skip_ws s with
      | String c r =>
          if Nat.eqb (nat_of_ascii c) 34 then
            match parse_string r with
            | Some (k, r1) =>
                match skip_ws r1 with
                | String ":" r2 =>
                    match parse_value f r2 with
                    | Some (v, r3) =>
                        match skip_ws r3 with
                        | String "," r4 => parse_members f (define k v acc) r4
                        | String "}" r4 => Some (VObj (define k v acc), r4)
                        | _ => None
                        end
                    | None => None
                    end
                | _ => None
                end
            | None => None
            end
          else None
      | EmptyString => None
      end
  end.

(** [JSON.parse]: one value, surrounded by white space only.  Every
    level of the descent reads at least one character every other
    step, so twice the length of the text is budget enough. *)
Definition JSON_parse (s : string) : option value :=
  match parse_value (2 * String.length s + 2) s with
  | Some (v, r) =>
      match skip_ws r with
      | EmptyString => Some v
      | _ => None
      end
  | None => None
  end.

(** Decimal notation of a non-negative integer. *)
Definition decimal (z : Z) : string := NilZero.string_of_uint (N.to_uint (Z.to_N z)).

Definition digit_char (d : Z) : ascii := ascii_of_nat (48 + Z.to_nat d).

(** The digits after the point of [rem / den], at most [fuel] of them. *)
Fixpoint fraction_digits (fuel : nat) (rem den : Z) : string :=
  match fuel with
  | O => EmptyString
  | S f =>
      if Z.eqb rem 0 then EmptyString
      else String (digit_char (rem * 10 / den))
             (fraction_digits f ((rem * 10) mod den) den)
  end.

(** [Number.prototype.toString] in plain decimal notation. *)
Definition NumberToString (n : number) : string :=
  match n with
  | NaN => "NaN"
  | PosInf => "Infinity"
  | NegInf => "-Infinity"
  | Fin q =>
      let r := Qred q in
      let num := Z.abs (Qnum r) in
      let den := Zpos (Qden r) in
      let whole := decimal (num / den) in
      let frac := fraction_digits 20 (num mod den) den in
      let body := if String.eqb frac "" then whole else whole ++ "." ++ frac in
      if Z.ltb (Qnum r) 0 then "-" ++ body else body
  end.

Fixpoint trim_left (s : string) : string :=
  match s with
  | String c r => if is_space c then trim_left r else s
  | EmptyString => s
  end.

Definition trim (s : string) : string :=
  rev_string (trim_left (rev_string (trim_left s))).

(** [StringToNumber] on decimal numerals; white space alone is zero and
    any other text is [NaN]. *)
Definition StringToNumber (s : string) : number :=
  let t := trim s in
  if String.eqb t "" then Fin 0
  else match parse_number t with
       | Some (q, EmptyString) => Fin q
       | _ => NaN
       end.

Definition hex_char (n : nat) : ascii :=
  if Nat.ltb n 10 then ascii_of_nat (48 + n) else ascii_of_nat (87 + n).

(** A string literal with its quotes and escapes. *)
Fixpoint quote_body (s : string) : string :=
  match s with
  | EmptyString => EmptyString
  | String c r =>
      let n := nat_of_ascii c in
      let bs := String (ascii_of_nat 92) EmptyString in
      (if Nat.eqb n 34 then bs ++ dq
       else if Nat.eqb n 92 then bs ++ bs
       else if Nat.eqb n 8 then bs ++ "b"
       else if Nat.eqb n 12 then bs ++ "f"
       else if Nat.eqb n 10 then bs ++ "n"
       else if Nat.eqb n 13 then bs ++ "r"
       else if Nat.eqb n 9 then bs ++ "t"
       else if Nat.ltb n 32 then
         bs ++ "u00" ++ String (hex_char (n / 16)) (String (hex_char (n mod 16)) EmptyString)
       else String c EmptyString) ++ quote_body r
  end.

Definition quote (s : string) : string := dq ++ quote_body s ++ dq.

(** [JSON.stringify(v)]; [None] where it answers [undefined]. *)
Fixpoint stringify (v : value) : option string :=
  match v with
  | VUndefined => None
  | VNull => Some "null"
  | VBool true => Some "true"
  | VBool false => Some "false"
  | VNum (Fin q) => Some (NumberToString (Fin q))
  | VNum _ => Some "null"
  | VStr s => Some (quote s)
  | VArr elems _ =>
      Some ("[" ++ join ","
              ((fix each (l : list value) : list string :=
                  match l with
                  | [] => []
                  | x :: rest =>
                      match stringify x with
                      | Some t => t :: each rest
                      | None => "null" :: each rest
                      end
                  end) elems) ++ "]")
  | VObj props =>
      Some ("{" ++ join ","
              ((fix each (l : list (string * value)) : list string :=
                  match l with
                  | [] => []
                  | (k, x) :: rest =>
                      match stringify x with
                      | Some t => (quote k ++ ":" ++ t) :: each rest
                      | None => each rest
                      end
                  end) props) ++ "}")
  end.

Definition JSON_stringify (v : value) : string :=
  match stringify v with
  | Some t => t
  | None => "undefined"
  end.

End ReferenceEngine.

Definition reference_engine : Engine :=
  {| JSON_parse := ReferenceEngine.JSON_parse;
     JSON_stringify := ReferenceEngine.JSON_stringify;
     NumberToString := ReferenceEngine.NumberToString;
     StringToNumber := ReferenceEngine.StringToNumber |}.

(** ** A scripted service *)

Definition is_request (e : Event) : bool :=
  match e with
  | SendMessage _ _ | GenerateContent _ => true
  | _ => false
  end.

(** How many requests went out. *)
Definition requests (tr : list Event) : nat := List.length (filter is_request tr).

(** A service that answers its n-th request with the n-th entry of a
    script, and fails once the script is used up. *)
Definition scripted (script : list answer) (year : Z) : Service :=
  {| reply := fun tr =>
       nth (requests tr - 1) script (Failure (ServiceError "no more answers"));
     getFullYear := fun _ => Fin (inject_Z year) |}.

(** A response whose one candidate carries a text and no grounding
    metadata. *)
Definition plain (t : string) : Response :=
  {| text := Some t;
     candidates := Some [{| groundingMetadata := None; valid_content := true |}] |}.

(** A response with a text and grounding chunks. *)
Definition grounded (t : string) (chunks : list GroundingChunk) : Response :=
  {| text := Some t;
     candidates := Some [{| groundingMetadata := Some {| groundingChunks := Some chunks |};
                            valid_content := true |}] |}.

Definition web_chunk (t u : string) : GroundingChunk :=
  {| web := Some {| title := VStr t; uri := VStr u |} |}.

Fixpoint replicate (n : nat) (c : ascii) : string :=
  match n with
  | O => EmptyString
  | S n' => String c (replicate n' c)
  end.

(** The fail-safe evaluation. *)
Definition fail_safe : value :=
  VObj [("score", of_num 0); ("pass", VBool false);
        ("reasoning", VStr "Evaluation failed")].

(* ================================================================== *)
(** * Concrete runs *)
(* ================================================================== *)

(** Responses and services used to run the module on the reference
    engine. *)
Module Examples.

Definition jstr (s : string) : string := dq ++ s ++ dq.
Definition jpair (k v : string) : string := jstr k ++ ":" ++ v.
Definition jobj (members : list string) : string := "{" ++ join "," members ++ "}".
Definition jarr (elements : list string) : string := "[" ++ join "," elements ++ "]".

Definition source (t u : string) : string :=
  jobj [jpair "title" (jstr t); jpair "uri" (jstr u)].

Definition evaluation (score : string) (pass : string) (reasoning : string) : string :=
  jobj [jpair "score" score; jpair "pass" pass; jpair "reasoning" (jstr reasoning)].

(** An answer with a status and one explicit source. *)
Definition japan_answer : string :=
  jobj [jpair "visaStatus" (jstr "visa_free");
        jpair "summary" (jstr "No visa is needed for short stays.");
        jpair "timeline" (jstr "Up to 90 days");
        jpair "requirements" (jarr [jstr "Valid passport"]);
        jpair "sources" (jarr [source "Ministry of Foreign Affairs" "https://www.mofa.go.jp/visa"])].

(** Answers without any source. *)
Definition vague_answer (summary : string) : string :=
  jobj [jpair "visaStatus" (jstr "unknown"); jpair "summary" (jstr summary)].

Definition japan_chunks : list GroundingChunk :=
  [web_chunk "Search result" "https://www.mofa.go.jp/visa";
   web_chunk "Embassy of Japan" "https://www.ca.emb-japan.go.jp"].

(** The first attempt is audited at 9. *)
Definition accepting_service : Service :=
  scripted [Answer (grounded japan_answer japan_chunks);
            Answer (plain (evaluation "9" "true" "Complete and sourced."))] 2025.

(** The first attempt is audited at 7, the second at 3, the third at 4;
    only the first found sources. *)
Definition struggling_service : Service :=
  scripted [Answer (grounded japan_answer japan_chunks);
            Answer (plain (evaluation "7" "true" "Timeline is vague."));
            Answer (plain (vague_answer "Second try"));
            Answer (plain (evaluation "3" "false" "No sources."));
            Answer (plain (vague_answer "Third try"));
            Answer (plain (evaluation "4" "false" "Still no sources."))] 2025.

(** The auditor leaves the score out, and no attempt finds a source. *)
Definition scoreless_evaluation : string :=
  jobj [jpair "pass" "true"; jpair "reasoning" (jstr "Looks fine")].

Definition scoreless_service : Service :=
  scripted [Answer (plain (vague_answer "First try"));
            Answer (plain scoreless_evaluation);
            Answer (plain (vague_answer "Second try"));
            Answer (plain scoreless_evaluation);
            Answer (plain (vague_answer "Third try"));
            Answer (plain scoreless_evaluation)] 2025.

(** The auditor answers with something that is not JSON. *)
Definition garbled_service : Service :=
  scripted [Answer (plain japan_answer); Answer (plain "I cannot evaluate this.")] 2025.

(** The auditor alone, answering with something that is not JSON. *)
Definition garbled_auditor : Service :=
  scripted [Answer (plain "I cannot evaluate this.")] 2025.

(** The auditor answers without any text. *)
Definition silent_service : Service :=
  scripted [Answer {| text := None; candidates := None |}] 2025.

(** The same URI, explicitly and in the grounding metadata. *)
Definition explicit_sources : list value :=
  [VObj [("title", VStr "Ministry of Foreign Affairs");
         ("uri", VStr "https://www.mofa.go.jp/visa")]].

Definition implicit_sources : list value :=
  [VObj [("title", VStr "Search result");
         ("uri", VStr "https://www.mofa.go.jp/visa")]].

(** A letter is drafted, then a checklist is generated. *)
Definition drafting_service : Service :=
  scripted [Answer (plain "Dear Visa Officer, ...");
            Answer (plain (jarr [jobj [jpair "id" (jstr "1");
                                       jpair "name" (jstr "Passport");
                                       jpair "isRequired" "true";
                                       jpair "completed" "true"];
                                 jobj [jpair "id" (jstr "2");
                                       jpair "name" (jstr "Return ticket");
                                       jpair "completed" (jstr "yes")]]))] 2025.

Definition letter_data : list (string * value) :=
  [("destination", VStr "Japan"); ("fullName", VStr "A. Traveller")].

Definition japan_policy : VisaPolicy :=
  {| country := "Japan"; citizenship := "Canada"; residency := "Canada";
     purpose := "Tourism"; visaStatus := VStr "visa_free";
     summary := VStr "No visa is needed for short stays.";
     whatsNext := VArr [] []; timeline := VStr "Up to 90 days";
     requirements := VArr [] []; sources := explicit_sources;
     verification := fail_safe |}.

(** The checklist alone, on a fresh module. *)
Definition checklist_service : Service :=
  scripted [Answer (plain (jarr [jobj [jpair "id" (jstr "1");
                                       jpair "name" (jstr "Passport");
                                       jpair "completed" "true"]]))] 2025.

(** A passport read with a name and nothing else, inside a code fence. *)
Definition fenced_passport : string :=
  fence ++ "json" ++ nl
    ++ jobj [jpair "fullName" (jstr "A. Traveller"); jpair "passportNumber" "null"]
    ++ nl ++ fence.

Definition passport_service : Service :=
  scripted [Answer (plain fenced_passport)] 2025.


(** Two long candidates that differ only after 3000 code units. *)
Definition long_candidate (tail : string) : string := replicate 3000 "a" ++ tail.

End Examples.

(* ================================================================== *)
(** * Vocabulary of the specification *)
(* ================================================================== *)

Definition is_send (e : Event) : bool :=
  match e with
  | SendMessage _ _ => true
  | _ => false
  end.

(** How many messages were sent to a chat: each attempt of the search
    sends exactly one. *)
Definition sends (tr : list Event) : nat := List.length (filter is_send tr).

(** The chats that messages were sent to, in order, each as it stood
    when the message left. *)
Definition contexts (tr : list Event) : list (list Turn) :=
  flat_map (fun e => match e with
                     | SendMessage c _ => [turns c]
                     | _ => []
                     end) tr.

(** The turns a message of [p] goes out with: those of its chat, or the
    history a new chat is created from. *)
Definition pending (p : Persona) (w : World) : list Turn :=
  match chat (session p w) with
  | Some c => turns c
  | None => history (session p w)
  end.

(** The score of a verification lies at or below five. *)
Definition score_at_most_5 {engine : Engine} (v : value) : Prop :=
  exists sc, get v "score" = Ok sc /\
             num_le (ToNumber NumberToString StringToNumber sc) (Fin 5) = true.

(** The reasoning of a verification is a text that contains [notice]. *)
Definition reasoning_mentions (notice : string) (v : value) : Prop :=
  exists r, get v "reasoning" = Ok (VStr r) /\ includes notice r = true.

(** What reading the property [k] of [o] gives, where it gives
    something. *)
Definition field (o : value) (k : string) : value :=
  match get o k with
  | Ok v => v
  | _ => VUndefined
  end.

(** The URI and the title of a source. *)
Definition uri_of (s : value) : value := field s "uri".

Definition title_of (s : value) : value := field s "title".

(** No two entries of a list carry the same URI, that is the same key
    of a [Map]. *)
Definition unique_uris (l : list value) : Prop :=
  forall i j a b,
    nth_error l i = Some a -> nth_error l j = Some b -> i <> j ->
    same_key (uri_of a) (uri_of b) = false.

(** A field counts as absent when [!field] holds: it is missing, [null]
    or empty. *)
Definition absent (v : value) : Prop := truthy v = false.

(** Two texts have the same first [n] code units. *)
Definition agree_upto (n : nat) (s1 s2 : string) : Prop :=
  forall i, i < n -> String.get i s1 = String.get i s2.

Fixpoint agree_uptob (n : nat) (s1 s2 : string) : bool :=
  match n with
  | O => true
  | S n' =>
      match s1, s2 with
      | EmptyString, EmptyString => true
      | String c1 r1, String c2 r2 => Ascii.eqb c1 c2 && agree_uptob n' r1 r2
      | _, _ => false
      end
  end.

(** The first [n] code units of a text. *)
Fixpoint take (n : nat) (s : string) : string :=
  match n, s with
  | S n', String c r => String c (take n' r)
  | _, _ => EmptyString
  end.

(** [grows k m]: running [m] only adds events to the record, and among
    them at most [k] messages to a chat. *)
Definition grows {A} (k : nat) (m : M A) : Prop :=
  forall w, exists evs, trace (snd (m w)) = (trace w ++ evs)%list /\ sends evs <= k.

(** [total m]: [m] never runs out of budget. *)
Definition total {A} (m : M A) : Prop := forall w, fst (m w) <> OutOfFuel.

(** The loop variables after attempt [a], with the counter at [n]. *)
Definition carried (n : nat) (a : Attempt) : LoopState :=
  {| attempts := n; currentData := att_data a;
     currentSources := att_sources a;
     current_verification := att_verification a |}.

(** The identity record built from a parsed result. *)
Definition identity_of (result : value) : value :=
  VObj [("fullName", field result "fullName");
        ("passportNumber", field result "passportNumber");
        ("citizenship", field result "citizenship");
        ("dateOfBirth", field result "dateOfBirth");
        ("passportExpiry", field result "passportExpiry")].

(** The first entry of a list that carries the URI [u]. *)
Definition first_with (u : value) (l : list value) : option value :=
  find (fun s => same_key (uri_of s) u) l.

(** Two entries carry different URIs. *)
Definition apart (a b : value) : Prop := same_key (uri_of a) (uri_of b) = false.

(** Every entry of the map is filed under its own, truthy, URI. *)
Definition filed (m : SourceMap) : Prop :=
  Forall (fun e => uri_of (snd e) = fst e /\ truthy (fst e) = true) m.

(** An entry of the map of the second copy: filed under the URI of its
    value, or under a key that is the same URI. *)
Definition linked (e : value * value) : Prop :=
  uri_of (snd e) = fst e \/ same_key (fst e) (uri_of (snd e)) = true.

(** Two entries of a map lie under different keys. *)
Definition keys_apart (e1 e2 : value * value) : Prop := same_key (fst e1) (fst e2) = false.

Section Iterations.

Context {engine : Engine}.

(** The body of the retry loop: from the attempt index and the
    previous verification to what the attempt leaves. *)
Variable body : nat -> value -> M Attempt.

(** [iteration body w0 n st w]: in a call of [searchVisaInfo] started in
    world [w0], with [body] as the body of its loop, the head of the
    loop is reached for the [n]-th time (counting from zero) with
    variables [st], in world [w].  A further iteration follows an
    attempt that completed and was not accepted. *)
Inductive iteration (w0 : World) : nat -> LoopState -> World -> Prop :=
| iteration_first :
    iteration w0 0 loop_start (snd (clearSession visaConsultant w0))
| iteration_next n st w a w1 :
    iteration w0 n st w ->
    n <= MAX_RETRIES ->
    body n (current_verification st) w = (Ok a, w1) ->
    accepted (att_verification a) = Ok false ->
    iteration w0 (S n) (carried (S n) a) w1.

End Iterations.

(* ================================================================== *)
(** * The components that call the module *)
(* ================================================================== *)

(** The React components hold their state in hooks; a handler is
    embedded as a function from the state it reads to the state it
    leaves, in the monad of the module where it calls the module. *)

(** [{ ...into, k1: v1, ..., kn: vn }]: the properties are defined from
    left to right. *)
Definition assign (fields into : list (string * value)) : list (string * value) :=
  fold_left (fun props kv => define (fst kv) (snd kv) props) fields into.

(** [o?.k] *)
Definition optional_get (o : value) (k : string) : value :=
  match o with
  | VUndefined | VNull => VUndefined
  | VObj props => lookup k props
  | VArr _ extra => lookup k extra
  | VBool _ | VNum _ | VStr _ => VUndefined
  end.

(** [a === s] for a string [s]. *)
Definition equals_string (a : value) (s : string) : bool :=
  match a with
  | VStr x => String.eqb x s
  | _ => false
  end.

(** [a < b] on numbers; any comparison with [NaN] is false. *)
Definition num_lt (a b : number) : bool :=
  match a, b with
  | NaN, _ | _, NaN => false
  | _, _ => negb (num_ge a b)
  end.

(** ** App.tsx *)

Module App.

(** [item.id === id ? { ...item, completed: !item.completed } : item] *)
Definition toggled (id : string) (item : value) : outcome value :=
  match get item "id" with
  | Ok i =>
      if equals_string i id then
        match get item "completed" with
        | Ok c =>
            Ok (VObj (define "completed" (VBool (negb (truthy c))) (own_properties item)))
        | Throw e => Throw e
        | OutOfFuel => OutOfFuel
        end
      else Ok item
  | Throw e => Throw e
  | OutOfFuel => OutOfFuel
  end.

(** [prev.map(f)] over the elements of the array, for a callback that
    may throw. *)
Fixpoint each (f : value -> outcome value) (prev : list value) : outcome (list value) :=
  match prev with
  | [] => Ok []
  | item :: rest =>
      match f item with
      | Ok item' =>
          match each f rest with
          | Ok rest' => Ok (item' :: rest')
          | Throw e => Throw e
          | OutOfFuel => OutOfFuel
          end
      | Throw e => Throw e
      | OutOfFuel => OutOfFuel
      end
  end.

(** [toggleChecklistItem(id)], as the update of [checklistItems]. *)
Definition toggleChecklistItem (id : string) (prev : list value) : outcome (list value) :=
  each (toggled id) prev.

(** [handleUpdateProfile(updates)], as the update of [userProfile]:
    [{ ...prev, ...updates }]. *)
Definition handleUpdateProfile (updates prev : value) : value :=
  VObj (assign (own_properties updates) (own_properties prev)).

End App.

(** ** PolicyResults.tsx *)

Module PolicyResults.

Section Panel.

Context {engine : Engine}.

(** [policy.verification?.score || 0] *)
Definition evalScore (policy : VisaPolicy) : value :=
  or_else (optional_get (verification policy) "score") (of_num 0).

(** [evalScore < 3] *)
Definition isCriticalFailure (policy : VisaPolicy) : bool :=
  num_lt (ToNumber NumberToString StringToNumber (evalScore policy)) (Fin 3).

(** [evalScore >= 8] *)
Definition isHighConfidence (policy : VisaPolicy) : bool :=
  num_ge (ToNumber NumberToString StringToNumber (evalScore policy)) (Fin 8).

(** [isHighConfidence || showPreliminaryDetails] *)
Definition showContent (policy : VisaPolicy) (showPreliminaryDetails : bool) : bool :=
  isHighConfidence policy || showPreliminaryDetails.

(** What the component renders: the panel that blocks the result, or
    the result with or without the warning banner (which shows the
    reasoning of the auditor) and with or without its details. *)
Inductive Rendered : Type :=
| DataUnavailable (score : value)
| Result (warning : option value) (details : bool).

(** The body of the component for a policy and the flag the two
    "show me anyway" buttons set. *)
Definition render (policy : VisaPolicy) (showPreliminaryDetails : bool) : Rendered :=
  if isCriticalFailure policy then DataUnavailable (evalScore policy)
  else
    Result
      (if negb (isHighConfidence policy)
       then Some (or_else (optional_get (verification policy) "reasoning")
                          (VStr "Reasoning unavailable"))
       else None)
      (showContent policy showPreliminaryDetails).

End Panel.

End PolicyResults.

(** ** DocBuilder.tsx *)

Module DocBuilder.

(** The form the component starts with. *)
Definition initial_formData : list (string * value) :=
  [("name", VStr ""); ("passportNumber", VStr ""); ("nationality", VStr "");
   ("dateOfBirth", VStr ""); ("passportExpiry", VStr ""); ("address", VStr "");
   ("email", VStr ""); ("phone", VStr ""); ("jobTitle", VStr "");
   ("destination", VStr ""); ("dates", VStr ""); ("purpose", VStr "Tourism");
   ("employerName", VStr ""); ("employerAddress", VStr ""); ("startDate", VStr "");
   ("salary", VStr ""); ("arrivalFlight", VStr ""); ("departureFlight", VStr "");
   ("accommodation", VStr ""); ("activities", VStr "")].

(** The update of the form the autofill effect makes, for the profile
    and the policy the component was given (either may be missing). *)
Definition autofill (userProfile : value) (policy : option VisaPolicy)
    (prev : list (string * value)) : list (string * value) :=
  assign
    [("name", or_else (optional_get userProfile "fullName") (lookup "name" prev));
     ("passportNumber",
       or_else (optional_get userProfile "passportNumber") (lookup "passportNumber" prev));
     ("nationality",
       or_else (optional_get userProfile "citizenship") (lookup "nationality" prev));
     ("dateOfBirth",
       or_else (optional_get userProfile "dateOfBirth") (lookup "dateOfBirth" prev));
     ("passportExpiry",
       or_else (optional_get userProfile "passportExpiry") (lookup "passportExpiry" prev));
     ("address", or_else (optional_get userProfile "homeAddress") (lookup "address" prev));
     ("email", or_else (optional_get userProfile "email") (lookup "email" prev));
     ("phone", or_else (optional_get userProfile "phone") (lookup "phone" prev));
     ("destination",
       or_else (match policy with
                | Some p => VStr (country p)
                | None => VUndefined
                end) (lookup "destination" prev));
     ("purpose",
       or_else (match policy with
                | Some p => VStr (purpose p)
                | None => VUndefined
                end) (lookup "purpose" prev))]
    prev.

(** [s.split(sep)] for a separator of one code unit. *)
Fixpoint split (sep : ascii) (s : string) : list string :=
  match s with
  | EmptyString => [EmptyString]
  | String c rest =>
      if Ascii.eqb c sep then EmptyString :: split sep rest
      else match split sep rest with
           | [] => [String c EmptyString]
           | x :: xs => String c x :: xs
           end
  end.

(** [result.split(',')[1]]: what follows the first comma of the data
    URL the reader produced, up to the next one. *)
Definition base64String (result : string) : option string :=
  nth_error (split "," result) 1.

Section Scan.

Context {engine : Engine} {service : Service}.

(** The callback of the reader from the payload on: the passport is
    parsed and the form is updated from what was read. *)
Definition scan (base64 mimeType : string) (prev : list (string * value))
  : M (list (string * value)) :=
  extractedData <- parsePassportImage base64 mimeType ;;
  fullName <- lift (get extractedData "fullName") ;;
  passportNumber <- lift (get extractedData "passportNumber") ;;
  ctz <- lift (get extractedData "citizenship") ;;
  dateOfBirth <- lift (get extractedData "dateOfBirth") ;;
  passportExpiry <- lift (get extractedData "passportExpiry") ;;
  ret (assign
         [("name", or_else fullName (lookup "name" prev));
          ("passportNumber", or_else passportNumber (lookup "passportNumber" prev));
          ("nationality", or_else ctz (lookup "nationality" prev));
          ("dateOfBirth", or_else dateOfBirth (lookup "dateOfBirth" prev));
          ("passportExpiry", or_else passportExpiry (lookup "passportExpiry" prev))]
         prev).

End Scan.

End DocBuilder.

(** ** VisaSearch.tsx *)

Module VisaSearch.

Inductive SearchStep : Type := LOCATION | PURPOSE.

(** The hooks of the component. *)
Record State : Type := {
  step : SearchStep;
  citizenship : string;
  residency : string;
  destination : string;
  isLoading : bool;
  loadingStatus : string;
  error : string;
  purposes : value;
  selectedPurposeId : string
}.

Definition setStep (s : SearchStep) (st : State) : State :=
  {| step := s; citizenship := citizenship st; residency := residency st;
     destination := destination st; isLoading := isLoading st;
     loadingStatus := loadingStatus st; error := error st;
     purposes := purposes st; selectedPurposeId := selectedPurposeId st |}.

Definition setIsLoading (b : bool) (st : State) : State :=
  {| step := step st; citizenship := citizenship st; residency := residency st;
     destination := destination st; isLoading := b;
     loadingStatus := loadingStatus st; error := error st;
     purposes := purposes st; selectedPurposeId := selectedPurposeId st |}.

Definition setError (s : string) (st : State) : State :=
  {| step := step st; citizenship := citizenship st; residency := residency st;
     destination := destination st; isLoading := isLoading st;
     loadingStatus := loadingStatus st; error := s;
     purposes := purposes st; selectedPurposeId := selectedPurposeId st |}.

Definition setPurposes (v : value) (st : State) : State :=
  {| step := step st; citizenship := citizenship st; residency := residency st;
     destination := destination st; isLoading := isLoading st;
     loadingStatus := loadingStatus st; error := error st;
     purposes := v; selectedPurposeId := selectedPurposeId st |}.

(** [!citizenship || !destination || !residency] *)
Definition incomplete (st : State) : bool :=
  String.eqb (citizenship st) "" || String.eqb (destination st) ""
    || String.eqb (residency st) "".

Section Handlers.

Context {engine : Engine} {service : Service}.

(** [handleLocationSubmit]: from the hooks of the component and the
    profile the application holds to what the handler leaves of both
    ([onUpdateProfile] is [App.handleUpdateProfile]). *)
Definition handleLocationSubmit (st : State) (userProfile : value) : M (State * value) :=
  if incomplete st then ret (st, userProfile)
  else
    let submitted := setError "" (setIsLoading true st) in
    let profile :=
      App.handleUpdateProfile
        (VObj [("citizenship", VStr (citizenship st)); ("residency", VStr (residency st))])
        userProfile in
    settled <-
      try_catch
        (availablePurposes <- getCommonVisaPurposes (citizenship st) (destination st) ;;
         ret (setStep PURPOSE (setPurposes availablePurposes submitted)))
        (fun _ =>
           ret (setError "Could not determine visa types. Please verify country names."
                  submitted)) ;;
    ret (setIsLoading false settled, profile).

End Handlers.

End VisaSearch.

(* ================================================================== *)
(** * Vocabulary for the module at large *)
(* ================================================================== *)

(** The messages sent to a chat, in order. *)
Definition messages (tr : list Event) : list string :=
  flat_map (fun e => match e with
                     | SendMessage _ req => [message req]
                     | _ => []
                     end) tr.

(** [preserves R m]: whatever [m] does, the world it leaves is related
    by [R] to the one it started in. *)
Definition preserves {A} (R : World -> World -> Prop) (m : M A) : Prop :=
  forall w, R w (snd (m w)).

(** The session of persona [p] is the same in both worlds. *)
Definition same_session (p : Persona) (w w' : World) : Prop :=
  session p w' = session p w.

(** Every persona has the model and the configuration it had. *)
Definition same_configuration (w w' : World) : Prop :=
  forall p, session_model (session p w') = session_model (session p w)
            /\ session_config (session p w') = session_config (session p w).

(** [adds count k m]: running [m] only adds events to the record, and
    among them at most [k] that [count] selects. *)
Definition adds {A} (count : Event -> bool) (k : nat) (m : M A) : Prop :=
  forall w, exists evs,
    trace (snd (m w)) = (trace w ++ evs)%list /\ List.length (filter count evs) <= k.

Definition is_error_log (e : Event) : bool :=
  match e with
  | ConsoleError _ _ => true
  | _ => false
  end.

(** How many errors were written to the console. *)
Definition error_logs (tr : list Event) : nat := List.length (filter is_error_log tr).

(** The reasoning of a verification is a text that ends with [notice]. *)
Definition reasoning_ends_with (notice : string) (v : value) : Prop :=
  exists r, get v "reasoning" = Ok (VStr r) /\ endsWith notice r = true.

(** Every entry of a list of sources carries a URI. *)
Definition all_linked (l : list value) : Prop :=
  Forall (fun s => truthy (uri_of s) = true) l.

(** The last entry of a list that carries the URI [u]. *)
Definition last_with (u : value) (l : list value) : option value :=
  first_with u (rev l).

(** [map.get(u)]: the value filed under [u] in a [Map]. *)
Definition map_get (u : value) (m : SourceMap) : option value :=
  option_map snd (find (fun e => same_key (fst e) u) m).

(** The last property a list of fields gives for the key [k]. *)
Definition assigned (k : string) (fields : list (string * value)) : option value :=
  option_map snd (find (fun kv => String.eqb k (fst kv)) (rev fields)).

(** A key of a form or of a profile holds something. *)
Definition filled (k : string) (props : list (string * value)) : Prop :=
  truthy (lookup k props) = true.

(** A service that gives every request the same answer. *)
Definition answering (a : answer) (year : Z) : Service :=
  {| reply := fun _ => a; getFullYear := fun _ => Fin (inject_Z year) |}.

(** A response without any text. *)
Definition silent : Response := {| text := None; candidates := None |}.

(** [item'] is [item] with its [completed] flag negated and every
    other property as it was. *)
Definition flipped (item item' : value) : Prop :=
  get item' "completed" = Ok (VBool (negb (truthy (field item "completed")))) /\
  forall k, String.eqb k "completed" = false ->
            get item' k = Ok (lookup k (own_properties item)).

(** Three attempts that differ in every field: the first, audited at 7,
    is the best; the third, audited at 4 and without a source, is the
    last. *)
Definition next_step (t d : string) : string :=
  Examples.jobj [Examples.jpair "title" (Examples.jstr t);
                 Examples.jpair "description" (Examples.jstr d)].

Definition full_answer (status summary step_title timeline requirement : string)
    (declared : list string) : string :=
  Examples.jobj
    [Examples.jpair "visaStatus" (Examples.jstr status);
     Examples.jpair "summary" (Examples.jstr summary);
     Examples.jpair "whatsNext" (Examples.jarr [next_step step_title "As instructed"]);
     Examples.jpair "timeline" (Examples.jstr timeline);
     Examples.jpair "requirements" (Examples.jarr [Examples.jstr requirement]);
     Examples.jpair "sources" (Examples.jarr declared)].

Definition wavering_service : Service :=
  scripted
    [Answer (grounded
               (full_answer "visa_free" "First try" "Book a flight" "Up to 90 days"
                  "Valid passport"
                  [Examples.source "Ministry of Foreign Affairs"
                     "https://www.mofa.go.jp/visa"])
               Examples.japan_chunks);
     Answer (plain (Examples.evaluation "7" "true" "Timeline is vague."));
     Answer (plain (full_answer "visa_required" "Second try" "Visit the embassy"
                      "Two weeks" "Bank statement" []));
     Answer (plain (Examples.evaluation "3" "false" "No sources."));
     Answer (plain (full_answer "e_visa" "Third try" "Apply online" "Five days"
                      "Photograph" []));
     Answer (plain (Examples.evaluation "4" "false" "Still no sources."))] 2025.

(* ================================================================== *)
(** * Results *)
(* ================================================================== *)

Unset Implicit Arguments.
Local Open Scope list_scope.

(** * Plumbing *)



Lemma bind_Ok_inv {A B} (m : M A) (k : A -> M B) w b w' :
  bind m k w = (Ok b, w') ->
  exists a w1, m w = (Ok a, w1) /\ k a w1 = (Ok b, w').
Proof.
  unfold bind. destruct (m w) as [[a | e |] w1]; intros H; try discriminate.
  exists a, w1. split; [reflexivity | exact H].
Qed.

Tactic Notation "inv_bind" hyp(H) "as" ident(a) ident(w) ident(H1) :=
  apply bind_Ok_inv in H; destruct H as (a & w & H1 & H).

Lemma bind_Ok {A B} (m : M A) (k : A -> M B) w a w1 :
  m w = (Ok a, w1) -> bind m k w = k a w1.
Proof. intros H. unfold bind. rewrite H. reflexivity. Qed.

Lemma lift_Ok_inv {A} (o : outcome A) w a w' :
  lift o w = (Ok a, w') -> o = Ok a /\ w' = w.
Proof. unfold lift. intros H. inversion H. split; reflexivity. Qed.

Lemma sends_app a b : sends (a ++ b) = sends a + sends b.
Proof. unfold sends. rewrite filter_app, length_app. reflexivity. Qed.

Lemma contexts_app a b : contexts (a ++ b) = contexts a ++ contexts b.
Proof. unfold contexts. apply flat_map_app. Qed.

Lemma trace_record e w : trace (record e w) = trace w ++ [e].
Proof. reflexivity. Qed.

Lemma trace_with_session p s w : trace (with_session p s w) = trace w.
Proof. destruct p; reflexivity. Qed.

Lemma session_with_session p s w : session p (with_session p s w) = s.
Proof. destruct p; reflexivity. Qed.

Lemma session_record p e w : session p (record e w) = session p w.
Proof. destruct p; reflexivity. Qed.

(** An event list that holds no message. *)
Ltac quiet evs :=
  exists evs; simpl; rewrite ?trace_with_session, ?trace_record, ?app_nil_r;
  split; [reflexivity | unfold sends; simpl; lia].

Lemma grows_ret {A} (a : A) : grows 0 (ret a).
Proof. intros w. quiet (@nil Event). Qed.

Lemma grows_throw {A} e : grows 0 (@throw A e).
Proof. intros w. quiet (@nil Event). Qed.

Lemma grows_lift {A} (o : outcome A) : grows 0 (lift o).
Proof. intros w. quiet (@nil Event). Qed.

Lemma grows_weaken {A} k k' (m : M A) : grows k m -> k <= k' -> grows k' m.
Proof.
  intros H Hk w. destruct (H w) as (evs & Ht & Hs).
  exists evs. split; [exact Ht | lia].
Qed.

Lemma grows_bind {A B} k1 k2 (m : M A) (f : A -> M B) :
  grows k1 m -> (forall a, grows k2 (f a)) -> grows (k1 + k2) (bind m f).
Proof.
  intros Hm Hf w. unfold bind. destruct (Hm w) as (evs1 & Ht1 & Hs1).
  destruct (m w) as [[a | e |] w1]; simpl in *;
    try (exists evs1; split; [exact Ht1 | lia]).
  destruct (Hf a w1) as (evs2 & Ht2 & Hs2).
  exists (evs1 ++ evs2). rewrite Ht2, Ht1, app_assoc, sends_app.
  split; [reflexivity | lia].
Qed.

Lemma grows_bind_l {A B} k (m : M A) (f : A -> M B) :
  grows 0 m -> (forall a, grows k (f a)) -> grows k (bind m f).
Proof. intros. apply (@grows_bind A B 0 k); assumption. Qed.

Lemma grows_bind_r {A B} k (m : M A) (f : A -> M B) :
  grows k m -> (forall a, grows 0 (f a)) -> grows k (bind m f).
Proof.
  intros. apply grows_weaken with (k := k + 0); [|lia].
  apply grows_bind; assumption.
Qed.

Lemma grows_try_catch {A} k1 k2 (m : M A) h :
  grows k1 m -> (forall e, grows k2 (h e)) -> grows (k1 + k2) (try_catch m h).
Proof.
  intros Hm Hh w. unfold try_catch. destruct (Hm w) as (evs1 & Ht1 & Hs1).
  destruct (m w) as [[a | e |] w1]; simpl in *;
    try (exists evs1; split; [exact Ht1 | lia]).
  destruct (Hh e w1) as (evs2 & Ht2 & Hs2).
  exists (evs1 ++ evs2). rewrite Ht2, Ht1, app_assoc, sends_app.
  split; [reflexivity | lia].
Qed.

(** What runs after [m] only adds to the record [m] left. *)
Lemma after_bind {A B} k (m : M A) (f : A -> M B) w :
  (forall a, grows k (f a)) ->
  exists evs, trace (snd (bind m f w)) = trace (snd (m w)) ++ evs.
Proof.
  intros Hf. unfold bind. destruct (m w) as [[a | e |] w1]; simpl;
    try (exists []; rewrite app_nil_r; reflexivity).
  destruct (Hf a w1) as (evs & Ht & _). exists evs. exact Ht.
Qed.

Lemma after_try_catch {A} k (m : M A) h w :
  (forall e, grows k (h e)) ->
  exists evs, trace (snd (try_catch m h w)) = trace (snd (m w)) ++ evs.
Proof.
  intros Hh. unfold try_catch. destruct (m w) as [[a | e |] w1]; simpl;
    try (exists []; rewrite app_nil_r; reflexivity).
  destruct (Hh e w1) as (evs & Ht & _). exists evs. exact Ht.
Qed.

Lemma grows_sends {A} k (m : M A) w :
  grows k m -> sends (trace (snd (m w))) <= sends (trace w) + k.
Proof.
  intros H. destruct (H w) as (evs & Ht & Hs). rewrite Ht, sends_app. lia.
Qed.

Section Plumbing.

Context {engine : Engine} {service : Service}.

Lemma grows_emit e : grows (if is_send e then 1 else 0) (emit e).
Proof.
  intros w. exists [e]. split; [reflexivity|].
  unfold sends. simpl. destruct (is_send e); simpl; lia.
Qed.

Lemma grows_notify b s : grows 0 (notify b s).
Proof. destruct b; [apply (grows_emit (Progress s)) | apply grows_ret]. Qed.

Lemma grows_parse t : grows 0 (parse t).
Proof. unfold parse. destruct (JSON_parse t); [apply grows_ret | apply grows_throw]. Qed.

Lemma grows_getSession p : grows 0 (getSession p).
Proof.
  intros w. unfold getSession. destruct (chat (session p w)).
  - quiet (@nil Event).
  - quiet [ChatsCreate (session_model (session p w)) (session_config (session p w))
             (history (session p w))].
Qed.

Lemma grows_clearSession p : grows 0 (clearSession p).
Proof. intros w. unfold clearSession. quiet (@nil Event). Qed.

Lemma grows_sendMessage p c req : grows 1 (sendMessage p c req).
Proof.
  intros w. unfold sendMessage. exists [SendMessage c req].
  destruct (reply _); simpl; rewrite ?trace_with_session, ?trace_record;
    (split; [reflexivity | unfold sends; simpl; lia]).
Qed.

Lemma grows_run p prompt schema : grows 1 (run p prompt schema).
Proof.
  unfold run. apply grows_bind_l; [apply grows_getSession|].
  intros c. apply grows_bind_r; [apply grows_sendMessage|].
  intros r. apply grows_ret.
Qed.

Lemma grows_generateContent req : grows 0 (generateContent req).
Proof.
  intros w. unfold generateContent. exists [GenerateContent req].
  destruct (reply _); simpl; rewrite ?trace_record;
    (split; [reflexivity | unfold sends; simpl; lia]).
Qed.

Lemma grows_evaluateOutput c k : grows 0 (evaluateOutput c k).
Proof.
  unfold evaluateOutput. apply grows_bind_l; [apply grows_generateContent|].
  intros r. apply grows_parse.
Qed.

(** ** Nothing runs out of budget *)

Lemma total_ret {A} (a : A) : total (ret a).
Proof. intros w. discriminate. Qed.

Lemma total_throw {A} e : total (@throw A e).
Proof. intros w. discriminate. Qed.

Lemma total_lift {A} (o : outcome A) : o <> OutOfFuel -> total (lift o).
Proof. intros H w. exact H. Qed.

Lemma total_bind {A B} (m : M A) (f : A -> M B) :
  total m -> (forall a, total (f a)) -> total (bind m f).
Proof.
  intros Hm Hf w. unfold bind. specialize (Hm w).
  destruct (m w) as [[a | e |] w1]; simpl in *; try discriminate.
  - apply Hf.
  - congruence.
Qed.

Lemma total_try_catch {A} (m : M A) h :
  total m -> (forall e, total (h e)) -> total (try_catch m h).
Proof.
  intros Hm Hh w. unfold try_catch. specialize (Hm w).
  destruct (m w) as [[a | e |] w1]; simpl in *; try discriminate.
  - apply Hh.
  - congruence.
Qed.

Lemma get_total o k : get o k <> OutOfFuel.
Proof. destruct o; discriminate. Qed.

Lemma put_total o k v : put o k v <> OutOfFuel.
Proof. destruct o; discriminate. Qed.

Lemma spread_elements_total v : spread_elements v <> OutOfFuel.
Proof. destruct v; discriminate. Qed.

Lemma collect_unique_total all : forall m, collect_unique all m <> OutOfFuel.
Proof.
  induction all as [|s rest IH]; intros m; simpl; [discriminate|].
  pose proof (get_total s "uri") as Hg.
  destruct (get s "uri") as [u | e |]; [|discriminate|congruence].
  destruct (truthy u && negb (map_has u m)); apply IH.
Qed.

Lemma reconcile_total js ms : reconcile js ms <> OutOfFuel.
Proof.
  unfold reconcile. pose proof (collect_unique_total (js ++ ms) []) as H.
  destruct (collect_unique (js ++ ms) []); [discriminate | discriminate | congruence].
Qed.

Lemma penalize_total v : penalize v <> OutOfFuel.
Proof.
  unfold penalize.
  destruct (get v "score") as [sc | |] eqn:E1; [|discriminate| apply get_total in E1; contradiction].
  destruct (put v "score" _) as [v1 | |] eqn:E2; [|discriminate| apply put_total in E2; contradiction].
  destruct (put v1 "pass" _) as [v2 | |] eqn:E3; [|discriminate| apply put_total in E3; contradiction].
  destruct (get v2 "reasoning") as [r | |] eqn:E4; [|discriminate| apply get_total in E4; contradiction].
  apply put_total.
Qed.

Lemma guardrail_total srcs v : guardrail srcs v <> OutOfFuel.
Proof.
  unfold guardrail. destruct (Nat.eqb _ 0); [apply penalize_total | discriminate].
Qed.

Lemma accepted_total v : accepted v <> OutOfFuel.
Proof.
  unfold accepted. pose proof (get_total v "score").
  destruct (get v "score"); [discriminate | discriminate | congruence].
Qed.

Lemma policy_of_total ctz res dest purp data srcs v :
  policy_of ctz res dest purp data srcs v <> OutOfFuel.
Proof. destruct data; discriminate. Qed.

Lemma total_notify b s : total (notify b s).
Proof. destruct b; intros w; discriminate. Qed.

Lemma total_parse t : total (parse t).
Proof. unfold parse. destruct (JSON_parse t); [apply total_ret | apply total_throw]. Qed.

Lemma total_getSession p : total (getSession p).
Proof. intros w. unfold getSession. destruct (chat (session p w)); discriminate. Qed.

Lemma total_sendMessage p c req : total (sendMessage p c req).
Proof. intros w. unfold sendMessage. destruct (reply _); discriminate. Qed.

Lemma total_run p prompt schema : total (run p prompt schema).
Proof.
  unfold run. apply total_bind; [apply total_getSession|]. intros c.
  apply total_bind; [apply total_sendMessage|]. intros r. apply total_ret.
Qed.

Lemma total_generateContent req : total (generateContent req).
Proof. intros w. unfold generateContent. destruct (reply _); discriminate. Qed.

Lemma total_evaluateOutput c k : total (evaluateOutput c k).
Proof.
  unfold evaluateOutput. apply total_bind; [apply total_generateContent|].
  intros r. apply total_parse.
Qed.

Lemma try_catch_Ok_inv {A} (m : M A) (h : error -> M A) w a w' :
  (forall e w1, fst (h e w1) <> Ok a) ->
  try_catch m h w = (Ok a, w') -> m w = (Ok a, w').
Proof.
  intros Hh. unfold try_catch. destruct (m w) as [[x | e |] w1]; intros H.
  - exact H.
  - exfalso. apply (Hh e w1). rewrite H. reflexivity.
  - discriminate.
Qed.

Lemma policy_of_Ok ctz res dest purp data srcs v declared :
  get data "sources" = Ok declared ->
  exists p, policy_of ctz res dest purp data srcs v = Ok p /\
            verification p = v /\ sources p = srcs.
Proof.
  intros H. destruct data; simpl in H; try discriminate;
    (eexists; split; [reflexivity | split; reflexivity]).
Qed.

Lemma or_else_truthy a b : truthy b = true -> truthy (or_else a b) = true.
Proof. intros Hb. unfold or_else. destruct (truthy a) eqn:Ha; assumption. Qed.

(** What the record built after the loop holds, field by field. *)
Lemma policy_of_inv ctz res dest purp data srcs v p :
  policy_of ctz res dest purp data srcs v = Ok p ->
  country p = dest /\ citizenship p = ctz /\ residency p = res /\ purpose p = purp /\
  visaStatus p = or_else (field data "visaStatus") (VStr "unknown") /\
  summary p = or_else (field data "summary") (VStr "Summary not available") /\
  whatsNext p = or_else (field data "whatsNext") (VArr [] []) /\
  timeline p = or_else (field data "timeline") (VStr "Check official sources") /\
  requirements p = or_else (field data "requirements") (VArr [] []) /\
  sources p = srcs /\ verification p = v.
Proof.
  unfold policy_of, field.
  destruct data; simpl; try discriminate; intros H; inversion H; subst; simpl;
    repeat split; reflexivity.
Qed.

End Plumbing.

(** * The retry loop *)

(** Both copies of the module run the same loop around their own
    attempt; what follows is proved once, for any body. *)
Section Retry_loop.

Context {engine : Engine} {service : Service}.
Variables ctz res dest purp : string.
Variable body : nat -> value -> M Attempt.
Variable loop : nat -> LoopState -> M LoopState.
Variable search : M VisaPolicy.

Hypothesis loop_unfold :
  forall fuel st,
    loop fuel st =
    if Nat.leb (attempts st) MAX_RETRIES then
      match fuel with
      | O => lift OutOfFuel
      | S fuel' =>
          a <- body (attempts st) (current_verification st) ;;
          stop <- lift (accepted (att_verification a)) ;;
          if (stop : bool) then ret (carried (attempts st) a)
          else loop fuel' (carried (attempts st + 1) a)
      end
    else ret st.

Hypothesis search_unfold :
  search =
  try_catch
    (clearSession visaConsultant ;;;
     st <- loop (S MAX_RETRIES) loop_start ;;
     lift (policy_of ctz res dest purp (currentData st) (currentSources st)
             (current_verification st)))
    (fun e => emit (ConsoleError "Agent failed:" e) ;;; throw e).

Hypothesis body_grows : forall n previous, grows 1 (body n previous).
Hypothesis body_total : forall n previous, total (body n previous).
Hypothesis body_data :
  forall n previous w a w1,
    body n previous w = (Ok a, w1) ->
    exists declared, get (att_data a) "sources" = Ok declared.
Hypothesis body_sources :
  forall n previous w a w1,
    body n previous w = (Ok a, w1) -> unique_uris (att_sources a).

Lemma loop_accepts fuel st w a w1 :
  attempts st <= MAX_RETRIES ->
  body (attempts st) (current_verification st) w = (Ok a, w1) ->
  accepted (att_verification a) = Ok true ->
  loop (S fuel) st w = (Ok (carried (attempts st) a), w1).
Proof.
  intros Hle Hatt Hacc. rewrite loop_unfold.
  apply Nat.leb_le in Hle. rewrite Hle.
  rewrite (bind_Ok _ _ _ _ _ Hatt).
  unfold bind at 1, lift at 1. rewrite Hacc. reflexivity.
Qed.

Lemma loop_retries fuel st w a w1 :
  attempts st <= MAX_RETRIES ->
  body (attempts st) (current_verification st) w = (Ok a, w1) ->
  accepted (att_verification a) = Ok false ->
  loop (S fuel) st w = loop fuel (carried (attempts st + 1) a) w1.
Proof.
  intros Hle Hatt Hacc. rewrite loop_unfold.
  apply Nat.leb_le in Hle. rewrite Hle.
  rewrite (bind_Ok _ _ _ _ _ Hatt).
  unfold bind at 1, lift at 1. rewrite Hacc. reflexivity.
Qed.

Lemma loop_exits fuel st w :
  MAX_RETRIES < attempts st -> loop fuel st w = (Ok st, w).
Proof.
  intros H. apply Nat.leb_gt in H. rewrite loop_unfold, H. reflexivity.
Qed.

Lemma grows_loop fuel :
  forall st, grows (S MAX_RETRIES - attempts st) (loop fuel st).
Proof.
  induction fuel as [|fuel IH]; intros st; rewrite loop_unfold.
  - destruct (Nat.leb (attempts st) MAX_RETRIES);
      [apply grows_weaken with (k := 0); [apply grows_lift | lia]
      | apply grows_weaken with (k := 0); [apply grows_ret | lia]].
  - destruct (Nat.leb (attempts st) MAX_RETRIES) eqn:Hle.
    + apply Nat.leb_le in Hle.
      apply grows_weaken with (k := 1 + (S MAX_RETRIES - (attempts st + 1))); [|lia].
      apply grows_bind; [apply body_grows|]. intros a.
      apply grows_bind_l; [apply grows_lift|]. intros [|].
      * apply grows_weaken with (k := 0); [apply grows_ret | lia].
      * apply IH.
    + apply grows_weaken with (k := 0); [apply grows_ret | lia].
Qed.

Lemma grows_search : grows (S MAX_RETRIES) search.
Proof.
  rewrite search_unfold.
  apply grows_weaken with (k := S MAX_RETRIES + 0); [|lia].
  apply grows_try_catch.
  - apply grows_bind_l; [apply grows_clearSession|]. intros _.
    apply grows_bind_r; [apply (grows_loop (S MAX_RETRIES) loop_start)|].
    intros st. apply grows_lift.
  - intros e.
    apply grows_bind_l;
      [apply (grows_emit (ConsoleError "Agent failed:" e)) | intros; apply grows_throw].
Qed.

(** Three units of budget are enough for the loop, wherever it stands. *)
Lemma total_loop fuel :
  forall st, S MAX_RETRIES <= fuel + attempts st -> total (loop fuel st).
Proof.
  induction fuel as [|fuel IH]; intros st Hfuel; rewrite loop_unfold.
  - destruct (Nat.leb (attempts st) MAX_RETRIES) eqn:Hle.
    + apply Nat.leb_le in Hle. unfold MAX_RETRIES in *. simpl in Hfuel. lia.
    + apply total_ret.
  - destruct (Nat.leb (attempts st) MAX_RETRIES) eqn:Hle; [|apply total_ret].
    apply total_bind; [apply body_total|]. intros a.
    apply total_bind; [apply total_lift, accepted_total|]. intros [|].
    + apply total_ret.
    + apply IH. unfold MAX_RETRIES, carried in *. simpl in *. lia.
Qed.

Lemma total_search : total search.
Proof.
  rewrite search_unfold. apply total_try_catch.
  - apply total_bind; [intros w; discriminate|]. intros _.
    apply total_bind.
    + apply total_loop. apply Nat.le_add_r.
    + intros st. apply total_lift, policy_of_total.
  - intros e. apply total_bind; [intros w; discriminate|]. intros _. apply total_throw.
Qed.

Lemma iteration_attempts w0 n st w : iteration body w0 n st w -> attempts st = n.
Proof. intros H. destruct H; reflexivity. Qed.

Lemma iteration_index w0 n st w : iteration body w0 n st w -> n <= S MAX_RETRIES.
Proof. intros H. destruct H; lia. Qed.

(** The loop started by [searchVisaInfo] passes through every
    iteration: what remains of it is the loop run from there. *)
Lemma iteration_resumes w0 n st w :
  iteration body w0 n st w ->
  forall fuel,
    loop (n + fuel) loop_start (snd (clearSession visaConsultant w0)) = loop fuel st w.
Proof.
  induction 1 as [| n st w a w1 Hit IH Hn Hatt Hacc]; intros fuel.
  - reflexivity.
  - replace (S n + fuel) with (n + S fuel) by lia.
    rewrite IH. pose proof (iteration_attempts _ _ _ _ Hit) as Hst.
    rewrite <- Hst in Hatt, Hn.
    rewrite (loop_retries fuel _ _ _ _ Hn Hatt Hacc).
    rewrite Hst. replace (n + 1) with (S n) by lia. reflexivity.
Qed.

Lemma search_returns w0 st w p :
  loop (S MAX_RETRIES) loop_start (snd (clearSession visaConsultant w0)) = (Ok st, w) ->
  policy_of ctz res dest purp (currentData st) (currentSources st)
    (current_verification st) = Ok p ->
  search w0 = (Ok p, w).
Proof.
  intros Hloop Hp. rewrite search_unfold. unfold try_catch.
  rewrite (bind_Ok _ _ w0 tt (snd (clearSession visaConsultant w0)))
    by reflexivity.
  rewrite (bind_Ok _ _ _ _ _ Hloop). unfold lift. rewrite Hp. reflexivity.
Qed.

(** An attempt that ends the loop, by acceptance or by exhaustion,
    decides what is returned. *)
Lemma search_decided w0 n st w a w1 :
  iteration body w0 n st w ->
  n <= MAX_RETRIES ->
  body n (current_verification st) w = (Ok a, w1) ->
  accepted (att_verification a) = Ok true \/
  (n = MAX_RETRIES /\ accepted (att_verification a) = Ok false) ->
  exists p,
    policy_of ctz res dest purp (att_data a) (att_sources a) (att_verification a) = Ok p /\
    verification p = att_verification a /\
    sources p = att_sources a /\
    search w0 = (Ok p, w1).
Proof.
  intros Hit Hn Hatt Hend.
  destruct (body_data _ _ _ _ _ Hatt) as (declared & Hsrc).
  destruct (policy_of_Ok ctz res dest purp _ (att_sources a) (att_verification a) _ Hsrc)
    as (p & Hp & Hv & Hs).
  exists p. repeat split; try assumption.
  pose proof (iteration_attempts _ _ _ _ Hit) as Hst.
  pose proof (iteration_resumes _ _ _ _ Hit (S MAX_RETRIES - n)) as Hres.
  replace (n + (S MAX_RETRIES - n)) with (S MAX_RETRIES) in Hres by lia.
  replace (S MAX_RETRIES - n) with (S (MAX_RETRIES - n)) in Hres by lia.
  rewrite <- Hst in Hatt, Hn.
  destruct Hend as [Hacc | [Hlast Hacc]].
  - rewrite (loop_accepts _ _ _ _ _ Hn Hatt Hacc) in Hres.
    apply (search_returns _ _ _ _ Hres). exact Hp.
  - rewrite (loop_retries _ _ _ _ _ Hn Hatt Hacc) in Hres.
    rewrite (loop_exits (MAX_RETRIES - n) (carried (attempts st + 1) a) w1) in Hres
      by (unfold MAX_RETRIES, carried in *; simpl; lia).
    apply (search_returns _ _ _ _ Hres). exact Hp.
Qed.

Lemma loop_sources_unique fuel :
  forall st w st' w',
    loop fuel st w = (Ok st', w') ->
    unique_uris (currentSources st) ->
    unique_uris (currentSources st').
Proof.
  induction fuel as [|fuel IH]; intros st w st' w' H Hst; rewrite loop_unfold in H.
  - destruct (Nat.leb (attempts st) MAX_RETRIES); [discriminate|].
    inversion H; subst. exact Hst.
  - destruct (Nat.leb (attempts st) MAX_RETRIES).
    + inv_bind H as a w1 Hatt.
      inv_bind H as stop w2 Hstop.
      pose proof (body_sources _ _ _ _ _ Hatt) as Ha.
      destruct stop.
      * inversion H; subst. exact Ha.
      * apply (IH _ _ _ _ H). exact Ha.
    + inversion H; subst. exact Hst.
Qed.

Lemma search_sources_unique w0 p w :
  search w0 = (Ok p, w) -> unique_uris (sources p).
Proof.
  rewrite search_unfold. intros H.
  apply try_catch_Ok_inv in H.
  - inv_bind H as u w1 Hclear.
    inv_bind H as st w2 Hloop.
    apply lift_Ok_inv in H. destruct H as [Hp _].
    apply loop_sources_unique in Hloop.
    + destruct (currentData st); simpl in Hp; try discriminate;
        inversion Hp; subst p; exact Hloop.
    + intros i j a b Hi. destruct i; discriminate.
  - intros e w1. unfold bind, emit, throw. simpl. discriminate.
Qed.

End Retry_loop.

(** * Properties of objects and texts *)

Lemma lookup_define_same k v props : lookup k (define k v props) = v.
Proof.
  induction props as [|[k' v'] rest IH]; simpl.
  - rewrite String.eqb_refl. reflexivity.
  - destruct (String.eqb k k') eqn:E; simpl.
    + rewrite String.eqb_refl. reflexivity.
    + rewrite E. exact IH.
Qed.

Lemma lookup_define_other k k' v props :
  String.eqb k k' = false -> lookup k (define k' v props) = lookup k props.
Proof.
  intros Hk. induction props as [|[k0 v0] rest IH]; simpl.
  - rewrite Hk. reflexivity.
  - destruct (String.eqb k' k0) eqn:E; simpl.
    + apply String.eqb_eq in E. subst k0. rewrite Hk. reflexivity.
    + destruct (String.eqb k k0); [reflexivity | exact IH].
Qed.

Lemma get_put_same o k v o' : put o k v = Ok o' -> get o' k = Ok v.
Proof.
  destruct o; simpl; intros H; inversion H; subst; simpl;
    rewrite lookup_define_same; reflexivity.
Qed.

Lemma get_put_other o k k' v o' :
  String.eqb k k' = false -> put o k' v = Ok o' -> get o' k = get o k.
Proof.
  intros Hk. destruct o; simpl; intros H; inversion H; subst; simpl;
    rewrite (lookup_define_other _ _ _ _ Hk); reflexivity.
Qed.

Lemma prefix_refl s : String.prefix s s = true.
Proof.
  induction s as [|c s IH]; simpl; [reflexivity|].
  destruct (ascii_dec c c); [exact IH | contradiction].
Qed.

Lemma prefix_append p s : String.prefix p (p ++ s)%string = true.
Proof.
  induction p as [|c p IH]; simpl; [destruct s; reflexivity|].
  destruct (ascii_dec c c); [exact IH | contradiction].
Qed.

Lemma includes_append_r needle s : includes needle (s ++ needle)%string = true.
Proof.
  induction s as [|c s IH]; simpl.
  - destruct needle; simpl; [reflexivity|].
    destruct (ascii_dec a a); [|contradiction].
    rewrite prefix_refl. reflexivity.
  - rewrite IH. apply orb_true_r.
Qed.

Lemma Math_min_at_most n :
  n <> NaN -> num_le (Math_min n (Fin 5)) (Fin 5) = true.
Proof.
  intros Hn. destruct n as [q | | |]; simpl; try reflexivity; [|contradiction].
  destruct (Qle_bool q 5) eqn:E; simpl; [exact E | reflexivity].
Qed.

Section Guardrail.

Context {engine : Engine}.

(** What the guardrail does to a verification, once it applies. *)
Lemma penalize_inv v v' :
  penalize v = Ok v' ->
  exists sc r,
    get v "score" = Ok sc /\
    get v "reasoning" = Ok r /\
    get v' "score" = Ok (VNum (Math_min (ToNumber NumberToString StringToNumber sc) (Fin 5))) /\
    get v' "pass" = Ok (VBool false) /\
    get v' "reasoning" =
      Ok (VStr (ToString NumberToString (or_else r (VStr "")) ++ missing_sources_notice)%string).
Proof.
  unfold penalize. intros H.
  destruct (get v "score") as [sc | |] eqn:Hsc; try discriminate.
  destruct (put v "score" _) as [v1 | |] eqn:H1; try discriminate.
  destruct (put v1 "pass" _) as [v2 | |] eqn:H2; try discriminate.
  destruct (get v2 "reasoning") as [r | |] eqn:Hr; try discriminate.
  exists sc, r. split; [reflexivity|].
  rewrite (get_put_other v1 "reasoning" "pass" _ v2 eq_refl H2) in Hr.
  rewrite (get_put_other v "reasoning" "score" _ v1 eq_refl H1) in Hr.
  split; [exact Hr|].
  split.
  { rewrite (get_put_other v2 "score" "reasoning" _ v' eq_refl H).
    rewrite (get_put_other v1 "score" "pass" _ v2 eq_refl H2).
    apply (get_put_same _ _ _ _ H1). }
  split.
  { rewrite (get_put_other v2 "pass" "reasoning" _ v' eq_refl H).
    apply (get_put_same _ _ _ _ H2). }
  apply (get_put_same _ _ _ _ H).
Qed.

(** With a score that converts to a number, the guardrail clamps. *)
Lemma penalize_clamps v v' sc :
  penalize v = Ok v' ->
  get v "score" = Ok sc ->
  ToNumber NumberToString StringToNumber sc <> NaN ->
  score_at_most_5 v'.
Proof.
  intros H Hsc Hn. destruct (penalize_inv _ _ H) as (sc' & r & Hsc' & _ & Hs & _).
  rewrite Hsc in Hsc'. inversion Hsc'; subst sc'.
  exists (VNum (Math_min (ToNumber NumberToString StringToNumber sc) (Fin 5))).
  split; [exact Hs|]. simpl. apply Math_min_at_most. exact Hn.
Qed.

(** The notice and the failed [pass] flag are there whatever the
    evaluation said. *)
Lemma penalize_marks v v' :
  penalize v = Ok v' ->
  reasoning_mentions missing_sources_notice v' /\ get v' "pass" = Ok (VBool false).
Proof.
  intros H. destruct (penalize_inv _ _ H) as (sc & r & _ & _ & _ & Hp & Hr).
  split; [|exact Hp].
  eexists. split; [exact Hr|]. apply includes_append_r.
Qed.

End Guardrail.

(** * The source reconciler *)

Lemma Qeq_bool_sym x y : Qeq_bool x y = Qeq_bool y x.
Proof.
  destruct (Qeq_bool x y) eqn:E1, (Qeq_bool y x) eqn:E2; try reflexivity.
  - apply Qeq_bool_iff in E1. apply Qeq_sym in E1. apply Qeq_bool_iff in E1. congruence.
  - apply Qeq_bool_iff in E2. apply Qeq_sym in E2. apply Qeq_bool_iff in E2. congruence.
Qed.

Lemma Qeq_bool_trans x y z : Qeq_bool x y = true -> Qeq_bool x z = Qeq_bool y z.
Proof.
  intros H. apply Qeq_bool_iff in H.
  destruct (Qeq_bool x z) eqn:E1, (Qeq_bool y z) eqn:E2; try reflexivity.
  - apply Qeq_bool_iff in E1.
    assert (Hyz : (y == z)%Q) by (rewrite <- H; exact E1).
    apply Qeq_bool_iff in Hyz. congruence.
  - apply Qeq_bool_iff in E2.
    assert (Hxz : (x == z)%Q) by (rewrite H; exact E2).
    apply Qeq_bool_iff in Hxz. congruence.
Qed.

Lemma same_key_sym a b : same_key a b = same_key b a.
Proof.
  destruct a as [| | x | [qx| | |] | s | |], b as [| | y | [qy| | |] | t | |];
    simpl; try reflexivity.
  - destruct x, y; reflexivity.
  - apply Qeq_bool_sym.
  - apply String.eqb_sym.
Qed.

Lemma same_key_trans a b c : same_key a b = true -> same_key a c = same_key b c.
Proof.
  destruct a as [| | x | [qx| | |] | s | |], b as [| | y | [qy| | |] | t | |];
    simpl; try discriminate; intros H; try reflexivity.
  - apply Bool.eqb_prop in H. subst y. reflexivity.
  - destruct c as [| | z | [qz| | |] | u | |]; try reflexivity.
    simpl. apply Qeq_bool_trans. exact H.
  - apply String.eqb_eq in H. subst t. reflexivity.
Qed.

Lemma same_key_truthy a b : same_key a b = true -> truthy a = truthy b.
Proof.
  destruct a as [| | x | [qx| | |] | s | |], b as [| | y | [qy| | |] | t | |];
    simpl; try discriminate; intros H; try reflexivity.
  - apply Bool.eqb_prop in H. subst y. reflexivity.
  - f_equal. apply Qeq_bool_trans. exact H.
  - apply String.eqb_eq in H. subst t. reflexivity.
Qed.

Lemma pairs_snoc {A} (R : A -> A -> Prop) l x :
  ForallOrdPairs R l -> Forall (fun y => R y x) l -> ForallOrdPairs R (l ++ [x]).
Proof.
  induction 1 as [| a l Ha Hl IH]; intros Hx; simpl.
  - constructor; [constructor | constructor].
  - inversion Hx; subst. constructor.
    + apply Forall_app. split; [exact Ha | constructor; [assumption | constructor]].
    + apply IH. assumption.
Qed.

Lemma pairs_nth {A} (R : A -> A -> Prop) l :
  ForallOrdPairs R l ->
  forall i j a b, i < j -> nth_error l i = Some a -> nth_error l j = Some b -> R a b.
Proof.
  induction 1 as [| x l Hx Hl IH]; intros i j a b Hij Hi Hj.
  - destruct i; discriminate.
  - destruct j as [|j]; [lia|]. destruct i as [|i]; simpl in *.
    + inversion Hi; subst. apply nth_error_In in Hj.
      rewrite Forall_forall in Hx. apply Hx. exact Hj.
    + apply (IH i j); [lia | assumption | assumption].
Qed.

Lemma apart_sym a b : apart a b -> apart b a.
Proof. unfold apart. rewrite same_key_sym. trivial. Qed.

Lemma pairs_unique l : ForallOrdPairs apart l -> unique_uris l.
Proof.
  intros H i j a b Hi Hj Hij.
  destruct (Nat.lt_ge_cases i j) as [Hlt | Hge].
  - apply (pairs_nth _ _ H i j a b Hlt Hi Hj).
  - apply apart_sym. apply (pairs_nth _ _ H j i b a); [lia | assumption | assumption].
Qed.

(** ** [services/gemini.ts] *)

Lemma uri_of_get s u : get s "uri" = Ok u -> uri_of s = u.
Proof. unfold uri_of, field. intros H. rewrite H. reflexivity. Qed.

Lemma map_has_false u m :
  filed m -> map_has u m = false ->
  Forall (fun s => same_key (uri_of s) u = false) (map snd m).
Proof.
  unfold map_has, filed. intros Hf H. apply Forall_forall. intros s Hin.
  apply in_map_iff in Hin. destruct Hin as (e & He & Hin). subst s.
  rewrite Forall_forall in Hf. destruct (Hf e Hin) as [Hu _].
  rewrite Hu.
  destruct (same_key (fst e) u) eqn:E; [|reflexivity].
  assert (Hex : existsb (fun e => same_key (fst e) u) m = true).
  { apply existsb_exists. exists e. split; assumption. }
  congruence.
Qed.

Lemma collect_unique_keeps all :
  forall m m',
    collect_unique all m = Ok m' ->
    filed m -> ForallOrdPairs apart (map snd m) ->
    filed m' /\ ForallOrdPairs apart (map snd m').
Proof.
  unfold filed. induction all as [|s rest IH]; intros m m' H Hf Hd; simpl in H.
  - inversion H; subst. split; assumption.
  - destruct (get s "uri") as [u | |] eqn:Hu; try discriminate.
    destruct (truthy u) eqn:Ht; simpl in H.
    + destruct (map_has u m) eqn:Hh; simpl in H.
      * apply (IH _ _ H Hf Hd).
      * apply (IH _ _ H).
        -- apply Forall_app. split; [exact Hf|].
           constructor; [|constructor]. simpl. split; [apply uri_of_get; exact Hu | exact Ht].
        -- rewrite map_app. simpl. apply pairs_snoc; [exact Hd|].
           pose proof (map_has_false _ _ Hf Hh) as Hall.
           rewrite Forall_forall in Hall. apply Forall_forall. intros x Hx.
           unfold apart. rewrite (uri_of_get _ _ Hu). apply Hall. exact Hx.
    + apply (IH _ _ H Hf Hd).
Qed.

Lemma reconcile_unique js ms out : reconcile js ms = Ok out -> unique_uris out.
Proof.
  unfold reconcile. intros H.
  destruct (collect_unique (js ++ ms) []) as [m | |] eqn:E; try discriminate.
  inversion H; subst out.
  apply pairs_unique.
  apply (collect_unique_keeps _ _ _ E); constructor.
Qed.

Lemma first_with_app u l1 l2 :
  first_with u (l1 ++ l2) =
  match first_with u l1 with
  | Some x => Some x
  | None => first_with u l2
  end.
Proof.
  unfold first_with. induction l1 as [|a l1 IH]; simpl; [reflexivity|].
  destruct (same_key (uri_of a) u); [reflexivity | exact IH].
Qed.

Lemma first_with_has u m :
  filed m -> first_with u (map snd m) = None -> map_has u m = false.
Proof.
  unfold first_with, map_has, filed. intros Hf. induction m as [|e m IH]; simpl; [reflexivity|].
  inversion Hf as [|? ? [He _] Hm]; subst.
  rewrite He. destruct (same_key (fst e) u); [discriminate|].
  intros H. apply (IH Hm H).
Qed.

Lemma map_has_trans u u' m :
  same_key u u' = true -> map_has u m = map_has u' m.
Proof.
  intros H. unfold map_has. induction m as [|e m IH]; simpl; [reflexivity|].
  rewrite IH. f_equal.
  rewrite (same_key_sym (fst e) u), (same_key_sym (fst e) u').
  apply same_key_trans. exact H.
Qed.

(** For every usable URI, the entry the reconciler keeps is the first
    one that carries it. *)
Lemma collect_unique_first all :
  forall m m' u,
    collect_unique all m = Ok m' ->
    filed m -> truthy u = true ->
    first_with u (map snd m') =
    match first_with u (map snd m) with
    | Some x => Some x
    | None => first_with u all
    end.
Proof.
  induction all as [|s rest IH]; intros m m' u H Hf Hu; simpl in H.
  - inversion H; subst. destruct (first_with u (map snd m')); reflexivity.
  - destruct (get s "uri") as [us | |] eqn:Hus; try discriminate.
    assert (Hskip : collect_unique rest m = Ok m' ->
                    (truthy us = false \/ map_has us m = true) ->
                    first_with u (map snd m') =
                    match first_with u (map snd m) with
                    | Some x => Some x
                    | None => first_with u (s :: rest)
                    end).
    { intros H' Hwhy. rewrite (IH _ _ _ H' Hf Hu).
      destruct (first_with u (map snd m)) eqn:Hm; [reflexivity|].
      unfold first_with at 2. simpl. fold (first_with u rest).
      rewrite (uri_of_get _ _ Hus).
      destruct (same_key us u) eqn:Hsame; [|reflexivity].
      exfalso. destruct Hwhy as [Hfalsy | Hhas].
      - rewrite (same_key_truthy _ _ Hsame) in Hfalsy. congruence.
      - rewrite (map_has_trans _ _ m Hsame) in Hhas.
        rewrite (first_with_has _ _ Hf Hm) in Hhas. discriminate. }
    destruct (truthy us) eqn:Ht; simpl in H; [|apply Hskip; auto].
    destruct (map_has us m) eqn:Hh; simpl in H; [apply Hskip; auto|].
    rewrite (IH _ _ _ H); [| |exact Hu].
    + rewrite map_app, first_with_app. simpl.
      destruct (first_with u (map snd m)); [reflexivity|].
      unfold first_with. simpl. destruct (same_key (uri_of s) u); reflexivity.
    + unfold filed. apply Forall_app. split; [exact Hf|].
      constructor; [|constructor]. simpl. split; [apply uri_of_get; exact Hus | exact Ht].
Qed.

Lemma first_with_In u l x : first_with u l = Some x -> In x l /\ same_key (uri_of x) u = true.
Proof. unfold first_with. intros H. apply find_some in H. exact H. Qed.

Lemma unique_In l x y :
  unique_uris l -> In x l -> In y l -> same_key (uri_of x) (uri_of y) = true -> x = y.
Proof.
  intros Hun Hx Hy Hsame.
  apply In_nth_error in Hx, Hy. destruct Hx as [i Hi], Hy as [j Hj].
  destruct (Nat.eq_dec i j) as [-> | Hne]; [congruence|].
  rewrite (Hun i j x y Hi Hj Hne) in Hsame. discriminate.
Qed.

(** In [services/gemini.ts] the explicit entry wins: when a URI is found
    in the explicit list, the one entry of the merged list that carries
    it is the first explicit entry with that URI, title included. *)
Lemma reconcile_explicit_entry_wins js ms out u e :
  reconcile js ms = Ok out ->
  truthy u = true ->
  first_with u js = Some e ->
  In e out /\
  (forall o, In o out -> same_key (uri_of o) u = true -> o = e /\ title_of o = title_of e).
Proof.
  intros H Hu He.
  pose proof (reconcile_unique _ _ _ H) as Hun.
  unfold reconcile in H.
  destruct (collect_unique (js ++ ms) []) as [m | |] eqn:E; try discriminate.
  inversion H; subst out.
  pose proof (collect_unique_first _ _ _ u E (Forall_nil _) Hu) as Hfirst.
  simpl in Hfirst. rewrite first_with_app, He in Hfirst.
  destruct (first_with_In _ _ _ Hfirst) as [Hin Hkey].
  split; [exact Hin|].
  intros o Ho Hsame.
  assert (o = e).
  { apply (unique_In _ _ _ Hun Ho Hin).
    rewrite (same_key_trans _ _ (uri_of e) Hsame).
    rewrite same_key_sym. exact Hkey. }
  subst o. split; reflexivity.
Qed.

(** ** The second copy *)

Lemma linked_key e c : linked e -> same_key (uri_of (snd e)) c = same_key (fst e) c.
Proof.
  intros [H | H]; [rewrite H; reflexivity|].
  symmetry. apply same_key_trans. exact H.
Qed.

Lemma map_set_keys (Q : value -> Prop) k v m :
  Forall (fun e => Q (fst e)) m -> Q k ->
  Forall (fun e => Q (fst e)) (CoreServices.map_set k v m).
Proof.
  intros Hm Hk. induction Hm as [|[k' v'] rest Hk' Hrest IH]; simpl.
  - constructor; [exact Hk | constructor].
  - destruct (same_key k' k); constructor; assumption.
Qed.

Lemma map_set_keeps v m :
  Forall linked m -> ForallOrdPairs keys_apart m ->
  Forall linked (CoreServices.map_set (uri_of v) v m) /\
  ForallOrdPairs keys_apart (CoreServices.map_set (uri_of v) v m).
Proof.
  intros Hl Hd. induction m as [|[k' v'] rest IH]; simpl.
  - split; [constructor; [left; reflexivity | constructor]|].
    constructor; [constructor | constructor].
  - inversion Hl as [|? ? Hl1 Hl2]; subst. inversion Hd as [|? ? Hd1 Hd2]; subst.
    destruct (same_key k' (uri_of v)) eqn:E.
    + split.
      * constructor; [|exact Hl2]. right. simpl. exact E.
      * constructor; assumption.
    + destruct (IH Hl2 Hd2) as [IH1 IH2]. split.
      * constructor; assumption.
      * constructor; [|exact IH2].
        apply (map_set_keys (fun x => same_key k' x = false)); [exact Hd1 | exact E].
Qed.

Lemma keyed_linked all : forall pairs,
  CoreServices.keyed all = Ok pairs -> Forall (fun e => uri_of (snd e) = fst e) pairs.
Proof.
  induction all as [|s rest IH]; intros pairs H; simpl in H.
  - inversion H. constructor.
  - destruct (get s "uri") as [u | |] eqn:Hu; try discriminate.
    destruct (CoreServices.keyed rest) as [l | |]; try discriminate.
    inversion H; subst. constructor; [apply uri_of_get; exact Hu | apply IH; reflexivity].
Qed.

Lemma new_Map_keeps pairs :
  Forall (fun e => uri_of (snd e) = fst e) pairs ->
  forall m,
    Forall linked m -> ForallOrdPairs keys_apart m ->
    Forall linked (fold_left (fun m e => CoreServices.map_set (fst e) (snd e) m) pairs m) /\
    ForallOrdPairs keys_apart
      (fold_left (fun m e => CoreServices.map_set (fst e) (snd e) m) pairs m).
Proof.
  induction 1 as [|e pairs He Hp IH]; intros m Hl Hd; simpl; [split; assumption|].
  rewrite <- He. destruct (map_set_keeps (snd e) _ Hl Hd) as [H1 H2]. apply IH; assumption.
Qed.

Lemma linked_apart m :
  Forall linked m -> ForallOrdPairs keys_apart m -> ForallOrdPairs apart (map snd m).
Proof.
  intros Hl Hd. induction Hd as [|e m He Hm IH]; simpl; [constructor|].
  inversion Hl as [|? ? Hl1 Hl2]; subst. constructor; [|apply IH; exact Hl2].
  apply Forall_forall. intros s Hin.
  apply in_map_iff in Hin. destruct Hin as (e2 & <- & Hin).
  rewrite Forall_forall in He, Hl2.
  unfold apart. rewrite (linked_key _ _ Hl1).
  rewrite same_key_sym, (linked_key _ _ (Hl2 _ Hin)), same_key_sym.
  apply He. exact Hin.
Qed.

(** The second copy builds its map from all the pairs at once; its
    merged list has unique URIs too. *)
Lemma CoreServices_reconcile_unique js ms out :
  CoreServices.reconcile js ms = Ok out -> unique_uris out.
Proof.
  unfold CoreServices.reconcile. intros H.
  destruct (CoreServices.keyed (js ++ ms)) as [pairs | |] eqn:E; try discriminate.
  inversion H; subst out. apply pairs_unique.
  unfold CoreServices.new_Map.
  destruct (new_Map_keeps _ (keyed_linked _ _ E) [] (Forall_nil _) (FOP_nil _)) as [H1 H2].
  apply linked_apart; assumption.
Qed.

(** * The search of [services/gemini.ts] *)

Section Search.

Context {engine : Engine} {service : Service}.

Lemma grows_attempt ctz res dest purp onProgress n previous :
  grows 1 (attempt ctz res dest purp onProgress n previous).
Proof.
  unfold attempt.
  apply grows_bind_l; [intros w; exists []; rewrite app_nil_r; split; [reflexivity | unfold sends; simpl; lia]|].
  intros year.
  apply grows_bind_l.
  { destruct (Nat.ltb 0 n).
    - apply grows_bind_l; [apply grows_notify|]. intros _.
      apply grows_bind_l; [apply grows_lift|]. intros r. apply grows_ret.
    - apply grows_bind_l; [apply grows_notify|]. intros _. apply grows_ret. }
  intros prompt.
  apply grows_bind_r; [apply grows_run|]. intros [text raw].
  apply grows_bind_l; [apply grows_parse|]. intros data.
  apply grows_bind_l; [apply grows_lift|]. intros declared.
  apply grows_bind_l; [apply grows_lift|]. intros jsonSources.
  apply grows_bind_l; [apply grows_lift|]. intros srcs.
  apply grows_bind_l; [apply grows_notify|]. intros _.
  apply grows_bind_l.
  { destruct text; [apply grows_evaluateOutput | apply grows_throw]. }
  intros v. apply grows_bind_l; [apply grows_lift|]. intros v'. apply grows_ret.
Qed.



Lemma total_attempt ctz res dest purp onProgress n previous :
  total (attempt ctz res dest purp onProgress n previous).
Proof.
  unfold attempt.
  apply total_bind; [intros w; discriminate|]. intros year.
  apply total_bind.
  { destruct (Nat.ltb 0 n).
    - apply total_bind; [apply total_notify|]. intros _.
      apply total_bind; [apply total_lift, get_total|]. intros r. apply total_ret.
    - apply total_bind; [apply total_notify|]. intros _. apply total_ret. }
  intros prompt.
  apply total_bind; [apply total_run|]. intros [text raw].
  apply total_bind; [apply total_parse|]. intros data.
  apply total_bind; [apply total_lift, get_total|]. intros declared.
  apply total_bind; [apply total_lift, spread_elements_total|]. intros jsonSources.
  apply total_bind; [apply total_lift, reconcile_total|]. intros srcs.
  apply total_bind; [apply total_notify|]. intros _.
  apply total_bind.
  { destruct text; [apply total_evaluateOutput | apply total_throw]. }
  intros v. apply total_bind; [apply total_lift, guardrail_total|].
  intros v'. apply total_ret.
Qed.



(** ** What a completed attempt tells *)

Lemma attempt_inv ctz res dest purp onProgress n previous w a w1 :
  attempt ctz res dest purp onProgress n previous w = (Ok a, w1) ->
  exists declared jsonSources raw v,
    get (att_data a) "sources" = Ok declared /\
    spread_elements (or_else declared (VArr [] [])) = Ok jsonSources /\
    reconcile jsonSources (metadata_sources raw) = Ok (att_sources a) /\
    guardrail (att_sources a) v = Ok (att_verification a).
Proof.
  unfold attempt. intros H.
  inv_bind H as year wa Hyear.
  inv_bind H as prompt wb Hprompt.
  inv_bind H as r wc Hrun. destruct r as [text raw].
  inv_bind H as data wd Hdata.
  inv_bind H as declared we Hdeclared.
  inv_bind H as jsonSources wf Hspread.
  inv_bind H as srcs wg Hsrcs.
  inv_bind H as u wh Hnotify.
  inv_bind H as v wi Heval.
  inv_bind H as v' wj Hguard.
  apply lift_Ok_inv in Hdeclared, Hspread, Hsrcs, Hguard.
  unfold ret in H. inversion H; subst; clear H. simpl.
  exists declared, jsonSources, raw, v. intuition.
Qed.


Variables ctz res dest purp : string.
Variable onProgress : bool.

Lemma attempt_data n previous w a w1 :
  attempt ctz res dest purp onProgress n previous w = (Ok a, w1) ->
  exists declared, get (att_data a) "sources" = Ok declared.
Proof.
  intros H.
  destruct (attempt_inv _ _ _ _ _ _ _ _ _ _ H) as (declared & _ & _ & _ & Hd & _).
  exists declared. exact Hd.
Qed.

Lemma attempt_sources_unique n previous w a w1 :
  attempt ctz res dest purp onProgress n previous w = (Ok a, w1) ->
  unique_uris (att_sources a).
Proof.
  intros H.
  destruct (attempt_inv _ _ _ _ _ _ _ _ _ _ H) as (declared & js & raw & v & _ & _ & Hrec & _).
  apply (reconcile_unique _ _ _ Hrec).
Qed.

(** An attempt that found no source went through the guardrail: the
    notice is in its reasoning and [pass] is false, whatever the auditor
    said, and the score is at most 5 as soon as the auditor's score
    converts to a number. *)
Lemma attempt_without_sources_is_penalized n previous w a w1 :
  attempt ctz res dest purp onProgress n previous w = (Ok a, w1) ->
  att_sources a = [] ->
  exists audited,
    penalize audited = Ok (att_verification a) /\
    reasoning_mentions missing_sources_notice (att_verification a) /\
    get (att_verification a) "pass" = Ok (VBool false) /\
    (forall sc,
        get audited "score" = Ok sc ->
        ToNumber NumberToString StringToNumber sc <> NaN ->
        score_at_most_5 (att_verification a)).
Proof.
  intros H Hnone.
  destruct (attempt_inv _ _ _ _ _ _ _ _ _ _ H) as (declared & js & raw & v & _ & _ & _ & Hg).
  rewrite Hnone in Hg. unfold guardrail in Hg. simpl in Hg.
  exists v. split; [exact Hg|].
  destruct (penalize_marks _ _ Hg) as [Hr Hp].
  split; [exact Hr|]. split; [exact Hp|].
  intros sc Hsc Hn. apply (penalize_clamps _ _ _ Hg Hsc Hn).
Qed.

Lemma search_loop_unfold fuel st :
  search_loop fuel ctz res dest purp onProgress st =
  if Nat.leb (attempts st) MAX_RETRIES then
    match fuel with
    | O => lift OutOfFuel
    | S fuel' =>
        a <- attempt ctz res dest purp onProgress (attempts st) (current_verification st) ;;
        stop <- lift (accepted (att_verification a)) ;;
        if (stop : bool) then ret (carried (attempts st) a)
        else search_loop fuel' ctz res dest purp onProgress (carried (attempts st + 1) a)
    end
  else ret st.
Proof. destruct fuel; reflexivity. Qed.

(** C1. A call of [searchVisaInfo] always comes back, having sent at
    most three messages to the consultant — one per attempt, the head
    of the loop being reached with indices 0, 1, 2 before an attempt —
    and an attempt whose verification scores 8 or more after the
    guardrail is the last: its outcome is returned, in the world that
    attempt left. *)
Theorem searchVisaInfo_at_most_three_attempts :
  forall w0 : World,
    let body := attempt ctz res dest purp onProgress in
    let out := searchVisaInfo ctz res dest purp onProgress w0 in
    fst out <> OutOfFuel /\
    sends (trace (snd out)) <= sends (trace w0) + 3 /\
    (forall n st w, iteration body w0 n st w -> attempts st = n /\ n <= 3) /\
    (forall n st w a w1,
        iteration body w0 n st w ->
        n <= MAX_RETRIES ->
        body n (current_verification st) w = (Ok a, w1) ->
        accepted (att_verification a) = Ok true ->
        exists p,
          policy_of ctz res dest purp (att_data a) (att_sources a)
            (att_verification a) = Ok p /\
          out = (Ok p, w1)).
Proof.
  intros w0 body out. repeat split.
  - apply (total_search ctz res dest purp body _ _ search_loop_unfold eq_refl).
    intros n previous. apply total_attempt.
  - apply (grows_sends 3).
    apply (grows_search ctz res dest purp body _ _ search_loop_unfold eq_refl).
    intros n previous. apply grows_attempt.
  - eapply iteration_attempts; eassumption.
  - eapply iteration_index; eassumption.
  - intros n st w a w1 Hit Hn Hatt Hacc.
    destruct (search_decided ctz res dest purp body _ _ search_loop_unfold eq_refl
                attempt_data _ _ _ _ _ _ Hit Hn Hatt (or_introl Hacc))
      as (p & Hp & _ & _ & Hrun).
    exists p. split; assumption.
Qed.

(** C2. When the third attempt is reached (so the first two were made
    and not accepted) and it is not accepted either, the record returned
    is built from the third attempt alone: its verification and its
    sources are those of that attempt, and each of its data fields is
    the field of that attempt's data, or the default of the field where
    the attempt left it out.  Nothing of an earlier attempt is in it,
    whatever that attempt scored. *)
Theorem searchVisaInfo_exhaustion_returns_last_attempt :
  forall (w0 : World) st w a w1,
    iteration (attempt ctz res dest purp onProgress) w0 MAX_RETRIES st w ->
    attempt ctz res dest purp onProgress MAX_RETRIES (current_verification st) w
      = (Ok a, w1) ->
    accepted (att_verification a) = Ok false ->
    exists p,
      searchVisaInfo ctz res dest purp onProgress w0 = (Ok p, w1) /\
      policy_of ctz res dest purp (att_data a) (att_sources a)
        (att_verification a) = Ok p /\
      verification p = att_verification a /\
      sources p = att_sources a /\
      country p = dest /\ citizenship p = ctz /\ residency p = res /\ purpose p = purp /\
      visaStatus p = or_else (field (att_data a) "visaStatus") (VStr "unknown") /\
      summary p = or_else (field (att_data a) "summary") (VStr "Summary not available") /\
      whatsNext p = or_else (field (att_data a) "whatsNext") (VArr [] []) /\
      timeline p = or_else (field (att_data a) "timeline") (VStr "Check official sources") /\
      requirements p = or_else (field (att_data a) "requirements") (VArr [] []).
Proof.
  intros w0 st w a w1 Hit Hatt Hacc.
  destruct (search_decided ctz res dest purp _ _ _ search_loop_unfold eq_refl
              attempt_data _ _ _ _ _ _ Hit (Nat.le_refl _) Hatt
              (or_intror (conj eq_refl Hacc)))
    as (p & Hp & Hv & Hs & Hrun).
  destruct (policy_of_inv _ _ _ _ _ _ _ _ Hp)
    as (Hc & Hz & Hr & Hu & Hst & Hsu & Hwn & Htl & Hrq & _ & _).
  exists p. repeat split; assumption.
Qed.

(** C6. The reconciler never lets a URI through twice: in the list it
    produces, in the sources an attempt leaves, and in the sources of
    the record [searchVisaInfo] returns, no two entries carry the same
    URI. *)
Theorem reconciled_sources_have_unique_uris :
  (forall explicit implicit merged,
      reconcile explicit implicit = Ok merged -> unique_uris merged) /\
  (forall n previous w a w1,
      attempt ctz res dest purp onProgress n previous w = (Ok a, w1) ->
      unique_uris (att_sources a)) /\
  (forall w0 p w,
      searchVisaInfo ctz res dest purp onProgress w0 = (Ok p, w) ->
      unique_uris (sources p)).
Proof.
  split; [exact reconcile_unique|].
  split; [exact attempt_sources_unique|].
  apply (search_sources_unique ctz res dest purp _ _ _ search_loop_unfold eq_refl
           attempt_sources_unique).
Qed.

End Search.

(** * The search of the second copy *)

Section Second_copy.

Context {engine : Engine} {service : Service}.

Lemma CoreServices_keyed_total all : CoreServices.keyed all <> OutOfFuel.
Proof.
  induction all as [|s rest IH]; simpl; [discriminate|].
  pose proof (get_total s "uri") as Hg.
  destruct (get s "uri") as [u | e |]; [|discriminate|congruence].
  destruct (CoreServices.keyed rest); [discriminate | discriminate | congruence].
Qed.

Lemma CoreServices_reconcile_total js ms : CoreServices.reconcile js ms <> OutOfFuel.
Proof.
  unfold CoreServices.reconcile. pose proof (CoreServices_keyed_total (js ++ ms)) as H.
  destruct (CoreServices.keyed (js ++ ms)); [discriminate | discriminate | congruence].
Qed.

Lemma CoreServices_guardrail_total srcs v : CoreServices.guardrail srcs v <> OutOfFuel.
Proof.
  unfold CoreServices.guardrail. destruct (Nat.eqb _ 0); [|discriminate].
  unfold CoreServices.penalize.
  destruct (get v "score") as [sc | |] eqn:E1; [|discriminate| apply get_total in E1; contradiction].
  destruct (put v "score" _) as [v1 | |] eqn:E2; [|discriminate| apply put_total in E2; contradiction].
  destruct (get v1 "reasoning") as [r | |] eqn:E3; [|discriminate| apply get_total in E3; contradiction].
  apply put_total.
Qed.

(** What the penalty of the second copy does: the score is clamped the
    same way, the notice is appended to the reasoning as it prints, and
    [pass] is left alone. *)
Lemma CoreServices_penalize_inv v v' :
  CoreServices.penalize v = Ok v' ->
  exists sc r,
    get v "score" = Ok sc /\
    get v "reasoning" = Ok r /\
    get v' "score" = Ok (VNum (Math_min (ToNumber NumberToString StringToNumber sc) (Fin 5))) /\
    get v' "pass" = get v "pass" /\
    get v' "reasoning" =
      Ok (VStr (ToString NumberToString r ++ CoreServices.missing_sources_notice)%string).
Proof.
  unfold CoreServices.penalize. intros H.
  destruct (get v "score") as [sc | |] eqn:Hsc; try discriminate.
  destruct (put v "score" _) as [v1 | |] eqn:H1; try discriminate.
  destruct (get v1 "reasoning") as [r | |] eqn:Hr; try discriminate.
  exists sc, r. split; [reflexivity|].
  rewrite (get_put_other v "reasoning" "score" _ v1 eq_refl H1) in Hr.
  split; [exact Hr|]. split.
  { rewrite (get_put_other v1 "score" "reasoning" _ v' eq_refl H).
    apply (get_put_same _ _ _ _ H1). }
  split.
  { rewrite (get_put_other v1 "pass" "reasoning" _ v' eq_refl H).
    apply (get_put_other v "pass" "score" _ v1 eq_refl H1). }
  apply (get_put_same _ _ _ _ H).
Qed.

Lemma grows_evaluate data count : grows 0 (CoreServices.evaluate data count).
Proof.
  unfold CoreServices.evaluate. apply grows_bind_l; [apply grows_generateContent|].
  intros r. apply grows_parse.
Qed.

Lemma total_evaluate data count : total (CoreServices.evaluate data count).
Proof.
  unfold CoreServices.evaluate. apply total_bind; [apply total_generateContent|].
  intros r. apply total_parse.
Qed.

Lemma grows_CoreServices_attempt ctz res dest purp onProgress n previous :
  grows 1 (CoreServices.attempt ctz res dest purp onProgress n previous).
Proof.
  unfold CoreServices.attempt.
  apply grows_bind_l.
  { destruct (Nat.ltb 0 n).
    - apply grows_bind_l; [apply grows_notify|]. intros _.
      apply grows_bind_l; [apply grows_lift|]. intros r. apply grows_ret.
    - apply grows_bind_l; [apply grows_notify|]. intros _. apply grows_ret. }
  intros prompt.
  apply grows_bind_r; [apply grows_run|]. intros [txt raw].
  apply grows_bind_l; [apply grows_parse|]. intros data.
  apply grows_bind_l; [apply grows_lift|]. intros declared.
  apply grows_bind_l; [apply grows_lift|]. intros jsonSources.
  apply grows_bind_l; [apply grows_lift|]. intros srcs.
  apply grows_bind_l; [apply grows_notify|]. intros _.
  apply grows_bind_l; [apply grows_evaluate|].
  intros v. apply grows_bind_l; [apply grows_lift|]. intros v'. apply grows_ret.
Qed.

Lemma total_CoreServices_attempt ctz res dest purp onProgress n previous :
  total (CoreServices.attempt ctz res dest purp onProgress n previous).
Proof.
  unfold CoreServices.attempt.
  apply total_bind.
  { destruct (Nat.ltb 0 n).
    - apply total_bind; [apply total_notify|]. intros _.
      apply total_bind; [apply total_lift, get_total|]. intros r. apply total_ret.
    - apply total_bind; [apply total_notify|]. intros _. apply total_ret. }
  intros prompt.
  apply total_bind; [apply total_run|]. intros [txt raw].
  apply total_bind; [apply total_parse|]. intros data.
  apply total_bind; [apply total_lift, get_total|]. intros declared.
  apply total_bind; [apply total_lift, spread_elements_total|]. intros jsonSources.
  apply total_bind; [apply total_lift, CoreServices_reconcile_total|]. intros srcs.
  apply total_bind; [apply total_notify|]. intros _.
  apply total_bind; [apply total_evaluate|].
  intros v. apply total_bind; [apply total_lift, CoreServices_guardrail_total|].
  intros v'. apply total_ret.
Qed.

Lemma CoreServices_attempt_inv ctz res dest purp onProgress n previous w a w1 :
  CoreServices.attempt ctz res dest purp onProgress n previous w = (Ok a, w1) ->
  exists declared jsonSources raw v,
    get (att_data a) "sources" = Ok declared /\
    spread_elements (or_else declared (VArr [] [])) = Ok jsonSources /\
    CoreServices.reconcile jsonSources (metadata_sources raw) = Ok (att_sources a) /\
    CoreServices.guardrail (att_sources a) v = Ok (att_verification a).
Proof.
  unfold CoreServices.attempt. intros H.
  inv_bind H as prompt wb Hprompt.
  inv_bind H as r wc Hrun. destruct r as [txt raw].
  inv_bind H as data wd Hdata.
  inv_bind H as declared we Hdeclared.
  inv_bind H as jsonSources wf Hspread.
  inv_bind H as srcs wg Hsrcs.
  inv_bind H as u wh Hnotify.
  inv_bind H as v wi Heval.
  inv_bind H as v' wj Hguard.
  apply lift_Ok_inv in Hdeclared, Hspread, Hsrcs, Hguard.
  unfold ret in H. inversion H; subst; clear H. simpl.
  exists declared, jsonSources, raw, v. intuition.
Qed.

Variables ctz res dest purp : string.
Variable onProgress : bool.

Lemma CoreServices_attempt_data n previous w a w1 :
  CoreServices.attempt ctz res dest purp onProgress n previous w = (Ok a, w1) ->
  exists declared, get (att_data a) "sources" = Ok declared.
Proof.
  intros H.
  destruct (CoreServices_attempt_inv _ _ _ _ _ _ _ _ _ _ H) as (declared & _ & _ & _ & Hd & _).
  exists declared. exact Hd.
Qed.

Lemma CoreServices_attempt_sources_unique n previous w a w1 :
  CoreServices.attempt ctz res dest purp onProgress n previous w = (Ok a, w1) ->
  unique_uris (att_sources a).
Proof.
  intros H.
  destruct (CoreServices_attempt_inv _ _ _ _ _ _ _ _ _ _ H)
    as (declared & js & raw & v & _ & _ & Hrec & _).
  apply (CoreServices_reconcile_unique _ _ _ Hrec).
Qed.

Lemma CoreServices_search_loop_unfold fuel st :
  CoreServices.search_loop fuel ctz res dest purp onProgress st =
  if Nat.leb (attempts st) MAX_RETRIES then
    match fuel with
    | O => lift OutOfFuel
    | S fuel' =>
        a <- CoreServices.attempt ctz res dest purp onProgress (attempts st)
               (current_verification st) ;;
        stop <- lift (accepted (att_verification a)) ;;
        if (stop : bool) then ret (carried (attempts st) a)
        else CoreServices.search_loop fuel' ctz res dest purp onProgress
               (carried (attempts st + 1) a)
    end
  else ret st.
Proof. destruct fuel; reflexivity. Qed.

(** The loop of the second copy is bounded and stops on acceptance in
    the same way. *)
Lemma second_copy_at_most_three_attempts :
  forall w0 : World,
    let body := CoreServices.attempt ctz res dest purp onProgress in
    let out := CoreServices.searchVisaInfo ctz res dest purp onProgress w0 in
    fst out <> OutOfFuel /\
    sends (trace (snd out)) <= sends (trace w0) + 3 /\
    (forall n st w a w1,
        iteration body w0 n st w ->
        n <= MAX_RETRIES ->
        body n (current_verification st) w = (Ok a, w1) ->
        accepted (att_verification a) = Ok true ->
        exists p,
          policy_of ctz res dest purp (att_data a) (att_sources a)
            (att_verification a) = Ok p /\
          out = (Ok p, w1)).
Proof.
  intros w0 body out. repeat split.
  - apply (total_search ctz res dest purp body _ _
             CoreServices_search_loop_unfold eq_refl).
    intros n previous. apply total_CoreServices_attempt.
  - apply (grows_sends 3).
    apply (grows_search ctz res dest purp body _ _
             CoreServices_search_loop_unfold eq_refl).
    intros n previous. apply grows_CoreServices_attempt.
  - intros n st w a w1 Hit Hn Hatt Hacc.
    destruct (search_decided ctz res dest purp body _ _
                CoreServices_search_loop_unfold eq_refl
                CoreServices_attempt_data _ _ _ _ _ _ Hit Hn Hatt (or_introl Hacc))
      as (p & Hp & _ & _ & Hrun).
    exists p. split; assumption.
Qed.

(** On exhaustion the second copy returns its last attempt as well. *)
Lemma second_copy_exhaustion_returns_last_attempt :
  forall (w0 : World) st w a w1,
    iteration (CoreServices.attempt ctz res dest purp onProgress) w0 MAX_RETRIES st w ->
    CoreServices.attempt ctz res dest purp onProgress MAX_RETRIES
      (current_verification st) w = (Ok a, w1) ->
    accepted (att_verification a) = Ok false ->
    exists p,
      CoreServices.searchVisaInfo ctz res dest purp onProgress w0 = (Ok p, w1) /\
      verification p = att_verification a /\
      sources p = att_sources a /\
      country p = dest /\ citizenship p = ctz /\ residency p = res /\ purpose p = purp /\
      visaStatus p = or_else (field (att_data a) "visaStatus") (VStr "unknown") /\
      summary p = or_else (field (att_data a) "summary") (VStr "Summary not available") /\
      whatsNext p = or_else (field (att_data a) "whatsNext") (VArr [] []) /\
      timeline p = or_else (field (att_data a) "timeline") (VStr "Check official sources") /\
      requirements p = or_else (field (att_data a) "requirements") (VArr [] []).
Proof.
  intros w0 st w a w1 Hit Hatt Hacc.
  destruct (search_decided ctz res dest purp _ _ _
              CoreServices_search_loop_unfold eq_refl
              CoreServices_attempt_data _ _ _ _ _ _ Hit (Nat.le_refl _) Hatt
              (or_intror (conj eq_refl Hacc)))
    as (p & Hp & Hv & Hs & Hrun).
  destruct (policy_of_inv _ _ _ _ _ _ _ _ Hp)
    as (Hc & Hz & Hr & Hu & Hst & Hsu & Hwn & Htl & Hrq & _ & _).
  exists p. repeat split; assumption.
Qed.

(** The sources the second copy returns have unique URIs. *)
Lemma second_copy_sources_unique :
  forall w0 p w,
    CoreServices.searchVisaInfo ctz res dest purp onProgress w0 = (Ok p, w) ->
    unique_uris (sources p).
Proof.
  apply (search_sources_unique ctz res dest purp _ _ _
           CoreServices_search_loop_unfold eq_refl
           CoreServices_attempt_sources_unique).
Qed.

End Second_copy.

(** * The auditor *)

Lemma substring_take n s : String.substring 0 n s = take n s.
Proof.
  revert s. induction n as [|n IH]; intros s; destruct s; simpl; try reflexivity.
  rewrite IH. reflexivity.
Qed.

Lemma take_length n s : take (Nat.min n (String.length s)) s = take n s.
Proof.
  revert s. induction n as [|n IH]; intros s; destruct s; simpl; try reflexivity.
  rewrite IH. reflexivity.
Qed.

Lemma JS_substring_take n s : JS.substring 0 n s = take n s.
Proof.
  unfold JS.substring.
  rewrite Nat.min_0_l. rewrite Nat.min_0_l, Nat.max_0_l, Nat.sub_0_r.
  rewrite substring_take. apply take_length.
Qed.

Lemma agree_upto_take n : forall s1 s2, agree_upto n s1 s2 -> take n s1 = take n s2.
Proof.
  induction n as [|n IH]; intros s1 s2 H; [destruct s1, s2; reflexivity|].
  pose proof (H 0 (Nat.lt_0_succ n)) as H0.
  destruct s1 as [|c1 r1], s2 as [|c2 r2]; simpl in *; try discriminate; [reflexivity|].
  inversion H0; subst c2. f_equal. apply IH.
  intros i Hi. apply (H (S i)). lia.
Qed.

Lemma agree_uptob_sound n : forall s1 s2, agree_uptob n s1 s2 = true -> agree_upto n s1 s2.
Proof.
  induction n as [|n IH]; intros s1 s2 H i Hi; [lia|].
  destruct s1 as [|c1 r1], s2 as [|c2 r2]; simpl in H; try discriminate; [reflexivity|].
  apply andb_true_iff in H. destruct H as [Hc Hr].
  apply Ascii.eqb_eq in Hc. subst c2.
  destruct i as [|i]; simpl; [reflexivity|].
  apply (IH _ _ Hr). lia.
Qed.

Section Auditor.

Context {engine : Engine} {service : Service}.

(** C10. The request the auditor sends is a function of the first 3000
    code units of the candidate: two candidates that agree there give
    the same request, and so the same run of [evaluateOutput]. *)
Theorem evaluateOutput_reads_first_3000_units :
  forall (c1 c2 rubric : string),
    agree_upto 3000 c1 c2 ->
    evaluation_request c1 rubric = evaluation_request c2 rubric /\
    (forall w, evaluateOutput c1 rubric w = evaluateOutput c2 rubric w).
Proof.
  intros c1 c2 rubric H.
  assert (Hreq : evaluation_request c1 rubric = evaluation_request c2 rubric).
  { unfold evaluation_request. rewrite !JS_substring_take.
    rewrite (agree_upto_take _ _ _ H). reflexivity. }
  split; [exact Hreq|].
  intros w. unfold evaluateOutput. rewrite Hreq. reflexivity.
Qed.

Lemma generateContent_answer req w r :
  reply (trace w ++ [GenerateContent req]) = Answer r ->
  generateContent req w = (Ok r, record (GenerateContent req) w).
Proof. intros H. unfold generateContent. rewrite trace_record, H. reflexivity. Qed.

Lemma text_or_empty t fallback :
  t = None \/ t = Some ""%string -> text_or t fallback = fallback.
Proof. intros [H | H]; subst; reflexivity. Qed.

(** C4, as the code has it.  When the auditor's answer carries no text
    or an empty one, [evaluateOutput] gives the fail-safe record — score
    0, [pass] false, reasoning "Evaluation failed" — and nothing is
    thrown. *)
Theorem evaluateOutput_fail_safe_on_empty_output :
  forall (content rubric : string) (w : World) (r : Response),
    JSON_parse evaluation_fallback = Some fail_safe ->
    reply (trace w ++ [GenerateContent (evaluation_request content rubric)]) = Answer r ->
    text r = None \/ text r = Some ""%string ->
    fst (evaluateOutput content rubric w) = Ok fail_safe.
Proof.
  intros content rubric w r Hparse Hr Ht. unfold evaluateOutput.
  rewrite (bind_Ok _ _ _ _ _ (generateContent_answer _ _ _ Hr)).
  rewrite (text_or_empty _ _ Ht). unfold parse. rewrite Hparse. reflexivity.
Qed.

(** The fallback of the second copy is a bare zero score: [pass] and
    [reasoning] are left undefined. *)
Lemma second_copy_audit_defaults_to_zero_score :
  forall (data : value) (count : nat) (w : World) (r : Response),
    JSON_parse CoreServices.evaluation_fallback = Some (VObj [("score", of_num 0)]) ->
    reply (trace w ++ [GenerateContent (CoreServices.evaluation_request data count)])
      = Answer r ->
    text r = None \/ text r = Some ""%string ->
    fst (CoreServices.evaluate data count w) = Ok (VObj [("score", of_num 0)]).
Proof.
  intros data count w r Hparse Hr Ht. unfold CoreServices.evaluate.
  rewrite (bind_Ok _ _ _ _ _ (generateContent_answer _ _ _ Hr)).
  rewrite (text_or_empty _ _ Ht). unfold parse. rewrite Hparse. reflexivity.
Qed.

(** A text that [JSON.parse] rejects is thrown back as it is. *)
Lemma evaluateOutput_rethrows_malformed_output :
  forall (content rubric : string) (w : World) (r : Response) (t : string),
    reply (trace w ++ [GenerateContent (evaluation_request content rubric)]) = Answer r ->
    text r = Some t -> t <> ""%string ->
    JSON_parse t = None ->
    fst (evaluateOutput content rubric w) = Throw (SyntaxError t).
Proof.
  intros content rubric w r t Hr Ht Hne Hparse. unfold evaluateOutput.
  rewrite (bind_Ok _ _ _ _ _ (generateContent_answer _ _ _ Hr)).
  rewrite Ht. unfold text_or.
  destruct (String.eqb t "") eqn:E; [apply String.eqb_eq in E; contradiction|].
  unfold parse. rewrite Hparse. reflexivity.
Qed.

End Auditor.

(** * The checklist *)

Lemma new_item_completed item : get (new_item item) "completed" = Ok (VBool false).
Proof. unfold new_item. simpl. rewrite lookup_define_same. reflexivity. Qed.

Lemma array_map_inv f items v :
  array_map f items = Ok v ->
  exists elems extra, items = VArr elems extra /\ v = VArr (map f elems) [].
Proof.
  destruct items; simpl; intros H; try discriminate.
  inversion H. eauto.
Qed.

Section Checklist.

Context {engine : Engine} {service : Service}.

(** C8. Whatever the drafter answered, a checklist that comes back is
    an array whose every item reads [completed = false]. *)
Theorem generateDocumentChecklist_items_start_uncompleted :
  forall (policy : VisaPolicy) (w w' : World) (checklist : value),
    generateDocumentChecklist policy w = (Ok checklist, w') ->
    exists items,
      checklist = VArr items [] /\
      Forall (fun item => get item "completed" = Ok (VBool false)) items.
Proof.
  intros policy w w' checklist H. unfold generateDocumentChecklist in H.
  inv_bind H as r w1 Hrun.
  inv_bind H as parsed w2 Hparse.
  apply lift_Ok_inv in H. destruct H as [H _].
  destruct (array_map_inv _ _ _ H) as (elems & extra & _ & Hv).
  exists (map new_item elems). split; [exact Hv|].
  apply Forall_forall. intros item Hin.
  apply in_map_iff in Hin. destruct Hin as (x & Hx & _). subst item.
  apply new_item_completed.
Qed.

(** The same holds in the second copy. *)
Lemma CoreServices_checklist_items_start_uncompleted :
  forall (policy : VisaPolicy) (w w' : World) (checklist : value),
    CoreServices.generateDocumentChecklist policy w = (Ok checklist, w') ->
    exists items,
      checklist = VArr items [] /\
      Forall (fun item => get item "completed" = Ok (VBool false)) items.
Proof.
  intros policy w w' checklist H. unfold CoreServices.generateDocumentChecklist in H.
  inv_bind H as r w1 Hrun.
  inv_bind H as parsed w2 Hparse.
  apply lift_Ok_inv in H. destruct H as [H _].
  destruct (array_map_inv _ _ _ H) as (elems & extra & _ & Hv).
  exists (map new_item elems). split; [exact Hv|].
  apply Forall_forall. intros item Hin.
  apply in_map_iff in Hin. destruct Hin as (x & Hx & _). subst item.
  apply new_item_completed.
Qed.

End Checklist.

(** * The passport parser *)

Lemma length_append (a b : string) :
  String.length (a ++ b)%string = String.length a + String.length b.
Proof. induction a as [|c a IH]; simpl; [reflexivity | rewrite IH; reflexivity]. Qed.

Lemma drop_append (a b : string) : drop (String.length a) (a ++ b)%string = b.
Proof.
  unfold drop. rewrite length_append.
  replace (String.length a + String.length b - String.length a)
    with (String.length b) by lia.
  induction a as [|c a IH]; simpl.
  - rewrite substring_take.
    clear. induction b as [|c b IH]; simpl; [reflexivity | rewrite IH; reflexivity].
  - exact IH.
Qed.

Lemma rev_string_append (a b : string) :
  rev_string (a ++ b)%string = (rev_string b ++ rev_string a)%string.
Proof.
  induction a as [|c a IH]; simpl.
  - clear. induction (rev_string b) as [|c s IH]; simpl; [reflexivity|].
    rewrite <- IH. reflexivity.
  - rewrite IH. clear.
    induction (rev_string b) as [|d s IH]; simpl; [reflexivity|].
    rewrite IH. reflexivity.
Qed.

Lemma endsWith_append (a b : string) : endsWith b (a ++ b)%string = true.
Proof. unfold endsWith. rewrite rev_string_append. apply prefix_append. Qed.

Lemma take_append (a b : string) : take (String.length a) (a ++ b)%string = a.
Proof. induction a as [|c a IH]; simpl; [destruct b; reflexivity | rewrite IH; reflexivity]. Qed.

Lemma strip_closing_append body :
  strip_closing (body ++ nl ++ fence)%string = body.
Proof.
  unfold strip_closing. rewrite endsWith_append.
  rewrite substring_take, length_append.
  replace (String.length body + String.length (nl ++ fence)%string - 4)
    with (String.length body) by (simpl; lia).
  apply take_append.
Qed.

(** The fences the parser removes: an opening line of three backquotes,
    with or without [json], and a closing line of three backquotes. *)
Lemma cleaned_text_strips_fences body :
  cleaned_text (Some (fence ++ "json" ++ nl ++ body ++ nl ++ fence)%string) = body /\
  cleaned_text (Some (fence ++ nl ++ body ++ nl ++ fence)%string) = body.
Proof.
  split.
  - unfold cleaned_text.
    change (text_or (Some (fence ++ "json" ++ nl ++ body ++ nl ++ fence)%string) "{}")
      with ((fence ++ "json" ++ nl) ++ (body ++ nl ++ fence))%string.
    assert (Hs : startsWith fence ((fence ++ "json" ++ nl) ++ body ++ nl ++ fence)%string = true)
      by reflexivity.
    rewrite Hs. unfold strip_opening.
    assert (Hp : startsWith (fence ++ "json" ++ nl)
                   ((fence ++ "json" ++ nl) ++ body ++ nl ++ fence)%string = true)
      by apply prefix_append.
    rewrite Hp.
    change 8 with (String.length (fence ++ "json" ++ nl)%string).
    rewrite drop_append. apply strip_closing_append.
  - unfold cleaned_text.
    change (text_or (Some (fence ++ nl ++ body ++ nl ++ fence)%string) "{}")
      with ((fence ++ nl) ++ (body ++ nl ++ fence))%string.
    assert (Hs : startsWith fence ((fence ++ nl) ++ body ++ nl ++ fence)%string = true)
      by reflexivity.
    rewrite Hs. unfold strip_opening.
    assert (Hj : startsWith (fence ++ "json" ++ nl)
                   ((fence ++ nl) ++ body ++ nl ++ fence)%string = false)
      by reflexivity.
    rewrite Hj.
    assert (Hp : startsWith (fence ++ nl) ((fence ++ nl) ++ body ++ nl ++ fence)%string = true)
      by apply prefix_append.
    rewrite Hp.
    change 4 with (String.length (fence ++ nl)%string).
    rewrite drop_append. apply strip_closing_append.
Qed.

Section Passport.

Context {engine : Engine} {service : Service}.

Lemma get_field o k : o <> VNull -> o <> VUndefined -> get o k = Ok (field o k).
Proof. unfold field. destruct o; simpl; intros H1 H2; try reflexivity; contradiction. Qed.

Lemma passport_result_spec t result w :
  JSON_parse (cleaned_text t) = Some result ->
  result <> VNull -> result <> VUndefined ->
  passport_result t w =
    if truthy (field result "passportNumber") || truthy (field result "fullName")
    then (Ok (identity_of result), w)
    else (Throw extraction_failed, w).
Proof.
  intros Hparse Hn Hu. unfold passport_result, parse. rewrite Hparse.
  unfold bind, ret, lift, throw.
  rewrite !(get_field _ _ Hn Hu).
  destruct (truthy (field result "passportNumber")); simpl; [reflexivity|].
  destruct (truthy (field result "fullName")); reflexivity.
Qed.


(** What [absent] means for a field of the declared type: a text, [null]
    or nothing. *)
Lemma absent_text (v : value) :
  (v = VUndefined \/ v = VNull \/ exists s, v = VStr s) ->
  (absent v <-> v = VUndefined \/ v = VNull \/ v = VStr ""%string).
Proof.
  unfold absent. intros [-> | [-> | [s ->]]]; simpl.
  - tauto.
  - tauto.
  - destruct (String.eqb s "") eqn:E; simpl.
    + apply String.eqb_eq in E. subst s. tauto.
    + apply String.eqb_neq in E. split; [discriminate|].
      intros [H | [H | H]]; try discriminate. inversion H. contradiction.
Qed.

(** The second copy applies the same test and returns the parsed
    object itself. *)
Lemma second_copy_passport_result t result w :
  JSON_parse (cleaned_text t) = Some result ->
  result <> VNull -> result <> VUndefined ->
  CoreServices.passport_result t w =
    if truthy (field result "passportNumber") || truthy (field result "fullName")
    then (Ok result, w)
    else (Throw CoreServices.extraction_failed, w).
Proof.
  intros Hparse Hn Hu. unfold CoreServices.passport_result, parse. rewrite Hparse.
  unfold bind, ret, lift, throw.
  rewrite !(get_field _ _ Hn Hu).
  destruct (truthy (field result "passportNumber")); simpl; [reflexivity|].
  destruct (truthy (field result "fullName")); reflexivity.
Qed.

End Passport.

(** * Sessions *)

Section Sessions.

Context {engine : Engine} {service : Service}.

Lemma run_contexts p prompt schema w :
  contexts (trace (snd (run p prompt schema w))) = contexts (trace w) ++ [pending p w].
Proof.
  unfold run, bind, getSession, pending.
  destruct (chat (session p w)) as [c|]; unfold sendMessage; simpl;
    destruct (reply _); simpl;
    repeat first [rewrite trace_with_session | rewrite trace_record | rewrite contexts_app];
    simpl; rewrite ?app_nil_r, <- ?app_assoc; reflexivity.
Qed.

Lemma snd_parse t w : snd (parse t w) = w.
Proof. unfold parse. destruct (JSON_parse t); reflexivity. Qed.

Lemma snd_bind_still {A B} (m : M A) (k : A -> M B) w :
  (forall a w', snd (k a w') = w') -> snd (bind m k w) = snd (m w).
Proof.
  intros Hk. unfold bind. destruct (m w) as [[a | e |] w1]; simpl; [apply Hk | |]; reflexivity.
Qed.

Lemma pending_cleared p w : pending p (snd (clearSession p w)) = [].
Proof. unfold pending, clearSession. simpl. rewrite session_with_session. reflexivity. Qed.

Lemma trace_cleared p w : trace (snd (clearSession p w)) = trace w.
Proof. unfold clearSession. simpl. apply trace_with_session. Qed.

(** [getCommonVisaPurposes] sends one message, on a chat without
    earlier turns. *)
Lemma getCommonVisaPurposes_starts_afresh ctz dest w :
  contexts (trace (snd (getCommonVisaPurposes ctz dest w))) = contexts (trace w) ++ [[]].
Proof.
  unfold getCommonVisaPurposes.
  rewrite (bind_Ok _ _ w tt (snd (clearSession visaConsultant w))) by reflexivity.
  rewrite snd_bind_still by (intros; apply snd_parse).
  rewrite run_contexts, pending_cleared, trace_cleared. reflexivity.
Qed.

(** So does [getTravelAdvisory]. *)
Lemma getTravelAdvisory_starts_afresh dest w :
  contexts (trace (snd (getTravelAdvisory dest w))) = contexts (trace w) ++ [[]].
Proof.
  unfold getTravelAdvisory.
  rewrite (bind_Ok _ _ w tt (snd (clearSession travelGuide w))) by reflexivity.
  rewrite snd_bind_still by (intros; apply snd_parse).
  rewrite run_contexts, pending_cleared, trace_cleared. reflexivity.
Qed.

(** The two functions of the drafter send their message on whatever
    chat the drafter holds: nothing is cleared. *)
Lemma drafter_functions_continue_the_chat policy template data w :
  contexts (trace (snd (generateDocumentChecklist policy w)))
    = contexts (trace w) ++ [pending legalDrafter w] /\
  contexts (trace (snd (generateVisaDocument template data w)))
    = contexts (trace w) ++ [pending legalDrafter w].
Proof.
  split.
  - unfold generateDocumentChecklist.
    rewrite snd_bind_still; [apply run_contexts|].
    intros r w'. rewrite snd_bind_still; [apply snd_parse|]. reflexivity.
  - unfold generateVisaDocument.
    rewrite snd_bind_still; [apply run_contexts | reflexivity].
Qed.

Lemma grows_search_loop ctz res dest purp onProgress fuel st :
  grows (S MAX_RETRIES - attempts st) (search_loop fuel ctz res dest purp onProgress st).
Proof.
  apply (grows_loop (attempt ctz res dest purp onProgress)
           (fun fuel => search_loop fuel ctz res dest purp onProgress)
           (search_loop_unfold ctz res dest purp onProgress)).
  intros n previous. apply grows_attempt.
Qed.

(** The first attempt of a search sends its message on a new chat. *)
Lemma attempt_first_message ctz res dest purp onProgress previous w :
  pending visaConsultant w = [] ->
  exists rest,
    contexts (trace (snd (attempt ctz res dest purp onProgress 0 previous w)))
      = contexts (trace w) ++ [] :: rest.
Proof.
  intros Hp. unfold attempt.
  rewrite (bind_Ok _ _ w (getFullYear (trace w)) w) by reflexivity.
  assert (Hprompt : exists w' prompt,
             (notify onProgress "Consulting Official Sources..." ;;;
              ret (initial_prompt ctz res dest purp (getFullYear (trace w)))) w
               = (Ok prompt, w') /\
             contexts (trace w') = contexts (trace w) /\
             pending visaConsultant w' = []).
  { destruct onProgress; simpl; eexists; eexists; (split; [reflexivity|]).
    - rewrite trace_record, contexts_app. simpl. rewrite app_nil_r.
      split; [reflexivity|]. unfold pending. rewrite session_record. exact Hp.
    - split; [reflexivity | exact Hp]. }
  destruct Hprompt as (w' & prompt & Hrun & Hc & Hp').
  change (Nat.ltb 0 0) with false. cbv iota.
  rewrite (bind_Ok _ _ _ _ _ Hrun).
  match goal with
  | |- context [bind (run ?p ?pr ?s) ?K] =>
      destruct (after_bind 0 (run p pr s) K w') as (evs & Hevs)
  end.
  { intros [text raw].
    apply grows_bind_l; [apply grows_parse|]. intros data.
    apply grows_bind_l; [apply grows_lift|]. intros declared.
    apply grows_bind_l; [apply grows_lift|]. intros jsonSources.
    apply grows_bind_l; [apply grows_lift|]. intros srcs.
    apply grows_bind_l; [apply grows_notify|]. intros _.
    apply grows_bind_l.
    { destruct text; [apply grows_evaluateOutput | apply grows_throw]. }
    intros v. apply grows_bind_l; [apply grows_lift|]. intros v'. apply grows_ret. }
  rewrite Hevs, contexts_app, run_contexts, Hp', Hc, <- app_assoc.
  exists (contexts evs). reflexivity.
Qed.

(** [searchVisaInfo] clears the consultant's session first: its first
    message goes out on a chat without earlier turns. *)
Lemma searchVisaInfo_starts_afresh ctz res dest purp onProgress w0 :
  exists rest,
    contexts (trace (snd (searchVisaInfo ctz res dest purp onProgress w0)))
      = contexts (trace w0) ++ [] :: rest.
Proof.
  unfold searchVisaInfo, searchVisaInfo_with.
  match goal with
  | |- context [try_catch ?m ?h] =>
      destruct (after_try_catch 0 m h w0) as (e1 & H1)
  end.
  { intros e.
    apply grows_bind_l;
      [apply (grows_emit (ConsoleError "Agent failed:" e)) | intros; apply grows_throw]. }
  rewrite H1, contexts_app.
  rewrite (bind_Ok _ _ w0 tt (snd (clearSession visaConsultant w0))) by reflexivity.
  match goal with
  | |- context [bind (search_loop ?f ?a ?b ?c ?d ?o ?st) ?K] =>
      destruct (after_bind 0 (search_loop f a b c d o st) K
                  (snd (clearSession visaConsultant w0))) as (e2 & H2)
  end.
  { intros st. apply grows_lift. }
  rewrite H2, contexts_app.
  rewrite search_loop_unfold. change (Nat.leb (attempts loop_start) MAX_RETRIES) with true.
  cbv iota.
  match goal with
  | |- context [bind (attempt ?a ?b ?c ?d ?o ?n ?v) ?K] =>
      destruct (after_bind (S MAX_RETRIES) (attempt a b c d o n v) K
                  (snd (clearSession visaConsultant w0))) as (e3 & H3)
  end.
  { intros a. apply grows_bind_l; [apply grows_lift|]. intros [|].
    - apply grows_weaken with (k := 0); [apply grows_ret | lia].
    - apply grows_weaken with (k := S MAX_RETRIES - attempts (carried (attempts loop_start + 1) a));
        [apply grows_search_loop | lia]. }
  rewrite H3, contexts_app.
  destruct (attempt_first_message ctz res dest purp onProgress
              (current_verification loop_start)
              (snd (clearSession visaConsultant w0))
              (pending_cleared visaConsultant w0)) as (rest & Hrest).
  change (attempts loop_start) with 0. rewrite Hrest, trace_cleared.
  exists (rest ++ contexts e3 ++ contexts e2 ++ contexts e1).
  rewrite <- !app_assoc. reflexivity.
Qed.

End Sessions.

(** * The module at work *)

Import Examples.

Ltac run := vm_compute; reflexivity.

(** A first attempt audited at 9 is the only one. *)
Lemma accepted_first_attempt_is_returned :
  exists a w1 p,
    attempt (engine := reference_engine) (service := accepting_service)
      "Canada" "Canada" "Japan" "Tourism" true 0
      (current_verification loop_start)
      (snd (clearSession visaConsultant initial_world)) = (Ok a, w1) /\
    accepted (engine := reference_engine) (att_verification a) = Ok true /\
    searchVisaInfo (engine := reference_engine) (service := accepting_service)
      "Canada" "Canada" "Japan" "Tourism" true initial_world = (Ok p, w1) /\
    sends (trace w1) = 1.
Proof.
  destruct (searchVisaInfo_at_most_three_attempts
              (engine := reference_engine) (service := accepting_service)
              "Canada" "Canada" "Japan" "Tourism" true initial_world)
    as (_ & _ & _ & Hstop).
  eassert (Hatt : attempt (engine := reference_engine) (service := accepting_service)
                    "Canada" "Canada" "Japan" "Tourism" true 0
                    (current_verification loop_start)
                    (snd (clearSession visaConsultant initial_world)) = (Ok _, _))
    by run.
  match type of Hatt with
  | _ = (Ok ?a, _) =>
      assert (Hacc : accepted (engine := reference_engine) (att_verification a) = Ok true)
        by run
  end.
  destruct (Hstop 0 loop_start _ _ _
              (iteration_first _ _) (Nat.le_0_l _) Hatt Hacc)
    as (p & Hp & Hrun).
  eexists. eexists. exists p.
  split; [exact Hatt|]. split; [exact Hacc|]. split; [exact Hrun | reflexivity].
Defined.

(** Three attempts audited at 7, 3 and 4 that differ in every field:
    the record returned is the third attempt's throughout, not the
    first and better one. *)
Lemma exhausted_search_returns_third_attempt :
  exists st w a w1 p,
    iteration (engine := reference_engine)
      (attempt (engine := reference_engine) (service := wavering_service)
         "Canada" "Canada" "Japan" "Tourism" false)
      initial_world MAX_RETRIES st w /\
    attempt (engine := reference_engine) (service := wavering_service)
      "Canada" "Canada" "Japan" "Tourism" false MAX_RETRIES
      (current_verification st) w = (Ok a, w1) /\
    accepted (engine := reference_engine) (att_verification a) = Ok false /\
    searchVisaInfo (engine := reference_engine) (service := wavering_service)
      "Canada" "Canada" "Japan" "Tourism" false initial_world = (Ok p, w1) /\
    get (current_verification st) "score" = Ok (of_num 3) /\
    visaStatus p = VStr "e_visa" /\
    summary p = VStr "Third try" /\
    whatsNext p
      = VArr [VObj [("title", VStr "Apply online"); ("description", VStr "As instructed")]] [] /\
    timeline p = VStr "Five days" /\
    requirements p = VArr [VStr "Photograph"] [] /\
    sources p = [] /\
    get (verification p) "score" = Ok (of_num 4).
Proof.
  eassert (H0 : attempt (engine := reference_engine) (service := wavering_service)
                  "Canada" "Canada" "Japan" "Tourism" false 0
                  (current_verification loop_start)
                  (snd (clearSession visaConsultant initial_world)) = (Ok _, _))
    by run.
  pose proof (iteration_next (engine := reference_engine)
                (body := attempt (engine := reference_engine)
                           (service := wavering_service)
                           "Canada" "Canada" "Japan" "Tourism" false)
                (iteration_first _ _) (Nat.le_0_l _) H0 eq_refl)
    as I1.
  match type of I1 with
  | iteration _ _ _ ?st ?w =>
      eassert (H1 : attempt (engine := reference_engine) (service := wavering_service)
                      "Canada" "Canada" "Japan" "Tourism" false 1
                      (current_verification st) w = (Ok _, _))
        by run
  end.
  pose proof (iteration_next (engine := reference_engine) I1 (Nat.le_succ_diag_r 1) H1 eq_refl)
    as I2.
  match type of I2 with
  | iteration _ _ _ ?st ?w =>
      eassert (H2 : attempt (engine := reference_engine) (service := wavering_service)
                      "Canada" "Canada" "Japan" "Tourism" false MAX_RETRIES
                      (current_verification st) w = (Ok _, _))
        by run
  end.
  destruct (searchVisaInfo_exhaustion_returns_last_attempt _ _ _ _ _ _ _ _ _ _ I2 H2 eq_refl)
    as (p & Hrun & Hp & Hv & Hs & _ & _ & _ & _ & Hst & Hsu & Hwn & Htl & Hrq).
  do 4 eexists. exists p.
  split; [exact I2|]. split; [exact H2|]. split; [reflexivity|]. split; [exact Hrun|].
  split; [reflexivity|].
  rewrite Hst, Hsu, Hwn, Htl, Hrq, Hs, Hv. repeat split.
Defined.

(** C3, where the code falls short.  When the auditor leaves the score
    out and there are no sources, the guardrail computes
    [Math.min(undefined, 5)]: the verification that is returned carries
    the notice, but its score is [NaN], which is not at most 5. *)
Lemma scoreless_audit_is_not_clamped :
  exists p,
    fst (searchVisaInfo (engine := reference_engine) (service := scoreless_service)
           "Canada" "Canada" "Japan" "Tourism" false initial_world) = Ok p /\
    sources p = [] /\
    get (verification p) "score" = Ok (VNum NaN) /\
    ~ score_at_most_5 (engine := reference_engine) (verification p) /\
    reasoning_mentions missing_sources_notice (verification p).
Proof.
  eexists. split; [run|]. split; [reflexivity|]. split; [reflexivity|]. split.
  - intros (sc & Hsc & Hle). vm_compute in Hsc. inversion Hsc; subst sc.
    vm_compute in Hle. discriminate.
  - eexists. split; [reflexivity | run].
Qed.

(** The same happens in the second copy. *)
Lemma second_copy_leaves_NaN_score :
  exists p,
    fst (CoreServices.searchVisaInfo (engine := reference_engine)
           (service := scoreless_service)
           "Canada" "Canada" "Japan" "Tourism" false CoreServices.initial_world) = Ok p /\
    sources p = [] /\
    get (verification p) "score" = Ok (VNum NaN).
Proof. eexists. split; [run|]. split; reflexivity. Qed.

(** C4 does not hold as stated.  An auditor that answers with text that
    is not JSON makes [evaluateOutput], and with it the whole search,
    throw. *)
Lemma malformed_audit_is_thrown :
  fst (evaluateOutput (engine := reference_engine) (service := garbled_auditor)
         japan_answer criteria initial_world)
    = Throw (SyntaxError "I cannot evaluate this.") /\
  fst (searchVisaInfo (engine := reference_engine) (service := garbled_service)
         "Canada" "Canada" "Japan" "Tourism" false initial_world)
    = Throw (SyntaxError "I cannot evaluate this.").
Proof. split; run. Qed.

(** An auditor that answers without text gives the fail-safe record. *)
Lemma silent_audit_is_fail_safe :
  JSON_parse (Engine := reference_engine) evaluation_fallback = Some fail_safe /\
  fst (evaluateOutput (engine := reference_engine) (service := silent_service)
         japan_answer criteria initial_world) = Ok fail_safe.
Proof.
  split; [reflexivity|].
  apply (evaluateOutput_fail_safe_on_empty_output
           (engine := reference_engine) (service := silent_service)
           japan_answer criteria initial_world {| text := None; candidates := None |}
           eq_refl eq_refl).
  left. reflexivity.
Defined.

(** C5, where the second copy falls short.  It lets the grounding
    metadata overwrite the explicit entry: the merged list carries the
    title found by the search, where [services/gemini.ts] keeps the
    explicit one. *)
Lemma CoreServices_reconcile_keeps_implicit_title :
  CoreServices.reconcile explicit_sources implicit_sources = Ok implicit_sources /\
  reconcile explicit_sources implicit_sources = Ok explicit_sources /\
  map title_of implicit_sources <> map title_of explicit_sources.
Proof. split; [reflexivity|]. split; [reflexivity|]. discriminate. Qed.

(** The sources returned for the accepted answer: the explicit entry,
    then the one grounding chunk with a new URI. *)
Lemma accepted_answer_sources_are_unique :
  exists p w,
    searchVisaInfo (engine := reference_engine) (service := accepting_service)
      "Canada" "Canada" "Japan" "Tourism" true initial_world = (Ok p, w) /\
    List.length (sources p) = 2 /\
    unique_uris (sources p).
Proof.
  eassert (Hrun : searchVisaInfo (engine := reference_engine) (service := accepting_service)
                    "Canada" "Canada" "Japan" "Tourism" true initial_world = (Ok _, _))
    by run.
  destruct (reconciled_sources_have_unique_uris
              (engine := reference_engine) (service := accepting_service)
              "Canada" "Canada" "Japan" "Tourism" true) as (_ & _ & Hfinal).
  eexists. eexists. split; [exact Hrun|]. split; [reflexivity|].
  apply (Hfinal _ _ _ Hrun).
Defined.

(** C7, where the code falls short.  A letter is drafted, then a
    checklist is generated: neither function clears the drafter's
    session, so the second request goes out on the chat of the first,
    with its turn. *)
Lemma checklist_inherits_the_letter :
  let after_letter :=
    snd (generateVisaDocument (engine := reference_engine) (service := drafting_service)
           "cover-letter" letter_data initial_world) in
  let after_checklist :=
    snd (generateDocumentChecklist (engine := reference_engine)
           (service := drafting_service) japan_policy after_letter) in
  map (@List.length Turn) (contexts (trace after_checklist)) = [0; 1] /\
  (forall ts, nth_error (contexts (trace after_checklist)) 1 = Some ts ->
              map (fun t => received t) ts = [plain "Dear Visa Officer, ..."]).
Proof.
  split; [run|]. intros ts H. vm_compute in H. inversion H; subst ts. reflexivity.
Qed.

(** A generated checklist whose items came with [completed] set. *)
Lemma generated_checklist_is_uncompleted :
  exists checklist w items,
    generateDocumentChecklist (engine := reference_engine) (service := checklist_service)
      japan_policy initial_world = (Ok checklist, w) /\
    checklist = VArr items [] /\
    List.length items = 1 /\
    Forall (fun item => get item "completed" = Ok (VBool false)) items.
Proof.
  eassert (Hrun : generateDocumentChecklist (engine := reference_engine)
                    (service := checklist_service) japan_policy initial_world = (Ok _, _))
    by run.
  destruct (generateDocumentChecklist_items_start_uncompleted
              (engine := reference_engine) (service := checklist_service)
              _ _ _ _ Hrun) as (items & Hv & Hall).
  eexists. eexists. exists items.
  split; [exact Hrun|]. split; [exact Hv|]. split; [|exact Hall].
  inversion Hv. reflexivity.
Defined.


(** Two candidates of 3001 code units that differ in the last one are
    audited with the same request. *)
Lemma long_candidates_share_their_request :
  long_candidate "x" <> long_candidate "y" /\
  agree_upto 3000 (long_candidate "x") (long_candidate "y") /\
  evaluation_request (long_candidate "x") criteria
    = evaluation_request (long_candidate "y") criteria.
Proof.
  assert (H : agree_upto 3000 (long_candidate "x") (long_candidate "y")).
  { apply agree_uptob_sound. vm_compute. reflexivity. }
  split.
  - intros E. apply (f_equal (String.get 3000)) in E. vm_compute in E. discriminate.
  - split; [exact H|].
    apply (evaluateOutput_reads_first_3000_units
             (engine := reference_engine) (service := silent_service) _ _ criteria H).
Defined.

(* ================================================================== *)
(** * What a call leaves alone *)
(* ================================================================== *)

(** A relation between the world before and the world after that
    holds across recording an event and across replacing the session
    of a persona in [fits] by one of the same model and configuration
    holds across every function of the module that only touches such
    personas. *)
Section Frames.

Context {engine : Engine} {service : Service}.

Variable R : World -> World -> Prop.
Variable fits : Persona -> Prop.

Hypothesis R_refl : forall w, R w w.
Hypothesis R_trans : forall a b c, R a b -> R b c -> R a c.
Hypothesis R_record : forall e w, R w (record e w).
Hypothesis R_session : forall p s w,
  fits p ->
  session_model s = session_model (session p w) ->
  session_config s = session_config (session p w) ->
  R w (with_session p s w).

Lemma preserves_ret {A} (a : A) : preserves R (ret a).
Proof. intros w. apply R_refl. Qed.

Lemma preserves_throw {A} e : preserves R (@throw A e).
Proof. intros w. apply R_refl. Qed.

Lemma preserves_lift {A} (o : outcome A) : preserves R (lift o).
Proof. intros w. apply R_refl. Qed.

Lemma preserves_bind {A B} (m : M A) (f : A -> M B) :
  preserves R m -> (forall a, preserves R (f a)) -> preserves R (bind m f).
Proof.
  intros Hm Hf w. unfold bind. specialize (Hm w).
  destruct (m w) as [[a | e |] w1]; simpl in *; try exact Hm.
  apply R_trans with w1; [exact Hm | apply Hf].
Qed.

Lemma preserves_try_catch {A} (m : M A) h :
  preserves R m -> (forall e, preserves R (h e)) -> preserves R (try_catch m h).
Proof.
  intros Hm Hh w. unfold try_catch. specialize (Hm w).
  destruct (m w) as [[a | e |] w1]; simpl in *; try exact Hm.
  apply R_trans with w1; [exact Hm | apply Hh].
Qed.

Lemma preserves_emit e : preserves R (emit e).
Proof. intros w. apply R_record. Qed.

Lemma preserves_notify b s : preserves R (notify b s).
Proof. destruct b; [apply preserves_emit | apply preserves_ret]. Qed.

Lemma preserves_parse t : preserves R (parse t).
Proof. intros w. rewrite snd_parse. apply R_refl. Qed.

Lemma preserves_generateContent req : preserves R (generateContent req).
Proof.
  intros w. unfold generateContent. destruct (reply _); apply R_record.
Qed.

Lemma preserves_evaluateOutput c k : preserves R (evaluateOutput c k).
Proof.
  unfold evaluateOutput.
  apply preserves_bind; [apply preserves_generateContent | intros; apply preserves_parse].
Qed.

Lemma preserves_getSession p : fits p -> preserves R (getSession p).
Proof.
  intros Hp w. unfold getSession.
  destruct (chat (session p w)); simpl; [apply R_refl|].
  eapply R_trans; [apply R_record|].
  apply R_session; [exact Hp | |]; rewrite session_record; reflexivity.
Qed.

Lemma preserves_clearSession p : fits p -> preserves R (clearSession p).
Proof.
  intros Hp w. unfold clearSession. simpl. apply R_session; [exact Hp | |]; reflexivity.
Qed.

Lemma preserves_sendMessage p c req : fits p -> preserves R (sendMessage p c req).
Proof.
  intros Hp w. unfold sendMessage. destruct (reply _); simpl; [|apply R_record].
  eapply R_trans; [apply R_record|].
  apply R_session; [exact Hp | |]; reflexivity.
Qed.

Lemma preserves_run p prompt schema : fits p -> preserves R (run p prompt schema).
Proof.
  intros Hp. unfold run.
  apply preserves_bind; [apply preserves_getSession, Hp|]. intros c.
  apply preserves_bind; [apply preserves_sendMessage, Hp|]. intros r.
  apply preserves_ret.
Qed.

Lemma preserves_getCommonVisaPurposes ctz dest :
  fits visaConsultant -> preserves R (getCommonVisaPurposes ctz dest).
Proof.
  intros Hp. unfold getCommonVisaPurposes.
  apply preserves_bind; [apply preserves_clearSession, Hp|]. intros _.
  apply preserves_bind; [apply preserves_run, Hp|]. intros r. apply preserves_parse.
Qed.

Lemma preserves_getTravelAdvisory dest :
  fits travelGuide -> preserves R (getTravelAdvisory dest).
Proof.
  intros Hp. unfold getTravelAdvisory.
  apply preserves_bind; [apply preserves_clearSession, Hp|]. intros _.
  apply preserves_bind; [apply preserves_run, Hp|]. intros r. apply preserves_parse.
Qed.

Lemma preserves_attempt ctz res dest purp onProgress n previous :
  fits visaConsultant -> preserves R (attempt ctz res dest purp onProgress n previous).
Proof.
  intros Hp. unfold attempt.
  apply preserves_bind; [intros w; apply R_refl|]. intros year.
  apply preserves_bind.
  { destruct (Nat.ltb 0 n).
    - apply preserves_bind; [apply preserves_notify|]. intros _.
      apply preserves_bind; [apply preserves_lift|]. intros r. apply preserves_ret.
    - apply preserves_bind; [apply preserves_notify|]. intros _. apply preserves_ret. }
  intros prompt.
  apply preserves_bind; [apply preserves_run, Hp|]. intros [t raw].
  apply preserves_bind; [apply preserves_parse|]. intros data.
  apply preserves_bind; [apply preserves_lift|]. intros declared.
  apply preserves_bind; [apply preserves_lift|]. intros jsonSources.
  apply preserves_bind; [apply preserves_lift|]. intros srcs.
  apply preserves_bind; [apply preserves_notify|]. intros _.
  apply preserves_bind.
  { destruct t; [apply preserves_evaluateOutput | apply preserves_throw]. }
  intros v. apply preserves_bind; [apply preserves_lift|]. intros v'. apply preserves_ret.
Qed.

Lemma preserves_search_loop ctz res dest purp onProgress fuel :
  fits visaConsultant ->
  forall st, preserves R (search_loop fuel ctz res dest purp onProgress st).
Proof.
  intros Hp. induction fuel as [|fuel IH]; intros st; rewrite search_loop_unfold;
    destruct (Nat.leb (attempts st) MAX_RETRIES); try apply preserves_ret.
  - apply preserves_lift.
  - apply preserves_bind; [apply preserves_attempt, Hp|]. intros a.
    apply preserves_bind; [apply preserves_lift|]. intros [|]; [apply preserves_ret | apply IH].
Qed.

Lemma preserves_searchVisaInfo ctz res dest purp onProgress :
  fits visaConsultant -> preserves R (searchVisaInfo ctz res dest purp onProgress).
Proof.
  intros Hp. unfold searchVisaInfo, searchVisaInfo_with.
  apply preserves_try_catch.
  - apply preserves_bind; [apply preserves_clearSession, Hp|]. intros _.
    apply preserves_bind; [apply preserves_search_loop, Hp|]. intros st.
    apply preserves_lift.
  - intros e. apply preserves_bind; [apply preserves_emit|]. intros _. apply preserves_throw.
Qed.

Lemma preserves_generateDocumentChecklist policy :
  fits legalDrafter -> preserves R (generateDocumentChecklist policy).
Proof.
  intros Hp. unfold generateDocumentChecklist.
  apply preserves_bind; [apply preserves_run, Hp|]. intros r.
  apply preserves_bind; [apply preserves_parse|]. intros items. apply preserves_lift.
Qed.

Lemma preserves_generateVisaDocument template data :
  fits legalDrafter -> preserves R (generateVisaDocument template data).
Proof.
  intros Hp. unfold generateVisaDocument.
  apply preserves_bind; [apply preserves_run, Hp|]. intros r. apply preserves_ret.
Qed.

End Frames.

Section Sessions_kept.

Context {engine : Engine} {service : Service}.

Lemma same_session_refl q w : same_session q w w.
Proof. reflexivity. Qed.

Lemma same_session_trans q a b c :
  same_session q a b -> same_session q b c -> same_session q a c.
Proof. unfold same_session. intros H1 H2. rewrite H2. exact H1. Qed.

Lemma same_session_record q e w : same_session q w (record e w).
Proof. apply session_record. Qed.

Lemma same_session_other q p s w :
  p <> q -> same_session q w (with_session p s w).
Proof. unfold same_session. destruct p, q; intros H; try reflexivity; contradiction. Qed.

Lemma same_configuration_refl w : same_configuration w w.
Proof. intros p. split; reflexivity. Qed.

Lemma same_configuration_trans a b c :
  same_configuration a b -> same_configuration b c -> same_configuration a c.
Proof.
  intros H1 H2 p. destruct (H1 p) as [M1 C1], (H2 p) as [M2 C2].
  split; [rewrite M2; exact M1 | rewrite C2; exact C1].
Qed.

Lemma same_configuration_record e w : same_configuration w (record e w).
Proof. intros p. rewrite session_record. split; reflexivity. Qed.

Lemma same_configuration_session p s w :
  session_model s = session_model (session p w) ->
  session_config s = session_config (session p w) ->
  same_configuration w (with_session p s w).
Proof.
  intros Hm Hc q. destruct p, q; simpl in *; split; first [reflexivity | assumption].
Qed.

Lemma snd_passport_result t w : snd (passport_result t w) = w.
Proof.
  unfold passport_result.
  rewrite snd_bind_still; [apply snd_parse|].
  intros result w'. rewrite snd_bind_still; [reflexivity|].
  intros number w''. rewrite snd_bind_still.
  - destruct (truthy number); [reflexivity|].
    rewrite snd_bind_still; reflexivity.
  - intros [|] w3; [reflexivity|].
    repeat (rewrite snd_bind_still; [reflexivity | intros ? ?]). reflexivity.
Qed.

(** X1: whatever the service answers, no exported function changes the
    model or the configuration (system instruction and tools) of any
    of the three personas. *)
Theorem personas_keep_model_and_configuration :
  forall (ctz res dest purp : string) (onProgress : bool) (policy : VisaPolicy)
         (template : string) (data : list (string * value))
         (image mime content rubric : string),
    preserves same_configuration (getCommonVisaPurposes ctz dest) /\
    preserves same_configuration (getTravelAdvisory dest) /\
    preserves same_configuration (searchVisaInfo ctz res dest purp onProgress) /\
    preserves same_configuration (generateDocumentChecklist policy) /\
    preserves same_configuration (generateVisaDocument template data) /\
    preserves same_configuration (parsePassportImage image mime) /\
    preserves same_configuration (evaluateOutput content rubric).
Proof.
  intros.
  pose proof same_configuration_refl as Hr.
  pose proof same_configuration_trans as Ht.
  pose proof same_configuration_record as He.
  assert (Hs : forall p s w, True ->
             session_model s = session_model (session p w) ->
             session_config s = session_config (session p w) ->
             same_configuration w (with_session p s w))
    by (intros p s w _; apply same_configuration_session).
  split; [apply (preserves_getCommonVisaPurposes _ (fun _ => True) Hr Ht He Hs); exact I|].
  split; [apply (preserves_getTravelAdvisory _ (fun _ => True) Hr Ht He Hs); exact I|].
  split; [apply (preserves_searchVisaInfo _ (fun _ => True) Hr Ht He Hs); exact I|].
  split; [apply (preserves_generateDocumentChecklist _ (fun _ => True) Hr Ht He Hs); exact I|].
  split; [apply (preserves_generateVisaDocument _ (fun _ => True) Hr Ht He Hs); exact I|].
  split; [|apply (preserves_evaluateOutput _ Hr Ht He)].
  unfold parsePassportImage.
  apply (preserves_bind _ Ht); [apply (preserves_generateContent _ He)|].
  intros r w. rewrite snd_passport_result. apply Hr.
Qed.

End Sessions_kept.

Section Sessions_apart.

Context {engine : Engine} {service : Service}.

Ltac apart_from q lemma :=
  apply (lemma (same_session q) (fun p => p <> q)
           (same_session_refl q) (same_session_trans q) (same_session_record q)
           (fun p s w H _ _ => same_session_other q p s w H));
  discriminate.

(** X2: each function works on the session of its own persona only.
    The search and the purposes leave the sessions of the guide and of
    the drafter exactly as they were, the advisory leaves those of the
    consultant and of the drafter, the checklist and the document
    those of the consultant and of the guide. *)
Theorem calls_leave_the_sessions_of_other_personas :
  forall (ctz res dest purp : string) (onProgress : bool) (policy : VisaPolicy)
         (template : string) (data : list (string * value)),
    preserves (same_session travelGuide) (searchVisaInfo ctz res dest purp onProgress) /\
    preserves (same_session legalDrafter) (searchVisaInfo ctz res dest purp onProgress) /\
    preserves (same_session travelGuide) (getCommonVisaPurposes ctz dest) /\
    preserves (same_session legalDrafter) (getCommonVisaPurposes ctz dest) /\
    preserves (same_session visaConsultant) (getTravelAdvisory dest) /\
    preserves (same_session legalDrafter) (getTravelAdvisory dest) /\
    preserves (same_session visaConsultant) (generateDocumentChecklist policy) /\
    preserves (same_session travelGuide) (generateDocumentChecklist policy) /\
    preserves (same_session visaConsultant) (generateVisaDocument template data) /\
    preserves (same_session travelGuide) (generateVisaDocument template data).
Proof.
  intros.
  split; [apart_from travelGuide preserves_searchVisaInfo|].
  split; [apart_from legalDrafter preserves_searchVisaInfo|].
  split; [apart_from travelGuide preserves_getCommonVisaPurposes|].
  split; [apart_from legalDrafter preserves_getCommonVisaPurposes|].
  split; [apart_from visaConsultant preserves_getTravelAdvisory|].
  split; [apart_from legalDrafter preserves_getTravelAdvisory|].
  split; [apart_from visaConsultant preserves_generateDocumentChecklist|].
  split; [apart_from travelGuide preserves_generateDocumentChecklist|].
  split; [apart_from visaConsultant preserves_generateVisaDocument|].
  apart_from travelGuide preserves_generateVisaDocument.
Qed.

(** X3: the auditor and the passport reader keep no state: whatever the
    service answers, all they leave behind is their one request in the
    record; no session is created, read or changed. *)
Theorem auditor_and_passport_reader_are_stateless :
  forall (content rubric image mime : string) (w : World),
    snd (evaluateOutput content rubric w)
      = record (GenerateContent (evaluation_request content rubric)) w /\
    snd (parsePassportImage image mime w)
      = record (GenerateContent (passport_request image mime)) w.
Proof.
  intros. split.
  - unfold evaluateOutput. rewrite snd_bind_still by (intros; apply snd_parse).
    unfold generateContent. destruct (reply _); reflexivity.
  - unfold parsePassportImage.
    rewrite snd_bind_still by (intros; apply snd_passport_result).
    unfold generateContent. destruct (reply _); reflexivity.
Qed.

(** What [run] leaves of the chat of its persona, by the answer of the
    service (the request is the last event [run] records). *)
Lemma run_outcome p prompt schema w :
  match reply (trace (snd (run p prompt schema w))) with
  | Answer r =>
      fst (run p prompt schema w) = Ok (text r, r) /\
      exists req, message req = prompt /\
        pending p (snd (run p prompt schema w))
          = pending p w ++ (if kept r then [{| sent := req; received := r |}] else [])
  | Failure e =>
      fst (run p prompt schema w) = Throw e /\
      pending p (snd (run p prompt schema w)) = pending p w
  end.
Proof.
  unfold run, bind, getSession, sendMessage, pending.
  destruct (chat (session p w)) as [c|] eqn:Hc; simpl.
  - destruct (reply (trace w ++ _)) as [r | e] eqn:Hr; simpl;
      repeat (rewrite trace_with_session; simpl); rewrite Hr.
    + split; [reflexivity|].
      refine (ex_intro _ {| message := prompt; config := _ |} (conj eq_refl _)).
      rewrite session_with_session. simpl.
      destruct (kept r); [reflexivity | rewrite app_nil_r; reflexivity].
    + rewrite session_record, Hc. split; reflexivity.
  - rewrite trace_with_session. simpl.
    destruct (reply ((trace w ++ _) ++ _)) as [r | e] eqn:Hr; simpl;
      repeat (rewrite trace_with_session; simpl); rewrite Hr.
    + split; [reflexivity|].
      refine (ex_intro _ {| message := prompt; config := _ |} (conj eq_refl _)).
      rewrite session_with_session. simpl.
      destruct (kept r); [reflexivity | rewrite app_nil_r; reflexivity].
    + rewrite session_record, session_with_session. simpl. split; reflexivity.
Qed.

(** X4: [run] is where a persona remembers.  It returns the text and
    the response the service answers with, and that turn, the request
    and its response, joins the turns the next message of the persona
    goes out with exactly when the response has valid content; a
    response without valid content leaves the turns as they were, and
    so does a failure of the service, which [run] rethrows.  [run]
    itself throws nothing else. *)
Theorem run_keeps_the_turns_with_content :
  forall (p : Persona) (prompt : string) (schema : option Schema) (w : World),
    let out := run p prompt schema w in
    match reply (trace (snd out)) with
    | Answer r =>
        fst out = Ok (text r, r) /\
        exists req, message req = prompt /\
          pending p (snd out)
            = pending p w ++ (if kept r then [{| sent := req; received := r |}] else [])
    | Failure e =>
        fst out = Throw e /\ pending p (snd out) = pending p w
    end.
Proof. intros p prompt schema w. apply run_outcome. Qed.

End Sessions_apart.

(* ================================================================== *)
(** * What the search returns *)
(* ================================================================== *)

(** Whatever a search returns was left by an attempt: the loop is
    entered with index 0 and never returns its initial variables. *)
Section Last_attempt.

Context {engine : Engine} {service : Service}.
Variables ctz res dest purp : string.
Variable body : nat -> value -> M Attempt.
Variable loop : nat -> LoopState -> M LoopState.
Variable search : M VisaPolicy.

Hypothesis loop_unfold :
  forall fuel st,
    loop fuel st =
    if Nat.leb (attempts st) MAX_RETRIES then
      match fuel with
      | O => lift OutOfFuel
      | S fuel' =>
          a <- body (attempts st) (current_verification st) ;;
          stop <- lift (accepted (att_verification a)) ;;
          if (stop : bool) then ret (carried (attempts st) a)
          else loop fuel' (carried (attempts st + 1) a)
      end
    else ret st.

Hypothesis search_unfold :
  search =
  try_catch
    (clearSession visaConsultant ;;;
     st <- loop (S MAX_RETRIES) loop_start ;;
     lift (policy_of ctz res dest purp (currentData st) (currentSources st)
             (current_verification st)))
    (fun e => emit (ConsoleError "Agent failed:" e) ;;; throw e).

Lemma loop_ends_with_an_attempt fuel :
  forall st w st' w',
    loop fuel st w = (Ok st', w') ->
    attempts st <= MAX_RETRIES ->
    exists n previous w1 a,
      body n previous w1 = (Ok a, w') /\ st' = carried (attempts st') a.
Proof.
  induction fuel as [|fuel IH]; intros st w st' w' H Hle; rewrite loop_unfold in H;
    apply Nat.leb_le in Hle; rewrite Hle in H; [discriminate|].
  inv_bind H as a w1 Hatt.
  inv_bind H as stop w2 Hstop.
  apply lift_Ok_inv in Hstop. destruct Hstop as [_ ->].
  destruct stop.
  - inversion H; subst. exists (attempts st), (current_verification st), w, a.
    split; [exact Hatt | reflexivity].
  - destruct (Nat.leb (attempts st + 1) MAX_RETRIES) eqn:Hnext.
    + apply (IH _ _ _ _ H). cbn [carried attempts]. apply Nat.leb_le. exact Hnext.
    + rewrite loop_unfold in H. cbn [carried attempts] in H. rewrite Hnext in H.
      inversion H; subst. exists (attempts st), (current_verification st), w, a.
      split; [exact Hatt | reflexivity].
Qed.

Lemma search_ends_with_an_attempt w0 p w :
  search w0 = (Ok p, w) ->
  exists n previous w1 a,
    body n previous w1 = (Ok a, w) /\
    policy_of ctz res dest purp (att_data a) (att_sources a) (att_verification a) = Ok p.
Proof.
  rewrite search_unfold. intros H.
  apply try_catch_Ok_inv in H;
    [|intros e w1; unfold bind, emit, throw; simpl; discriminate].
  inv_bind H as u w1 Hclear.
  inv_bind H as st w2 Hloop.
  apply lift_Ok_inv in H. destruct H as [Hp ->].
  destruct (loop_ends_with_an_attempt _ _ _ _ _ Hloop) as (n & previous & w3 & a & Hatt & Hst).
  { unfold MAX_RETRIES. simpl. lia. }
  exists n, previous, w3, a. split; [exact Hatt|].
  rewrite Hst in Hp. exact Hp.
Qed.

End Last_attempt.

Section Returned.

Context {engine : Engine} {service : Service}.

Lemma searchVisaInfo_ends_with_an_attempt ctz res dest purp onProgress w0 p w :
  searchVisaInfo ctz res dest purp onProgress w0 = (Ok p, w) ->
  exists n previous w1 a,
    attempt ctz res dest purp onProgress n previous w1 = (Ok a, w) /\
    policy_of ctz res dest purp (att_data a) (att_sources a) (att_verification a) = Ok p.
Proof.
  apply (search_ends_with_an_attempt ctz res dest purp
           (attempt ctz res dest purp onProgress)
           (fun fuel => search_loop fuel ctz res dest purp onProgress)
           (searchVisaInfo ctz res dest purp onProgress)
           (search_loop_unfold ctz res dest purp onProgress) eq_refl).
Qed.

(** X6: a record that [searchVisaInfo] returns names the four inputs
    of the call, and none of its status, summary, steps, timeline and
    requirements is [undefined], [null], an empty text or any other
    falsy value, whatever the consultant left out.  (The steps and the
    requirements may be an empty array: that is the default the code
    gives them, and an array is never falsy.) *)
Theorem searchVisaInfo_returns_a_complete_record :
  forall (ctz res dest purp : string) (onProgress : bool) (w w' : World) (p : VisaPolicy),
    searchVisaInfo ctz res dest purp onProgress w = (Ok p, w') ->
    country p = dest /\ citizenship p = ctz /\ residency p = res /\ purpose p = purp /\
    truthy (visaStatus p) = true /\ truthy (summary p) = true /\
    truthy (whatsNext p) = true /\ truthy (timeline p) = true /\
    truthy (requirements p) = true.
Proof.
  intros ctz res dest purp onProgress w w' p H.
  destruct (searchVisaInfo_ends_with_an_attempt _ _ _ _ _ _ _ _ H)
    as (n & previous & w1 & a & _ & Hp).
  destruct (policy_of_inv _ _ _ _ _ _ _ _ Hp)
    as (Hc & Hz & Hr & Hu & Hst & Hsu & Hwn & Htl & Hrq & _).
  rewrite Hst, Hsu, Hwn, Htl, Hrq.
  repeat split; try assumption; apply or_else_truthy; reflexivity.
Qed.

Lemma Math_min_5_below_8 n : num_ge (Math_min n (Fin 5)) (Fin 8) = false.
Proof.
  destruct n as [q | | |]; simpl; try reflexivity.
  destruct (Qle_bool q 5) eqn:Hq; simpl.
  - destruct (Qle_bool 8 q) eqn:H8; [|reflexivity].
    apply Qle_bool_iff in Hq, H8.
    assert (H : (8 <= 5)%Q) by (eapply Qle_trans; eassumption).
    exfalso. revert H. unfold Qle. simpl. lia.
  - reflexivity.
Qed.

Lemma penalized_never_accepted v v' : penalize v = Ok v' -> accepted v' = Ok false.
Proof.
  intros H. destruct (penalize_inv _ _ H) as (sc & r & _ & _ & Hs & _).
  unfold accepted. rewrite Hs. simpl. rewrite Math_min_5_below_8. reflexivity.
Qed.

(** A record without a source was penalized by the guardrail. *)
Lemma unsourced_record_is_penalized ctz res dest purp onProgress w w' p :
  searchVisaInfo ctz res dest purp onProgress w = (Ok p, w') ->
  sources p = [] ->
  get (verification p) "pass" = Ok (VBool false) /\
  reasoning_mentions missing_sources_notice (verification p) /\
  accepted (verification p) = Ok false.
Proof.
  intros H Hnone.
  destruct (searchVisaInfo_ends_with_an_attempt _ _ _ _ _ _ _ _ H)
    as (n & previous & w1 & a & Hatt & Hp).
  destruct (policy_of_inv _ _ _ _ _ _ _ _ Hp) as (_ & _ & _ & _ & _ & _ & _ & _ & _ & Hs & Hv).
  rewrite Hs in Hnone. rewrite Hv.
  destruct (attempt_without_sources_is_penalized _ _ _ _ _ _ _ _ _ _ Hatt Hnone)
    as (audited & Hpen & Hr & Hpass & _).
  split; [exact Hpass|]. split; [exact Hr|].
  apply (penalized_never_accepted _ _ Hpen).
Qed.

(** Its reasoning ends with the notice. *)
Lemma unsourced_record_reasoning ctz res dest purp onProgress w w' p :
  searchVisaInfo ctz res dest purp onProgress w = (Ok p, w') ->
  sources p = [] ->
  exists base,
    get (verification p) "reasoning" = Ok (VStr (base ++ missing_sources_notice)%string).
Proof.
  intros H Hnone.
  destruct (searchVisaInfo_ends_with_an_attempt _ _ _ _ _ _ _ _ H)
    as (n & previous & w1 & a & Hatt & Hp).
  destruct (policy_of_inv _ _ _ _ _ _ _ _ Hp) as (_ & _ & _ & _ & _ & _ & _ & _ & _ & Hs & Hv).
  rewrite Hs in Hnone. rewrite Hv.
  destruct (attempt_without_sources_is_penalized _ _ _ _ _ _ _ _ _ _ Hatt Hnone)
    as (audited & Hpen & _).
  destruct (penalize_inv _ _ Hpen) as (sc & r & _ & _ & _ & _ & Hreason).
  eexists. exact Hreason.
Qed.

(** X7: a record returned without a single source went through the
    guardrail: [pass] is false, the reasoning carries the notice about
    the missing links, and the verification does not reach the
    acceptance threshold, whatever the auditor answered (a score that
    is missing or not a number included). *)
Theorem record_without_sources_is_marked_and_not_accepted :
  forall (ctz res dest purp : string) (onProgress : bool) (w w' : World) (p : VisaPolicy),
    searchVisaInfo ctz res dest purp onProgress w = (Ok p, w') ->
    sources p = [] ->
    get (verification p) "pass" = Ok (VBool false) /\
    reasoning_mentions missing_sources_notice (verification p) /\
    accepted (verification p) = Ok false.
Proof.
  intros ctz res dest purp onProgress w w' p. apply unsourced_record_is_penalized.
Qed.

Lemma collect_unique_filed all :
  forall m m', collect_unique all m = Ok m' -> filed m -> filed m'.
Proof.
  induction all as [|s rest IH]; intros m m' H Hm; simpl in H.
  - inversion H; subst. exact Hm.
  - destruct (get s "uri") as [u | e |] eqn:Hu; try discriminate.
    destruct (truthy u && negb (map_has u m)) eqn:Hc.
    + apply (IH _ _ H). unfold filed in *. apply Forall_app. split; [exact Hm|].
      constructor; [|constructor]. simpl.
      apply andb_true_iff in Hc. destruct Hc as [Ht _].
      split; [apply (uri_of_get _ _ Hu) | exact Ht].
    + apply (IH _ _ H Hm).
Qed.

Lemma reconcile_all_linked js ms out : reconcile js ms = Ok out -> all_linked out.
Proof.
  unfold reconcile. destruct (collect_unique (js ++ ms) []) as [m | e |] eqn:Hc;
    try discriminate.
  intros H. inversion H; subst.
  apply collect_unique_filed in Hc; [|constructor].
  unfold all_linked. apply Forall_map. unfold filed in Hc.
  eapply Forall_impl; [|exact Hc]. intros [k s] [Hk Ht]. simpl in *. rewrite Hk. exact Ht.
Qed.

(** X8: every source of a record that [searchVisaInfo] returns carries
    a URI: what the consultant declared or the grounding metadata
    listed without one (missing, [null] or empty) is dropped. *)
Theorem returned_sources_all_carry_a_uri :
  forall (ctz res dest purp : string) (onProgress : bool) (w w' : World) (p : VisaPolicy),
    searchVisaInfo ctz res dest purp onProgress w = (Ok p, w') ->
    all_linked (sources p).
Proof.
  intros ctz res dest purp onProgress w w' p H.
  destruct (searchVisaInfo_ends_with_an_attempt _ _ _ _ _ _ _ _ H)
    as (n & previous & w1 & a & Hatt & Hp).
  destruct (policy_of_inv _ _ _ _ _ _ _ _ Hp) as (_ & _ & _ & _ & _ & _ & _ & _ & _ & Hs & _).
  rewrite Hs.
  destruct (attempt_inv _ _ _ _ _ _ _ _ _ _ Hatt) as (declared & js & raw & v & _ & _ & Hrec & _).
  apply (reconcile_all_linked _ _ _ Hrec).
Qed.

(** X9: asked for a URI, the reconciled list answers with the first
    source that carries it among the explicit sources followed by the
    grounding metadata: none is lost, and the explicit one wins. *)
Theorem reconcile_answers_with_the_first_occurrence :
  forall (explicit implicit merged : list value) (u : value),
    reconcile explicit implicit = Ok merged ->
    truthy u = true ->
    first_with u merged = first_with u (explicit ++ implicit).
Proof.
  intros js ms out u H Hu. unfold reconcile in H.
  destruct (collect_unique (js ++ ms) []) as [m | e |] eqn:Hc; try discriminate.
  inversion H; subst.
  rewrite (collect_unique_first _ _ _ u Hc); [reflexivity | constructor | exact Hu].
Qed.

End Returned.

(* ================================================================== *)
(** * What an attempt sends and what comes back *)
(* ================================================================== *)

Lemma messages_app a b : messages (a ++ b) = messages a ++ messages b.
Proof. unfold messages. apply flat_map_app. Qed.

Lemma sends_none_messages evs : sends evs <= 0 -> messages evs = [].
Proof.
  induction evs as [|e evs IH]; [reflexivity|].
  unfold sends in *. destruct e; simpl; intros H; try (apply IH; exact H).
  lia.
Qed.

Lemma quiet_messages {A} (m : M A) w :
  grows 0 m -> messages (trace (snd (m w))) = messages (trace w).
Proof.
  intros H. destruct (H w) as (evs & Ht & Hs).
  rewrite Ht, messages_app, (sends_none_messages _ Hs), app_nil_r. reflexivity.
Qed.

Lemma messages_bind_quiet {A B} (m : M A) (f : A -> M B) w :
  (forall a, grows 0 (f a)) ->
  messages (trace (snd (bind m f w))) = messages (trace (snd (m w))).
Proof.
  intros Hf. unfold bind. destruct (m w) as [[a | e |] w1]; simpl; try reflexivity.
  apply (quiet_messages _ _ (Hf a)).
Qed.

Lemma bind_Throw {A B} (m : M A) (k : A -> M B) w e w1 :
  m w = (Throw e, w1) -> bind m k w = (Throw e, w1).
Proof. intros H. unfold bind. rewrite H. reflexivity. Qed.

Lemma includes_unfold needle s :
  includes needle s =
  (String.prefix needle s ||
   match s with
   | EmptyString => false
   | String _ s' => includes needle s'
   end)%bool.
Proof. destruct s; reflexivity. Qed.



Section Attempts.

Context {engine : Engine} {service : Service}.

Lemma run_messages p prompt schema w :
  messages (trace (snd (run p prompt schema w))) = messages (trace w) ++ [prompt].
Proof.
  unfold run, bind, getSession.
  destruct (chat (session p w)) as [c|]; unfold sendMessage; simpl;
    destruct (reply _); simpl;
    repeat first [rewrite trace_with_session | rewrite trace_record | rewrite messages_app];
    simpl; rewrite ?app_nil_r, <- ?app_assoc; reflexivity.
Qed.

Variables ctz res dest purp : string.
Variable onProgress : bool.

(** What follows the answer of the consultant in an attempt sends no
    further message. *)
Lemma attempt_tail_quiet (r : option string * Response) :
  grows 0
    (let '(t, raw) := r in
     data <- parse (text_or t "{}") ;;
     declared <- lift (get data "sources") ;;
     jsonSources <- lift (spread_elements (or_else declared (VArr [] []))) ;;
     srcs <- lift (reconcile jsonSources (metadata_sources raw)) ;;
     notify onProgress "Verifying Accuracy (AI Auditor)..." ;;;
     v <- match t with
          | Some content => evaluateOutput content criteria
          | None => throw (TypeError "Cannot read properties of undefined (reading 'substring')")
          end ;;
     v' <- lift (guardrail srcs v) ;;
     ret {| att_data := data; att_sources := srcs; att_verification := v' |}).
Proof.
  destruct r as [t raw].
  apply grows_bind_l; [apply grows_parse|]. intros data.
  apply grows_bind_l; [apply grows_lift|]. intros declared.
  apply grows_bind_l; [apply grows_lift|]. intros jsonSources.
  apply grows_bind_l; [apply grows_lift|]. intros srcs.
  apply grows_bind_l; [apply grows_notify|]. intros _.
  apply grows_bind_l.
  { destruct t; [apply grows_evaluateOutput | apply grows_throw]. }
  intros v. apply grows_bind_l; [apply grows_lift|]. intros v'. apply grows_ret.
Qed.

(** The one message of an attempt: the question on the first, the
    critique of the previous verification on the others. *)
Lemma attempt_messages n previous w :
  messages (trace (snd (attempt ctz res dest purp onProgress n previous w))) =
  messages (trace w) ++
    (if Nat.ltb 0 n then
       match get previous "reasoning" with
       | Ok r => [retry_prompt r]
       | _ => []
       end
     else [initial_prompt ctz res dest purp (getFullYear (trace w))]).
Proof.
  unfold attempt.
  rewrite (bind_Ok (fun w0 : World => (Ok (getFullYear (trace w0)), w0)) _ w
             (getFullYear (trace w)) w eq_refl).
  destruct (Nat.ltb 0 n).
  - set (stage := ("Self-Correcting (Attempt " ++ _ ++ ")...")%string).
    pose proof (quiet_messages _ w (grows_notify onProgress stage)) as Hn.
    destruct (get previous "reasoning") as [r | e |] eqn:Hr.
    + rewrite (bind_Ok _ _ w (retry_prompt r) (snd (notify onProgress stage w))).
      * rewrite messages_bind_quiet by apply attempt_tail_quiet.
        rewrite run_messages, Hn. reflexivity.
      * unfold bind, notify. destruct onProgress; reflexivity.
    + rewrite (bind_Throw _ _ w e (snd (notify onProgress stage w))).
      * simpl snd. rewrite Hn, app_nil_r. reflexivity.
      * unfold bind, notify. destruct onProgress; reflexivity.
    + assert (Hm : forall B (k : string -> M B),
                 snd (bind (notify onProgress stage ;;;
                            reasoning <- lift (@OutOfFuel value) ;;
                            ret (retry_prompt reasoning)) k w)
                 = snd (notify onProgress stage w))
        by (intros; unfold bind, notify; destruct onProgress; reflexivity).
      rewrite Hm, Hn, app_nil_r. reflexivity.
  - set (stage := "Consulting Official Sources..."%string).
    pose proof (quiet_messages _ w (grows_notify onProgress stage)) as Hn.
    rewrite (bind_Ok _ _ w (initial_prompt ctz res dest purp (getFullYear (trace w)))
               (snd (notify onProgress stage w))).
    + rewrite messages_bind_quiet by apply attempt_tail_quiet.
      rewrite run_messages, Hn. reflexivity.
    + unfold bind, notify. destruct onProgress; reflexivity.
Qed.


(** An attempt that completes was audited, and with a source in hand
    its verification is what the auditor answered. *)
Lemma attempt_audited n previous w a w1 :
  attempt ctz res dest purp onProgress n previous w = (Ok a, w1) ->
  exists content w2 v,
    evaluateOutput content criteria w2 = (Ok v, w1) /\
    guardrail (att_sources a) v = Ok (att_verification a).
Proof.
  unfold attempt. intros H.
  inv_bind H as year wa Hyear.
  inv_bind H as prompt wb Hprompt.
  inv_bind H as r wc Hrun. destruct r as [t raw].
  inv_bind H as data wd Hdata.
  inv_bind H as declared we Hdeclared.
  inv_bind H as jsonSources wf Hspread.
  inv_bind H as srcs wg Hsrcs.
  inv_bind H as u wh Hnotify.
  inv_bind H as v wi Heval.
  inv_bind H as v' wj Hguard.
  apply lift_Ok_inv in Hguard. destruct Hguard as [Hguard ->].
  unfold ret in H. inversion H; subst; clear H. simpl.
  destruct t as [content|]; [|discriminate].
  exists content, wh, v. split; assumption.
Qed.

(** X11: when the record [searchVisaInfo] returns has a source, its
    verification is the verdict of the auditor as parsed, untouched:
    the call ends with that audit, and the guardrail has changed
    nothing. *)
Theorem sourced_record_carries_the_auditor_verdict :
  forall (w w' : World) (p : VisaPolicy),
    searchVisaInfo ctz res dest purp onProgress w = (Ok p, w') ->
    sources p <> [] ->
    exists content w1,
      evaluateOutput content criteria w1 = (Ok (verification p), w').
Proof.
  intros w w' p H Hsome.
  destruct (searchVisaInfo_ends_with_an_attempt _ _ _ _ _ _ _ _ H)
    as (n & previous & w1 & a & Hatt & Hp).
  destruct (policy_of_inv _ _ _ _ _ _ _ _ Hp) as (_ & _ & _ & _ & _ & _ & _ & _ & _ & Hs & Hv).
  destruct (attempt_audited _ _ _ _ _ Hatt) as (content & w2 & v & Heval & Hg).
  rewrite Hs in Hsome. unfold guardrail in Hg.
  destruct (att_sources a) as [|s l]; [contradiction|]. simpl in Hg.
  assert (Hsame : v = att_verification a) by congruence.
  exists content, w2. rewrite Hv, <- Hsame. exact Heval.
Qed.

End Attempts.

(* ================================================================== *)
(** * When the service fails or has nothing to say *)
(* ================================================================== *)

Section Outage.

Context {engine : Engine} {service : Service}.

Variable e : error.
Hypothesis down : forall tr, reply tr = Failure e.

Lemma run_fails p prompt schema w :
  exists w1, run p prompt schema w = (Throw e, w1).
Proof.
  unfold run, bind, getSession.
  destruct (chat (session p w)); unfold sendMessage; simpl; rewrite down; eexists; reflexivity.
Qed.

Lemma generateContent_fails req w :
  generateContent req w = (Throw e, record (GenerateContent req) w).
Proof. unfold generateContent. rewrite down. reflexivity. Qed.

Lemma first_attempt_fails ctz res dest purp onProgress previous w :
  exists w1, attempt ctz res dest purp onProgress 0 previous w = (Throw e, w1).
Proof.
  unfold attempt.
  rewrite (bind_Ok (fun w0 : World => (Ok (getFullYear (trace w0)), w0)) _ w
             (getFullYear (trace w)) w eq_refl).
  change (Nat.ltb 0 0) with false. cbv iota.
  set (stage := "Consulting Official Sources..."%string).
  rewrite (bind_Ok _ _ w (initial_prompt ctz res dest purp (getFullYear (trace w)))
             (snd (notify onProgress stage w)))
    by (unfold bind, notify; destruct onProgress; reflexivity).
  destruct (run_fails visaConsultant
              (initial_prompt ctz res dest purp (getFullYear (trace w)))
              (Some policy_schema) (snd (notify onProgress stage w))) as [w1 Hrun].
  exists w1. apply bind_Throw. exact Hrun.
Qed.

(** X12: a failure of the service reaches the caller of every exported
    function as the exception the service raised.  The search does not
    try again: it has sent its first question and nothing else. *)
Theorem service_failure_reaches_the_caller :
  forall (ctz res dest purp : string) (onProgress : bool) (policy : VisaPolicy)
         (template : string) (data : list (string * value))
         (image mime content rubric : string) (w : World),
    fst (getCommonVisaPurposes ctz dest w) = Throw e /\
    fst (getTravelAdvisory dest w) = Throw e /\
    fst (generateDocumentChecklist policy w) = Throw e /\
    fst (generateVisaDocument template data w) = Throw e /\
    fst (parsePassportImage image mime w) = Throw e /\
    fst (evaluateOutput content rubric w) = Throw e /\
    fst (searchVisaInfo ctz res dest purp onProgress w) = Throw e /\
    messages (trace (snd (searchVisaInfo ctz res dest purp onProgress w)))
      = messages (trace w) ++ [initial_prompt ctz res dest purp (getFullYear (trace w))].
Proof.
  intros.
  split.
  { unfold getCommonVisaPurposes.
    rewrite (bind_Ok _ _ w tt (snd (clearSession visaConsultant w)) eq_refl).
    destruct (run_fails visaConsultant
                ("Suggest 5 common visa purposes for a " ++ ctz
                   ++ " citizen visiting " ++ dest ++ ". Return JSON only.")%string
                (Some purposes_schema) (snd (clearSession visaConsultant w))) as [w1 H].
    rewrite (bind_Throw _ _ _ _ _ H). reflexivity. }
  split.
  { unfold getTravelAdvisory.
    rewrite (bind_Ok _ _ w tt (snd (clearSession travelGuide w)) eq_refl).
    destruct (run_fails travelGuide
                ("Give me 3 critical safety or cultural etiquette tips for a tourist visiting "
                   ++ dest ++ ".")%string
                (Some advisory_schema) (snd (clearSession travelGuide w))) as [w1 H].
    rewrite (bind_Throw _ _ _ _ _ H). reflexivity. }
  split.
  { unfold generateDocumentChecklist.
    match goal with
    | |- fst (bind (run ?p ?q ?s) _ _) = _ => destruct (run_fails p q s w) as [w1 H]
    end.
    rewrite (bind_Throw _ _ _ _ _ H). reflexivity. }
  split.
  { unfold generateVisaDocument.
    match goal with
    | |- fst (bind (run ?p ?q ?s) _ _) = _ => destruct (run_fails p q s w) as [w1 H]
    end.
    rewrite (bind_Throw _ _ _ _ _ H). reflexivity. }
  split.
  { unfold parsePassportImage.
    rewrite (bind_Throw _ _ _ _ _ (generateContent_fails _ w)). reflexivity. }
  split.
  { unfold evaluateOutput.
    rewrite (bind_Throw _ _ _ _ _ (generateContent_fails _ w)). reflexivity. }
  set (wc := snd (clearSession visaConsultant w)).
  destruct (first_attempt_fails ctz res dest purp onProgress
              (current_verification loop_start) wc) as [wa Ha].
  assert (Hbody :
    (clearSession visaConsultant ;;;
     st <- search_loop (S MAX_RETRIES) ctz res dest purp onProgress loop_start ;;
     lift (policy_of ctz res dest purp (currentData st) (currentSources st)
             (current_verification st))) w = (Throw e, wa)).
  { rewrite (bind_Ok (clearSession visaConsultant) _ w tt wc eq_refl).
    apply bind_Throw. rewrite search_loop_unfold.
    change (Nat.leb (attempts loop_start) MAX_RETRIES) with true. cbv iota.
    apply bind_Throw. exact Ha. }
  unfold searchVisaInfo, searchVisaInfo_with, try_catch. rewrite Hbody.
  split; [reflexivity|].
  unfold bind, emit, throw. simpl. rewrite messages_app. simpl. rewrite app_nil_r.
  replace wa with (snd (attempt ctz res dest purp onProgress 0
                          (current_verification loop_start) wc)) by (rewrite Ha; reflexivity).
  rewrite attempt_messages. unfold wc. rewrite trace_cleared. reflexivity.
Qed.

End Outage.

Lemma collect_unique_objects all :
  Forall (fun s => exists props, s = VObj props) all ->
  forall m, exists m', collect_unique all m = Ok m'.
Proof.
  induction 1 as [|s rest [props ->] _ IH]; intros m; simpl; [eauto|].
  destruct (truthy (lookup "uri" props) && negb (map_has (lookup "uri" props) m)); apply IH.
Qed.

Lemma metadata_sources_objects raw :
  Forall (fun s => exists props, s = VObj props) (metadata_sources raw).
Proof.
  unfold metadata_sources. destruct (grounding_chunks raw) as [chunks|]; [|constructor].
  induction chunks as [|c chunks IH]; simpl; [constructor|].
  destruct (web c); simpl; [constructor; eauto | exact IH].
Qed.

Lemma reconcile_metadata raw : exists out, reconcile [] (metadata_sources raw) = Ok out.
Proof.
  unfold reconcile. simpl.
  destruct (collect_unique_objects _ (metadata_sources_objects raw) []) as [m Hm].
  rewrite Hm. eauto.
Qed.

Section Silence.

Context {engine : Engine} {service : Service}.

Variable r : Response.
Hypothesis answers : forall tr, reply tr = Answer r.
Hypothesis no_text : text r = None.
Hypothesis parse_array : JSON_parse "[]" = Some (VArr [] []).
Hypothesis parse_object : JSON_parse "{}" = Some (VObj []).

Lemma run_without_text p prompt schema w :
  exists w1, run p prompt schema w = (Ok (None, r), w1).
Proof.
  unfold run, bind, getSession.
  destruct (chat (session p w)); unfold sendMessage; simpl; rewrite answers; simpl;
    unfold ret; rewrite no_text; eexists; reflexivity.
Qed.

Lemma parse_empty_array w : parse (text_or None "[]") w = (Ok (VArr [] []), w).
Proof. unfold parse, text_or. rewrite parse_array. reflexivity. Qed.

Lemma first_attempt_without_text ctz res dest purp onProgress previous w :
  exists w1,
    attempt ctz res dest purp onProgress 0 previous w
      = (Throw (TypeError "Cannot read properties of undefined (reading 'substring')"), w1).
Proof.
  unfold attempt.
  rewrite (bind_Ok (fun w0 : World => (Ok (getFullYear (trace w0)), w0)) _ w
             (getFullYear (trace w)) w eq_refl).
  change (Nat.ltb 0 0) with false. cbv iota.
  set (stage := "Consulting Official Sources..."%string).
  rewrite (bind_Ok _ _ w (initial_prompt ctz res dest purp (getFullYear (trace w)))
             (snd (notify onProgress stage w)))
    by (unfold bind, notify; destruct onProgress; reflexivity).
  destruct (run_without_text visaConsultant
              (initial_prompt ctz res dest purp (getFullYear (trace w)))
              (Some policy_schema) (snd (notify onProgress stage w))) as [w1 Hrun].
  rewrite (bind_Ok _ _ _ _ _ Hrun). cbv beta iota.
  rewrite (bind_Ok _ _ w1 (VObj []) w1)
    by (unfold parse, text_or; rewrite parse_object; reflexivity).
  rewrite (bind_Ok (lift (get (VObj []) "sources")) _ w1 VUndefined w1 eq_refl).
  rewrite (bind_Ok (lift (spread_elements (or_else VUndefined (VArr [] [])))) _ w1 [] w1 eq_refl).
  destruct (reconcile_metadata r) as [out Hout].
  rewrite (bind_Ok _ _ w1 out w1) by (unfold lift; rewrite Hout; reflexivity).
  set (audit := "Verifying Accuracy (AI Auditor)..."%string).
  rewrite (bind_Ok _ _ w1 tt (snd (notify onProgress audit w1)))
    by (unfold notify; destruct onProgress; reflexivity).
  eexists. reflexivity.
Qed.

(** X13: when the service answers without any text, the purposes, the
    advisory and the checklist come back as empty lists and the
    document as [undefined]; the passport reader reports that nothing
    could be extracted; the search throws a [TypeError] from its first
    attempt, where it hands the missing text to the auditor. *)
Theorem response_without_text :
  forall (ctz res dest purp : string) (onProgress : bool) (policy : VisaPolicy)
         (template : string) (data : list (string * value))
         (image mime : string) (w : World),
    fst (getCommonVisaPurposes ctz dest w) = Ok (VArr [] []) /\
    fst (getTravelAdvisory dest w) = Ok (VArr [] []) /\
    fst (generateDocumentChecklist policy w) = Ok (VArr [] []) /\
    fst (generateVisaDocument template data w) = Ok None /\
    fst (parsePassportImage image mime w) = Throw extraction_failed /\
    fst (searchVisaInfo ctz res dest purp onProgress w)
      = Throw (TypeError "Cannot read properties of undefined (reading 'substring')").
Proof.
  intros.
  split.
  { unfold getCommonVisaPurposes.
    rewrite (bind_Ok _ _ w tt (snd (clearSession visaConsultant w)) eq_refl).
    match goal with
    | |- fst (bind (run ?p ?q ?s) _ ?w0) = _ => destruct (run_without_text p q s w0) as [w1 H]
    end.
    rewrite (bind_Ok _ _ _ _ _ H). simpl fst. rewrite parse_empty_array. reflexivity. }
  split.
  { unfold getTravelAdvisory.
    rewrite (bind_Ok _ _ w tt (snd (clearSession travelGuide w)) eq_refl).
    match goal with
    | |- fst (bind (run ?p ?q ?s) _ ?w0) = _ => destruct (run_without_text p q s w0) as [w1 H]
    end.
    rewrite (bind_Ok _ _ _ _ _ H). simpl fst. rewrite parse_empty_array. reflexivity. }
  split.
  { unfold generateDocumentChecklist.
    match goal with
    | |- fst (bind (run ?p ?q ?s) _ ?w0) = _ => destruct (run_without_text p q s w0) as [w1 H]
    end.
    rewrite (bind_Ok _ _ _ _ _ H). simpl fst.
    rewrite (bind_Ok _ _ _ _ _ (parse_empty_array w1)). reflexivity. }
  split.
  { unfold generateVisaDocument.
    match goal with
    | |- fst (bind (run ?p ?q ?s) _ ?w0) = _ => destruct (run_without_text p q s w0) as [w1 H]
    end.
    rewrite (bind_Ok _ _ _ _ _ H). reflexivity. }
  split.
  { unfold parsePassportImage.
    rewrite (bind_Ok _ _ w r (record (GenerateContent (passport_request image mime)) w))
      by (unfold generateContent; rewrite answers; reflexivity).
    rewrite no_text.
    rewrite (passport_result_spec None (VObj [])); [reflexivity | | discriminate | discriminate].
    exact parse_object. }
  set (wc := snd (clearSession visaConsultant w)).
  destruct (first_attempt_without_text ctz res dest purp onProgress
              (current_verification loop_start) wc) as [wa Ha].
  unfold searchVisaInfo, searchVisaInfo_with, try_catch.
  rewrite (bind_Ok (clearSession visaConsultant) _ w tt wc eq_refl).
  rewrite (bind_Throw _ _ wc
             (TypeError "Cannot read properties of undefined (reading 'substring')") wa);
    [reflexivity|].
  rewrite search_loop_unfold.
  change (Nat.leb (attempts loop_start) MAX_RETRIES) with true. cbv iota.
  apply bind_Throw. exact Ha.
Qed.

End Silence.

(* ================================================================== *)
(** * The reconciler of the second copy, and the fences of the passport reader *)
(* ================================================================== *)

Lemma map_get_set u k v m :
  map_get u (CoreServices.map_set k v m) = if same_key k u then Some v else map_get u m.
Proof.
  unfold map_get. induction m as [|[k' v'] rest IH]; simpl.
  - destruct (same_key k u); reflexivity.
  - destruct (same_key k' k) eqn:Hk; simpl.
    + rewrite (same_key_trans _ _ u Hk). destruct (same_key k u); reflexivity.
    + destruct (same_key k' u) eqn:Hu; simpl.
      * destruct (same_key k u) eqn:Hku; [|reflexivity].
        rewrite (same_key_trans _ _ k Hu), same_key_sym, Hku in Hk. discriminate.
      * exact IH.
Qed.

Lemma map_get_snoc u l e :
  map_get u (l ++ [e]) =
  match map_get u l with
  | Some v => Some v
  | None => if same_key (fst e) u then Some (snd e) else None
  end.
Proof.
  unfold map_get. induction l as [|x l IH]; simpl.
  - destruct (same_key (fst e) u); reflexivity.
  - destruct (same_key (fst x) u); [reflexivity | exact IH].
Qed.

Lemma map_get_new_Map u pairs :
  forall m,
    map_get u (fold_left (fun m e => CoreServices.map_set (fst e) (snd e) m) pairs m) =
    match map_get u (rev pairs) with
    | Some v => Some v
    | None => map_get u m
    end.
Proof.
  induction pairs as [|e pairs IH]; intros m; simpl; [reflexivity|].
  rewrite IH, map_get_snoc, map_get_set.
  destruct (map_get u (rev pairs)); [reflexivity|].
  destruct (same_key (fst e) u); reflexivity.
Qed.

Lemma map_get_values u m :
  Forall linked m -> first_with u (map snd m) = map_get u m.
Proof.
  unfold first_with, map_get. induction 1 as [|e m He _ IH]; simpl; [reflexivity|].
  rewrite (linked_key _ u He). destruct (same_key (fst e) u); [reflexivity | exact IH].
Qed.

Lemma keyed_pairs all :
  forall pairs, CoreServices.keyed all = Ok pairs -> pairs = map (fun s => (uri_of s, s)) all.
Proof.
  induction all as [|s rest IH]; intros pairs H; simpl in H.
  - inversion H. reflexivity.
  - destruct (get s "uri") as [u | e |] eqn:Hu; try discriminate.
    destruct (CoreServices.keyed rest) as [l | e |]; try discriminate.
    inversion H; subst. simpl. rewrite (uri_of_get _ _ Hu), (IH l eq_refl). reflexivity.
Qed.

Lemma map_get_keyed u l :
  map_get u (map (fun s => (uri_of s, s)) l) = first_with u l.
Proof.
  unfold map_get, first_with. induction l as [|s l IH]; simpl; [reflexivity|].
  destruct (same_key (uri_of s) u); [reflexivity | exact IH].
Qed.

(** X14: asked for a URI, the list the second copy reconciles answers
    with the last source that carries it among the explicit sources
    followed by the grounding metadata: where both name a URI, the
    entry of the metadata replaces the explicit one. *)
Theorem second_copy_reconcile_answers_with_the_last_occurrence :
  forall (explicit implicit merged : list value) (u : value),
    CoreServices.reconcile explicit implicit = Ok merged ->
    first_with u merged = last_with u (explicit ++ implicit).
Proof.
  intros js ms out u H. unfold CoreServices.reconcile in H.
  destruct (CoreServices.keyed (js ++ ms)) as [pairs | e |] eqn:Hk; try discriminate.
  inversion H; subst. unfold CoreServices.new_Map.
  pose proof (keyed_linked _ _ Hk) as Hl.
  destruct (new_Map_keeps pairs Hl [] (Forall_nil _) (FOP_nil _)) as [Hlinked _].
  rewrite (map_get_values _ _ Hlinked), map_get_new_Map.
  rewrite (keyed_pairs _ _ Hk), <- map_rev, map_get_keyed.
  unfold last_with. destruct (first_with u (rev (js ++ ms))); reflexivity.
Qed.

Section Fences.

Context {engine : Engine} {service : Service}.

(** X15: a passport read that comes wrapped in a Markdown code fence,
    tagged [json] or not, is read as the JSON inside the fence. *)
Theorem parsePassportImage_reads_through_code_fences :
  forall (image mime : string) (w : World) (r : Response) (body : string) (result : value),
    reply (trace w ++ [GenerateContent (passport_request image mime)]) = Answer r ->
    text r = Some (fence ++ "json" ++ nl ++ body ++ nl ++ fence)%string \/
    text r = Some (fence ++ nl ++ body ++ nl ++ fence)%string ->
    JSON_parse body = Some result ->
    result <> VNull ->
    result <> VUndefined ->
    fst (parsePassportImage image mime w) =
    if truthy (field result "passportNumber") || truthy (field result "fullName")
    then Ok (identity_of result)
    else Throw extraction_failed.
Proof.
  intros image mime w r body result Hr Ht Hp Hn Hu.
  unfold parsePassportImage.
  rewrite (bind_Ok _ _ _ _ _ (generateContent_answer _ _ _ Hr)).
  assert (Hc : cleaned_text (text r) = body).
  { destruct (cleaned_text_strips_fences body) as [H1 H2].
    destruct Ht as [-> | ->]; assumption. }
  rewrite (passport_result_spec (text r) result); [| rewrite Hc; exact Hp | exact Hn | exact Hu].
  destruct (truthy (field result "passportNumber") || truthy (field result "fullName"));
    reflexivity.
Qed.

End Fences.

(* ================================================================== *)
(** * The components: checklist, profile and form *)
(* ================================================================== *)

Lemma find_app {A} (f : A -> bool) l1 l2 :
  find f (l1 ++ l2) = match find f l1 with Some x => Some x | None => find f l2 end.
Proof.
  induction l1 as [|x l1 IH]; simpl; [reflexivity|].
  destruct (f x); [reflexivity | exact IH].
Qed.

Lemma lookup_define k k' v props :
  lookup k (define k' v props) = if String.eqb k k' then v else lookup k props.
Proof.
  destruct (String.eqb k k') eqn:H.
  - apply String.eqb_eq in H. subst. apply lookup_define_same.
  - apply lookup_define_other. exact H.
Qed.

Lemma assigned_cons k f fields :
  assigned k (f :: fields) =
  match assigned k fields with
  | Some v => Some v
  | None => if String.eqb k (fst f) then Some (snd f) else None
  end.
Proof.
  unfold assigned. simpl. rewrite find_app. simpl.
  destruct (find _ (rev fields)); simpl; [reflexivity|].
  destruct (String.eqb k (fst f)); reflexivity.
Qed.

(** Reading a key of an object literal: the last property written for
    the key, or what the object spread into it had. *)
Lemma lookup_assign k fields :
  forall into,
    lookup k (assign fields into) =
    match assigned k fields with
    | Some v => v
    | None => lookup k into
    end.
Proof.
  induction fields as [|f fields IH]; intros into; [reflexivity|].
  unfold assign in *. simpl. rewrite IH, assigned_cons, lookup_define.
  destruct (assigned k fields); [reflexivity|].
  destruct (String.eqb k (fst f)); reflexivity.
Qed.

Lemma define_define k v v' props :
  define k v (define k v' props) = define k v props.
Proof.
  induction props as [|[k' x] rest IH]; simpl.
  - rewrite String.eqb_refl. reflexivity.
  - destruct (String.eqb k k') eqn:H; simpl.
    + rewrite String.eqb_refl. reflexivity.
    + rewrite H, IH. reflexivity.
Qed.

Lemma each_Forall2 f prev :
  forall next, App.each f prev = Ok next -> Forall2 (fun a b => f a = Ok b) prev next.
Proof.
  induction prev as [|a prev IH]; intros next H; simpl in H.
  - inversion H. constructor.
  - destruct (f a) as [b | e |] eqn:Ha; try discriminate.
    destruct (App.each f prev) as [rest | e |]; try discriminate.
    inversion H; subst. constructor; [exact Ha | apply IH; reflexivity].
Qed.

Lemma toggled_inv id item item' :
  App.toggled id item = Ok item' ->
  if equals_string (field item "id") id then flipped item item' else item' = item.
Proof.
  unfold App.toggled, flipped, field.
  destruct (get item "id") as [i | e |] eqn:Hi; try discriminate.
  destruct (equals_string i id); [|intros H; inversion H; reflexivity].
  destruct (get item "completed") as [c | e |] eqn:Hc; try discriminate.
  intros H. inversion H; subst. split.
  - simpl. rewrite lookup_define_same. reflexivity.
  - intros k Hk. simpl. rewrite (lookup_define_other _ _ _ _ Hk). reflexivity.
Qed.

(** X16: ticking an entry of the checklist keeps the list as long as
    it was, negates the [completed] flag of every item whose [id] is
    the one ticked, leaving their other properties alone, and leaves
    every other item exactly as it was. *)
Theorem toggleChecklistItem_flips_the_items_of_that_id :
  forall (id : string) (prev next : list value),
    App.toggleChecklistItem id prev = Ok next ->
    Forall2 (fun item item' =>
               if equals_string (field item "id") id
               then flipped item item'
               else item' = item) prev next.
Proof.
  intros id prev next H. apply each_Forall2 in H.
  eapply Forall2_impl; [|exact H]. intros a b. apply toggled_inv.
Qed.

Lemma toggled_new_item id x :
  exists once,
    App.toggled id (new_item x) = Ok once /\ App.toggled id once = Ok (new_item x).
Proof.
  unfold App.toggled, new_item. simpl.
  rewrite (lookup_define_other "id" "completed" _ _ eq_refl).
  destruct (equals_string (lookup "id" (own_properties x)) id) eqn:Hid.
  - rewrite lookup_define_same. eexists. split; [reflexivity|]. simpl.
    rewrite (lookup_define_other "id" "completed" _ _ eq_refl).
    rewrite (lookup_define_other "id" "completed" _ _ eq_refl), Hid.
    rewrite lookup_define_same. simpl. rewrite !define_define. reflexivity.
  - eexists. split; [reflexivity|]. simpl.
    rewrite (lookup_define_other "id" "completed" _ _ eq_refl), Hid. reflexivity.
Qed.

Lemma toggle_new_items id elems :
  exists once,
    App.toggleChecklistItem id (map new_item elems) = Ok once /\
    App.toggleChecklistItem id once = Ok (map new_item elems).
Proof.
  unfold App.toggleChecklistItem. induction elems as [|x elems (rest & H1 & H2)].
  - exists []. split; reflexivity.
  - destruct (toggled_new_item id x) as (y & Hy1 & Hy2).
    exists (y :: rest). cbn [map App.each]. rewrite Hy1, H1. split; [reflexivity|].
    cbn [App.each]. rewrite Hy2, H2. reflexivity.
Qed.

Section Checklist_round_trip.

Context {engine : Engine} {service : Service}.

(** X17: on a checklist as [generateDocumentChecklist] returns it,
    ticking an entry never fails, and ticking the same entry a second
    time gives back the checklist as it was. *)
Theorem ticking_twice_restores_a_generated_checklist :
  forall (policy : VisaPolicy) (w w' : World) (checklist : value),
    generateDocumentChecklist policy w = (Ok checklist, w') ->
    exists items,
      checklist = VArr items [] /\
      forall id, exists once,
        App.toggleChecklistItem id items = Ok once /\
        App.toggleChecklistItem id once = Ok items.
Proof.
  intros policy w w' checklist H. unfold generateDocumentChecklist in H.
  inv_bind H as r w1 Hrun.
  inv_bind H as parsed w2 Hparse.
  apply lift_Ok_inv in H. destruct H as [H _].
  destruct (array_map_inv _ _ _ H) as (elems & extra & _ & Hv).
  exists (map new_item elems). split; [exact Hv|].
  intros id. apply toggle_new_items.
Qed.

End Checklist_round_trip.

(** X18: after an update of the profile, a key that the update names
    holds the value the update gives it, and every other key holds
    what it held before. *)
Theorem handleUpdateProfile_lets_the_update_win :
  forall (updates prev : value) (k : string),
    get (App.handleUpdateProfile updates prev) k =
    Ok (match assigned k (own_properties updates) with
        | Some v => v
        | None => lookup k (own_properties prev)
        end).
Proof.
  intros. unfold App.handleUpdateProfile. simpl. rewrite lookup_assign. reflexivity.
Qed.

(* ================================================================== *)
(** * The components: form, scanner and result panel *)
(* ================================================================== *)

Lemma or_else_idem a b : or_else a (or_else a b) = or_else a b.
Proof. unfold or_else. destruct (truthy a); reflexivity. Qed.

Lemma or_else_left a b : truthy a = true -> or_else a b = a.
Proof. intros H. unfold or_else. rewrite H. reflexivity. Qed.

Lemma keys_define k k' v props :
  In k (map fst (define k' v props)) <-> k = k' \/ In k (map fst props).
Proof.
  induction props as [|[x y] rest IH]; simpl.
  - intuition.
  - destruct (String.eqb k' x) eqn:H; simpl.
    + apply String.eqb_eq in H. subst. intuition.
    + rewrite IH. intuition.
Qed.

Lemma keys_assign k fields :
  forall into,
    In k (map fst fields) \/ In k (map fst into) -> In k (map fst (assign fields into)).
Proof.
  unfold assign. induction fields as [|f fields IH]; intros into H; simpl in *.
  - destruct H as [[] | H]; exact H.
  - apply IH. rewrite keys_define. intuition.
Qed.

Lemma define_settled k v props :
  In k (map fst props) -> lookup k props = v -> define k v props = props.
Proof.
  induction props as [|[x y] rest IH]; simpl; intros Hin Hv; [contradiction|].
  destruct (String.eqb k x) eqn:H.
  - apply String.eqb_eq in H. subst. reflexivity.
  - rewrite IH; [reflexivity | | exact Hv].
    destruct Hin as [Hx | Hin]; [|exact Hin].
    subst. rewrite String.eqb_refl in H. discriminate.
Qed.

Lemma assign_settled fields into :
  Forall (fun kv => In (fst kv) (map fst into) /\ lookup (fst kv) into = snd kv) fields ->
  assign fields into = into.
Proof.
  unfold assign. induction 1 as [|f fields [Hin Hv] _ IH]; simpl; [reflexivity|].
  rewrite (define_settled _ _ _ Hin Hv). exact IH.
Qed.

Ltac which_key k :=
  repeat match goal with
         | |- context [String.eqb k ?s] =>
             let E := fresh "E" in
             destruct (String.eqb k s) eqn:E;
             [apply String.eqb_eq in E; subst k | ]
         end.

(** X19: the autofill of the document form never empties a field:
    whatever the profile and the policy hold or lack, a field of the
    form that held something still holds something afterwards. *)
Theorem autofill_never_blanks_a_field :
  forall (userProfile : value) (policy : option VisaPolicy)
         (prev : list (string * value)) (k : string),
    filled k prev ->
    filled k (DocBuilder.autofill userProfile policy prev).
Proof.
  unfold filled, DocBuilder.autofill. intros userProfile policy prev k H.
  rewrite lookup_assign. unfold assigned. cbn [rev app find fst snd option_map].
  which_key k; cbn [option_map snd]; try (apply or_else_truthy; exact H).
  exact H.
Qed.

Ltac settled :=
  match goal with
  | |- lookup _ ?A = _ =>
      unfold A, DocBuilder.autofill; rewrite lookup_assign; reflexivity
  end.

(** X20: running the autofill a second time with the same profile and
    policy changes nothing: the form it leaves is a fixed point. *)
Theorem autofill_is_idempotent :
  forall (userProfile : value) (policy : option VisaPolicy) (prev : list (string * value)),
    DocBuilder.autofill userProfile policy (DocBuilder.autofill userProfile policy prev)
      = DocBuilder.autofill userProfile policy prev.
Proof.
  intros userProfile policy prev.
  set (A := DocBuilder.autofill userProfile policy prev).
  set (country_of := match policy with Some p => VStr (country p) | None => VUndefined end).
  set (purpose_of := match policy with Some p => VStr (purpose p) | None => VUndefined end).
  assert (H1 : lookup "name" A
               = or_else (optional_get userProfile "fullName") (lookup "name" prev))
    by settled.
  assert (H2 : lookup "passportNumber" A
               = or_else (optional_get userProfile "passportNumber")
                   (lookup "passportNumber" prev))
    by settled.
  assert (H3 : lookup "nationality" A
               = or_else (optional_get userProfile "citizenship") (lookup "nationality" prev))
    by settled.
  assert (H4 : lookup "dateOfBirth" A
               = or_else (optional_get userProfile "dateOfBirth") (lookup "dateOfBirth" prev))
    by settled.
  assert (H5 : lookup "passportExpiry" A
               = or_else (optional_get userProfile "passportExpiry")
                   (lookup "passportExpiry" prev))
    by settled.
  assert (H6 : lookup "address" A
               = or_else (optional_get userProfile "homeAddress") (lookup "address" prev))
    by settled.
  assert (H7 : lookup "email" A
               = or_else (optional_get userProfile "email") (lookup "email" prev))
    by settled.
  assert (H8 : lookup "phone" A
               = or_else (optional_get userProfile "phone") (lookup "phone" prev))
    by settled.
  assert (H9 : lookup "destination" A = or_else country_of (lookup "destination" prev))
    by settled.
  assert (H10 : lookup "purpose" A = or_else purpose_of (lookup "purpose" prev))
    by settled.
  unfold DocBuilder.autofill at 1. fold country_of purpose_of.
  rewrite H1, H2, H3, H4, H5, H6, H7, H8, H9, H10, !or_else_idem.
  apply assign_settled.
  repeat (constructor;
          [split; [apply keys_assign; left; simpl;
                   repeat first [left; reflexivity | right]
                 | assumption] |]).
  constructor.
Qed.

Lemma includes_comma c s :
  includes "," (String c s) = false -> Ascii.eqb c "," = false /\ includes "," s = false.
Proof.
  rewrite includes_unfold. intros H. apply orb_false_iff in H. destruct H as [Hp Hs].
  split; [|exact Hs].
  destruct (Ascii.eqb c ",") eqn:Hc; [|reflexivity].
  apply Ascii.eqb_eq in Hc. subst c.
  destruct s; simpl in Hp; destruct (ascii_dec "," ","); congruence.
Qed.

Lemma split_before_comma a b :
  includes "," a = false ->
  DocBuilder.split "," (a ++ String "," b)%string = a :: DocBuilder.split "," b.
Proof.
  induction a as [|c a IH]; intros H; [reflexivity|].
  destruct (includes_comma _ _ H) as [Hc Ha].
  simpl. rewrite Hc, (IH Ha). reflexivity.
Qed.

Lemma split_without_comma s : includes "," s = false -> DocBuilder.split "," s = [s].
Proof.
  induction s as [|c s IH]; intros H; [reflexivity|].
  destruct (includes_comma _ _ H) as [Hc Hs].
  simpl. rewrite Hc, (IH Hs). reflexivity.
Qed.

(** X21: from a data URL, a header and a payload joined by a comma
    with no comma inside either, the scanner takes exactly the
    payload. *)
Theorem base64String_is_the_payload_of_the_data_URL :
  forall (header payload : string),
    includes "," header = false ->
    includes "," payload = false ->
    DocBuilder.base64String (header ++ "," ++ payload)%string = Some payload.
Proof.
  intros header payload Hh Hp. unfold DocBuilder.base64String.
  change ("," ++ payload)%string with (String "," payload).
  rewrite (split_before_comma _ _ Hh), (split_without_comma _ Hp). reflexivity.
Qed.

Section Scanner.

Context {engine : Engine} {service : Service}.

Lemma passport_result_inv t w v w' :
  passport_result t w = (Ok v, w') ->
  exists result,
    v = identity_of result /\
    truthy (field result "passportNumber") || truthy (field result "fullName") = true.
Proof.
  intros H. pose proof H as H0. unfold passport_result in H.
  inv_bind H as result w1 Hparse.
  inv_bind H as number w2 Hnumber.
  apply lift_Ok_inv in Hnumber. destruct Hnumber as [Hnumber _].
  assert (Hn : result <> VNull) by (intros ->; discriminate).
  assert (Hu : result <> VUndefined) by (intros ->; discriminate).
  assert (Hp : JSON_parse (cleaned_text t) = Some result).
  { unfold parse in Hparse. destruct (JSON_parse (cleaned_text t)); [|discriminate].
    inversion Hparse. reflexivity. }
  rewrite (passport_result_spec _ _ _ Hp Hn Hu) in H0.
  destruct (truthy (field result "passportNumber") || truthy (field result "fullName")) eqn:Hsome;
    [|discriminate].
  inversion H0. exists result. split; [reflexivity | exact Hsome].
Qed.

(** X22: when a scan succeeds, the form it leaves has a name or a
    passport number, and no field that held something has been
    emptied. *)
Theorem scan_fills_name_or_passport_number :
  forall (base64 mimeType : string) (prev form : list (string * value)) (w w' : World),
    DocBuilder.scan base64 mimeType prev w = (Ok form, w') ->
    (filled "name" form \/ filled "passportNumber" form) /\
    (forall k, filled k prev -> filled k form).
Proof.
  intros base64 mimeType prev form w w' H. unfold DocBuilder.scan in H.
  inv_bind H as extracted w1 Hparse.
  unfold parsePassportImage in Hparse.
  inv_bind Hparse as response w0 Hgen.
  destruct (passport_result_inv _ _ _ _ Hparse) as (result & -> & Hsome).
  inv_bind H as fullName w2 H1. apply lift_Ok_inv in H1. destruct H1 as [H1 _].
  inv_bind H as passportNumber w3 H2. apply lift_Ok_inv in H2. destruct H2 as [H2 _].
  inv_bind H as ctz w4 H3.
  inv_bind H as dateOfBirth w5 H4.
  inv_bind H as passportExpiry w6 H5.
  unfold ret in H. inversion H; subst form; clear H.
  unfold identity_of in H1, H2. simpl in H1, H2.
  inversion H1; subst fullName. inversion H2; subst passportNumber.
  unfold filled. split.
  - apply orb_true_iff in Hsome. destruct Hsome as [Hnum | Hname]; [right | left];
      rewrite !lookup_define; cbn [String.eqb Ascii.eqb Bool.eqb];
      rewrite or_else_left by assumption; assumption.
  - intros k Hk. rewrite !lookup_define.
    which_key k; try (apply or_else_truthy; exact Hk).
    exact Hk.
Qed.

End Scanner.

(* ================================================================== *)
(** * From the search to the screen *)
(* ================================================================== *)

Lemma get_optional o k v : get o k = Ok v -> optional_get o k = v.
Proof. destruct o; simpl; intros H; inversion H; reflexivity. Qed.

Section Panel.

Context {engine : Engine} {service : Service}.

(** The panel calls a record high-confidence only if the loop would
    have accepted its verification. *)
Lemma high_confidence_is_accepted p :
  PolicyResults.isHighConfidence p = true -> accepted (verification p) = Ok true.
Proof.
  unfold PolicyResults.isHighConfidence, PolicyResults.evalScore, accepted, or_else.
  destruct (verification p) as [| | b | n | s | elems extra | props]; simpl;
    try discriminate;
    match goal with
    | |- context [truthy ?sc] =>
        destruct (truthy sc) eqn:Hsc; simpl; [intros ->; reflexivity | discriminate]
    end.
Qed.

Lemma notice_is_not_empty r : includes missing_sources_notice r = true -> truthy (VStr r) = true.
Proof. destruct r; [discriminate | reflexivity]. Qed.

(** X23: the panel shows the details of a search result without being
    asked to only when the verification of the record passes the
    acceptance test of the loop and the record names at least one
    source; no warning is shown then. *)
Theorem details_shown_unasked_are_accepted_and_sourced :
  forall (ctz res dest purp : string) (onProgress : bool) (w w' : World) (p : VisaPolicy)
         (warning : option value),
    searchVisaInfo ctz res dest purp onProgress w = (Ok p, w') ->
    PolicyResults.render p false = PolicyResults.Result warning true ->
    warning = None /\ accepted (verification p) = Ok true /\ sources p <> [].
Proof.
  intros ctz res dest purp onProgress w w' p warning H Hr.
  unfold PolicyResults.render, PolicyResults.showContent in Hr.
  destruct (PolicyResults.isCriticalFailure p); [discriminate|].
  destruct (PolicyResults.isHighConfidence p) eqn:Hh; simpl in Hr; [|discriminate].
  inversion Hr; subst. split; [reflexivity|].
  pose proof (high_confidence_is_accepted _ Hh) as Ha.
  split; [exact Ha|].
  intros Hnone.
  destruct (unsourced_record_is_penalized _ _ _ _ _ _ _ _ H Hnone) as (_ & _ & Hno).
  rewrite Ha in Hno. discriminate.
Qed.

(** X24: a search result without a single source is never shown as it
    is: the panel either blocks it, or shows it under the warning
    banner, whose text is the reasoning of the verification and ends
    with the notice about the missing links, and with its details
    hidden until the user asks for them. *)
Theorem unsourced_record_is_blocked_or_flagged :
  forall (ctz res dest purp : string) (onProgress : bool) (w w' : World) (p : VisaPolicy)
         (showPreliminaryDetails : bool),
    searchVisaInfo ctz res dest purp onProgress w = (Ok p, w') ->
    sources p = [] ->
    (exists score, PolicyResults.render p showPreliminaryDetails
                   = PolicyResults.DataUnavailable score) \/
    (exists r, PolicyResults.render p showPreliminaryDetails
               = PolicyResults.Result (Some (VStr r)) showPreliminaryDetails /\
               get (verification p) "reasoning" = Ok (VStr r) /\
               endsWith missing_sources_notice r = true).
Proof.
  intros ctz res dest purp onProgress w w' p shown H Hnone.
  destruct (unsourced_record_is_penalized _ _ _ _ _ _ _ _ H Hnone) as (_ & _ & Hno).
  destruct (unsourced_record_reasoning _ _ _ _ _ _ _ _ H Hnone) as (base & Hr).
  unfold PolicyResults.render, PolicyResults.showContent.
  destruct (PolicyResults.isCriticalFailure p); [left; eauto|].
  right. exists (base ++ missing_sources_notice)%string.
  split; [|split; [exact Hr | apply endsWith_append]].
  destruct (PolicyResults.isHighConfidence p) eqn:Hh.
  - rewrite (high_confidence_is_accepted _ Hh) in Hno. discriminate.
  - simpl. rewrite (get_optional _ _ _ Hr).
    rewrite (or_else_left _ _ (notice_is_not_empty _ (includes_append_r _ base))).
    reflexivity.
Qed.

Lemma total_getCommonVisaPurposes ctz dest : total (getCommonVisaPurposes ctz dest).
Proof.
  unfold getCommonVisaPurposes.
  apply total_bind; [intros w; discriminate|]. intros _.
  apply total_bind; [apply total_run|]. intros r. apply total_parse.
Qed.

(** X25: submitting the first step of the search form never throws.
    With a field left empty it does nothing at all, not even a request.
    Otherwise it asks for the purposes once, records citizenship and
    residency in the profile whether or not the request succeeds,
    and ends with the loading flag off: on the purpose step with the
    purposes found, or on the same step with an error message. *)
Theorem handleLocationSubmit_settles :
  forall (st : VisaSearch.State) (userProfile : value) (w : World),
    let asked :=
      getCommonVisaPurposes (VisaSearch.citizenship st) (VisaSearch.destination st) w in
    exists st' profile,
      VisaSearch.handleLocationSubmit st userProfile w
        = (Ok (st', profile), if VisaSearch.incomplete st then w else snd asked) /\
      if VisaSearch.incomplete st then st' = st /\ profile = userProfile
      else
        VisaSearch.isLoading st' = false /\
        get profile "citizenship" = Ok (VStr (VisaSearch.citizenship st)) /\
        get profile "residency" = Ok (VStr (VisaSearch.residency st)) /\
        (forall k, String.eqb k "citizenship" = false -> String.eqb k "residency" = false ->
                   get profile k = Ok (lookup k (own_properties userProfile))) /\
        match fst asked with
        | Ok found =>
            VisaSearch.step st' = VisaSearch.PURPOSE /\
            VisaSearch.purposes st' = found /\
            VisaSearch.error st' = ""%string
        | _ =>
            VisaSearch.step st' = VisaSearch.step st /\
            VisaSearch.purposes st' = VisaSearch.purposes st /\
            VisaSearch.error st'
              = "Could not determine visa types. Please verify country names."%string
        end.
Proof.
  intros st userProfile w asked. unfold VisaSearch.handleLocationSubmit.
  destruct (VisaSearch.incomplete st).
  { exists st, userProfile. split; [reflexivity | split; reflexivity]. }
  pose proof (total_getCommonVisaPurposes (VisaSearch.citizenship st)
                (VisaSearch.destination st) w) as Htotal.
  fold asked in Htotal.
  unfold bind, try_catch. fold asked.
  assert (Hprofile : forall q,
    get (App.handleUpdateProfile
           (VObj [("citizenship", VStr (VisaSearch.citizenship st));
                  ("residency", VStr (VisaSearch.residency st))]) userProfile) q
    = Ok (if String.eqb q "residency" then VStr (VisaSearch.residency st)
          else if String.eqb q "citizenship" then VStr (VisaSearch.citizenship st)
          else lookup q (own_properties userProfile))).
  { intros q. unfold App.handleUpdateProfile, get. rewrite lookup_assign.
    unfold assigned. cbn [own_properties rev app find fst snd option_map].
    destruct (String.eqb q "residency"); [reflexivity|].
    destruct (String.eqb q "citizenship"); reflexivity. }
  destruct asked as [[found | e |] w1]; [| |exfalso; apply Htotal; reflexivity];
    cbv beta iota; cbn [fst snd];
    eexists; eexists; (split; [reflexivity|]);
    (split; [reflexivity|]);
    (split; [rewrite Hprofile; reflexivity|]);
    (split; [rewrite Hprofile; reflexivity|]);
    (split; [intros k Hc Hr; rewrite Hprofile, Hr, Hc; reflexivity|]);
    repeat split; reflexivity.
Qed.

End Panel.

(* ================================================================== *)
(** * The module and its callers at work *)
(* ================================================================== *)

(** The record returned for the accepted answer names the inputs and
    has every field, the steps by default. *)
Lemma accepted_answer_gives_a_complete_record :
  exists p w',
    searchVisaInfo (engine := reference_engine) (service := accepting_service)
      "Canada" "Canada" "Japan" "Tourism" true initial_world = (Ok p, w') /\
    whatsNext p = VArr [] [] /\
    country p = "Japan"%string /\ citizenship p = "Canada"%string /\
    residency p = "Canada"%string /\ purpose p = "Tourism"%string /\
    truthy (visaStatus p) = true /\ truthy (summary p) = true /\
    truthy (whatsNext p) = true /\ truthy (timeline p) = true /\
    truthy (requirements p) = true.
Proof.
  eassert (H : searchVisaInfo (engine := reference_engine) (service := accepting_service)
                 "Canada" "Canada" "Japan" "Tourism" true initial_world = (Ok _, _))
    by run.
  do 2 eexists. split; [exact H|]. split; [reflexivity|].
  exact (searchVisaInfo_returns_a_complete_record
           (engine := reference_engine) (service := accepting_service) _ _ _ _ _ _ _ _ H).
Defined.

(** Three attempts, the last without a source and audited at 4: the
    record is marked and falls short of acceptance. *)
Lemma exhausted_search_is_marked :
  exists p w',
    searchVisaInfo (engine := reference_engine) (service := struggling_service)
      "Canada" "Canada" "Japan" "Tourism" false initial_world = (Ok p, w') /\
    sources p = [] /\
    get (verification p) "pass" = Ok (VBool false) /\
    reasoning_mentions missing_sources_notice (verification p) /\
    accepted (engine := reference_engine) (verification p) = Ok false.
Proof.
  eassert (H : searchVisaInfo (engine := reference_engine) (service := struggling_service)
                 "Canada" "Canada" "Japan" "Tourism" false initial_world = (Ok _, _))
    by run.
  match type of H with
  | _ = (Ok ?p, _) => assert (Hs : sources p = []) by run
  end.
  do 2 eexists. split; [exact H|]. split; [exact Hs|].
  exact (record_without_sources_is_marked_and_not_accepted
           (engine := reference_engine) (service := struggling_service)
           _ _ _ _ _ _ _ _ H Hs).
Defined.

(** Both sources of the accepted answer carry their URI. *)
Lemma accepted_answer_sources_carry_a_uri :
  exists p w',
    searchVisaInfo (engine := reference_engine) (service := accepting_service)
      "Canada" "Canada" "Japan" "Tourism" true initial_world = (Ok p, w') /\
    List.length (sources p) = 2 /\
    all_linked (sources p).
Proof.
  eassert (H : searchVisaInfo (engine := reference_engine) (service := accepting_service)
                 "Canada" "Canada" "Japan" "Tourism" true initial_world = (Ok _, _))
    by run.
  do 2 eexists. split; [exact H|]. split; [reflexivity|].
  exact (returned_sources_all_carry_a_uri
           (engine := reference_engine) (service := accepting_service) _ _ _ _ _ _ _ _ H).
Defined.

(** The same URI declared and found by the search: the reconciled
    list answers with the declared source. *)
Lemma declared_source_is_the_answer :
  reconcile explicit_sources implicit_sources = Ok explicit_sources /\
  first_with (VStr "https://www.mofa.go.jp/visa") explicit_sources
    = first_with (VStr "https://www.mofa.go.jp/visa") (explicit_sources ++ implicit_sources).
Proof.
  split; [reflexivity|].
  apply (reconcile_answers_with_the_first_occurrence
           explicit_sources implicit_sources explicit_sources
           (VStr "https://www.mofa.go.jp/visa")); reflexivity.
Defined.


(** The verification of the accepted answer is the auditor's. *)
Lemma accepted_answer_carries_the_verdict :
  exists p w',
    searchVisaInfo (engine := reference_engine) (service := accepting_service)
      "Canada" "Canada" "Japan" "Tourism" true initial_world = (Ok p, w') /\
    sources p <> [] /\
    exists content w1,
      evaluateOutput (engine := reference_engine) (service := accepting_service)
        content criteria w1 = (Ok (verification p), w').
Proof.
  eassert (H : searchVisaInfo (engine := reference_engine) (service := accepting_service)
                 "Canada" "Canada" "Japan" "Tourism" true initial_world = (Ok _, _))
    by run.
  match type of H with
  | _ = (Ok ?p, _) => assert (Hs : sources p <> []) by (vm_compute; discriminate)
  end.
  do 2 eexists. split; [exact H|]. split; [exact Hs|].
  exact (sourced_record_carries_the_auditor_verdict
           (engine := reference_engine) (service := accepting_service)
           _ _ _ _ _ _ _ _ H Hs).
Defined.

(** A service that is down. *)
Lemma outage_reaches_every_caller :
  let down := answering (Failure (ServiceError "unavailable")) 2025 in
  (forall tr, reply (Service := down) tr = Failure (ServiceError "unavailable")) /\
  fst (getCommonVisaPurposes (engine := reference_engine) (service := down)
         "Canada" "Japan" initial_world) = Throw (ServiceError "unavailable") /\
  fst (searchVisaInfo (engine := reference_engine) (service := down)
         "Canada" "Canada" "Japan" "Tourism" true initial_world)
    = Throw (ServiceError "unavailable") /\
  List.length
    (messages (trace (snd (searchVisaInfo (engine := reference_engine) (service := down)
                             "Canada" "Canada" "Japan" "Tourism" true initial_world)))) = 1.
Proof.
  intros down.
  assert (Hdown : forall tr, reply (Service := down) tr = Failure (ServiceError "unavailable"))
    by (intros; reflexivity).
  destruct (service_failure_reaches_the_caller
              (engine := reference_engine) (service := down) _ Hdown
              "Canada" "Canada" "Japan" "Tourism" true japan_policy "cover-letter"
              letter_data "aGVsbG8=" "image/jpeg" japan_answer criteria initial_world)
    as (H1 & _ & _ & _ & _ & _ & H7 & H8).
  split; [exact Hdown|]. split; [exact H1|]. split; [exact H7|].
  rewrite H8. reflexivity.
Defined.

(** A service that answers without text. *)
Lemma silence_reaches_every_caller :
  let mute := answering (Answer silent) 2025 in
  JSON_parse (Engine := reference_engine) "[]" = Some (VArr [] []) /\
  JSON_parse (Engine := reference_engine) "{}" = Some (VObj []) /\
  fst (getCommonVisaPurposes (engine := reference_engine) (service := mute)
         "Canada" "Japan" initial_world) = Ok (VArr [] []) /\
  fst (generateVisaDocument (engine := reference_engine) (service := mute)
         "cover-letter" letter_data initial_world) = Ok None /\
  fst (parsePassportImage (engine := reference_engine) (service := mute)
         "aGVsbG8=" "image/jpeg" initial_world) = Throw extraction_failed /\
  fst (searchVisaInfo (engine := reference_engine) (service := mute)
         "Canada" "Canada" "Japan" "Tourism" true initial_world)
    = Throw (TypeError "Cannot read properties of undefined (reading 'substring')").
Proof.
  intros mute.
  assert (Ha : JSON_parse (Engine := reference_engine) "[]" = Some (VArr [] [])) by run.
  assert (Ho : JSON_parse (Engine := reference_engine) "{}" = Some (VObj [])) by run.
  destruct (response_without_text
              (engine := reference_engine) (service := mute) silent
              (fun _ => eq_refl) eq_refl Ha Ho
              "Canada" "Canada" "Japan" "Tourism" true japan_policy "cover-letter"
              letter_data "aGVsbG8=" "image/jpeg" initial_world)
    as (H1 & _ & _ & H4 & H5 & H6).
  split; [exact Ha|]. split; [exact Ho|]. split; [exact H1|]. split; [exact H4|].
  split; [exact H5 | exact H6].
Defined.

(** The same URI declared and found by the search: the list of the
    second copy answers with the source the search found. *)
Lemma found_source_is_the_answer_of_the_second_copy :
  CoreServices.reconcile explicit_sources implicit_sources = Ok implicit_sources /\
  first_with (VStr "https://www.mofa.go.jp/visa") implicit_sources
    = last_with (VStr "https://www.mofa.go.jp/visa") (explicit_sources ++ implicit_sources).
Proof.
  split; [reflexivity|].
  apply (second_copy_reconcile_answers_with_the_last_occurrence
           explicit_sources implicit_sources implicit_sources
           (VStr "https://www.mofa.go.jp/visa")); reflexivity.
Defined.

(** The fenced passport read of the examples. *)
Lemma fenced_passport_is_read :
  fst (parsePassportImage (engine := reference_engine) (service := passport_service)
         "aGVsbG8=" "image/jpeg" initial_world)
    = Ok (identity_of (VObj [("fullName", VStr "A. Traveller"); ("passportNumber", VNull)])).
Proof.
  apply (parsePassportImage_reads_through_code_fences
           (engine := reference_engine) (service := passport_service)
           "aGVsbG8=" "image/jpeg" initial_world (plain fenced_passport)
           (jobj [jpair "fullName" (jstr "A. Traveller"); jpair "passportNumber" "null"])
           (VObj [("fullName", VStr "A. Traveller"); ("passportNumber", VNull)]));
    [run | left; reflexivity | run | discriminate | discriminate].
Defined.

(** Ticking the first of two entries. *)
Lemma first_entry_is_ticked :
  let first := VObj [("id", VStr "1"); ("name", VStr "Passport"); ("completed", VBool false)] in
  let second := VObj [("id", VStr "2"); ("name", VStr "Ticket"); ("completed", VBool true)] in
  let ticked := VObj [("id", VStr "1"); ("name", VStr "Passport"); ("completed", VBool true)] in
  App.toggleChecklistItem "1" [first; second] = Ok [ticked; second] /\
  Forall2 (fun item item' =>
             if equals_string (field item "id") "1"
             then flipped item item'
             else item' = item) [first; second] [ticked; second].
Proof.
  intros first second ticked.
  split; [reflexivity|].
  apply (toggleChecklistItem_flips_the_items_of_that_id "1" [first; second] [ticked; second]).
  reflexivity.
Defined.

(** The checklist generated in the examples, ticked twice. *)
Lemma generated_checklist_survives_two_ticks :
  exists checklist w' items,
    generateDocumentChecklist (engine := reference_engine) (service := checklist_service)
      japan_policy initial_world = (Ok checklist, w') /\
    checklist = VArr items [] /\
    forall id, exists once,
      App.toggleChecklistItem id items = Ok once /\
      App.toggleChecklistItem id once = Ok items.
Proof.
  eassert (H : generateDocumentChecklist (engine := reference_engine)
                 (service := checklist_service) japan_policy initial_world = (Ok _, _))
    by run.
  destruct (ticking_twice_restores_a_generated_checklist
              (engine := reference_engine) (service := checklist_service) _ _ _ _ H)
    as (items & Hitems & Htwice).
  do 2 eexists. exists items. split; [exact H|]. split; [exact Hitems | exact Htwice].
Defined.

(** The purpose the form starts with survives an autofill without
    profile or policy. *)
Lemma default_purpose_survives_autofill :
  filled "purpose" DocBuilder.initial_formData /\
  filled "purpose" (DocBuilder.autofill VUndefined None DocBuilder.initial_formData).
Proof.
  assert (H : filled "purpose" DocBuilder.initial_formData) by reflexivity.
  split; [exact H|].
  exact (autofill_never_blanks_a_field VUndefined None DocBuilder.initial_formData "purpose" H).
Defined.

(** The data URL of a PNG image. *)
Lemma payload_of_a_png_data_URL :
  DocBuilder.base64String "data:image/png;base64,aGVsbG8=" = Some "aGVsbG8="%string.
Proof.
  apply (base64String_is_the_payload_of_the_data_URL "data:image/png;base64" "aGVsbG8=");
    reflexivity.
Defined.

(** The passport of the examples, scanned into the empty form. *)
Lemma scanned_passport_fills_the_name :
  exists form w',
    DocBuilder.scan (engine := reference_engine) (service := passport_service)
      "aGVsbG8=" "image/jpeg" DocBuilder.initial_formData initial_world = (Ok form, w') /\
    lookup "name" form = VStr "A. Traveller" /\
    (filled "name" form \/ filled "passportNumber" form) /\
    (forall k, filled k DocBuilder.initial_formData -> filled k form).
Proof.
  eassert (H : DocBuilder.scan (engine := reference_engine) (service := passport_service)
                 "aGVsbG8=" "image/jpeg" DocBuilder.initial_formData initial_world
               = (Ok _, _))
    by run.
  do 2 eexists. split; [exact H|]. split; [reflexivity|].
  exact (scan_fills_name_or_passport_number
           (engine := reference_engine) (service := passport_service) _ _ _ _ _ _ H).
Defined.

(** The accepted answer is shown in full, without warning. *)
Lemma accepted_answer_is_shown_in_full :
  exists p w',
    searchVisaInfo (engine := reference_engine) (service := accepting_service)
      "Canada" "Canada" "Japan" "Tourism" true initial_world = (Ok p, w') /\
    PolicyResults.render (engine := reference_engine) p false
      = PolicyResults.Result None true /\
    accepted (engine := reference_engine) (verification p) = Ok true /\
    sources p <> [].
Proof.
  eassert (H : searchVisaInfo (engine := reference_engine) (service := accepting_service)
                 "Canada" "Canada" "Japan" "Tourism" true initial_world = (Ok _, _))
    by run.
  match type of H with
  | _ = (Ok ?p, _) =>
      assert (Hr : PolicyResults.render (engine := reference_engine) p false
                   = PolicyResults.Result None true) by run
  end.
  do 2 eexists. split; [exact H|]. split; [exact Hr|].
  exact (proj2 (details_shown_unasked_are_accepted_and_sourced
                  (engine := reference_engine) (service := accepting_service)
                  _ _ _ _ _ _ _ _ _ H Hr)).
Defined.

(** The exhausted search is shown under the warning, details hidden. *)
Lemma exhausted_search_is_flagged :
  exists p w',
    searchVisaInfo (engine := reference_engine) (service := struggling_service)
      "Canada" "Canada" "Japan" "Tourism" false initial_world = (Ok p, w') /\
    sources p = [] /\
    PolicyResults.render (engine := reference_engine) p false
      = PolicyResults.Result (Some (VStr "Still no sources. Missing official source links."))
          false /\
    ((exists score, PolicyResults.render (engine := reference_engine) p false
                    = PolicyResults.DataUnavailable score) \/
     (exists r, PolicyResults.render (engine := reference_engine) p false
                = PolicyResults.Result (Some (VStr r)) false /\
                get (verification p) "reasoning" = Ok (VStr r) /\
                endsWith missing_sources_notice r = true)).
Proof.
  eassert (H : searchVisaInfo (engine := reference_engine) (service := struggling_service)
                 "Canada" "Canada" "Japan" "Tourism" false initial_world = (Ok _, _))
    by run.
  match type of H with
  | _ = (Ok ?p, _) => assert (Hs : sources p = []) by run
  end.
  do 2 eexists. split; [exact H|]. split; [exact Hs|]. split; [run|].
  exact (unsourced_record_is_blocked_or_flagged
           (engine := reference_engine) (service := struggling_service)
           _ _ _ _ _ _ _ _ false H Hs).
Defined.

(* ================================================================== *)
(** * What a call costs and what it logs *)
(* ================================================================== *)

(** Events of one kind are counted along a call: [count] selects the
    kind, and gives the same answer for all messages, for all direct
    requests and for all console entries; creating a chat and reporting
    progress are never counted. *)
Section Counting.

Context {engine : Engine} {service : Service}.

Variable count : Event -> bool.
Variables per_message per_request per_log : nat.

Hypothesis count_create : forall m c h, count (ChatsCreate m c h) = false.
Hypothesis count_progress : forall s, count (Progress s) = false.
Hypothesis count_message :
  forall c r, List.length (filter count [SendMessage c r]) = per_message.
Hypothesis count_request :
  forall r, List.length (filter count [GenerateContent r]) = per_request.
Hypothesis count_log :
  forall l e, List.length (filter count [ConsoleError l e]) = per_log.

Ltac nothing :=
  exists (@nil Event); simpl; rewrite ?trace_with_session, ?trace_record, ?app_nil_r;
  split; [reflexivity | simpl; lia].

Lemma adds_ret {A} (a : A) : adds count 0 (ret a).
Proof. intros w. nothing. Qed.

Lemma adds_throw {A} e : adds count 0 (@throw A e).
Proof. intros w. nothing. Qed.

Lemma adds_lift {A} (o : outcome A) : adds count 0 (lift o).
Proof. intros w. nothing. Qed.

Lemma adds_weaken {A} k k' (m : M A) : adds count k m -> k <= k' -> adds count k' m.
Proof.
  intros H Hk w. destruct (H w) as (evs & Ht & Hs).
  exists evs. split; [exact Ht | lia].
Qed.

Lemma adds_bind {A B} k1 k2 (m : M A) (f : A -> M B) :
  adds count k1 m -> (forall a, adds count k2 (f a)) -> adds count (k1 + k2) (bind m f).
Proof.
  intros Hm Hf w. unfold bind. destruct (Hm w) as (evs1 & Ht1 & Hs1).
  destruct (m w) as [[a | e |] w1]; simpl in *;
    try (exists evs1; split; [exact Ht1 | lia]).
  destruct (Hf a w1) as (evs2 & Ht2 & Hs2).
  exists (evs1 ++ evs2). rewrite Ht2, Ht1, app_assoc, filter_app, length_app.
  split; [reflexivity | lia].
Qed.

Lemma adds_bind_l {A B} k (m : M A) (f : A -> M B) :
  adds count 0 m -> (forall a, adds count k (f a)) -> adds count k (bind m f).
Proof. intros. apply (@adds_bind A B 0 k); assumption. Qed.

Lemma adds_try_catch {A} k1 k2 (m : M A) h :
  adds count k1 m -> (forall e, adds count k2 (h e)) -> adds count (k1 + k2) (try_catch m h).
Proof.
  intros Hm Hh w. unfold try_catch. destruct (Hm w) as (evs1 & Ht1 & Hs1).
  destruct (m w) as [[a | e |] w1]; simpl in *;
    try (exists evs1; split; [exact Ht1 | lia]).
  destruct (Hh e w1) as (evs2 & Ht2 & Hs2).
  exists (evs1 ++ evs2). rewrite Ht2, Ht1, app_assoc, filter_app, length_app.
  split; [reflexivity | lia].
Qed.

Lemma adds_notify b s : adds count 0 (notify b s).
Proof.
  destruct b; [|apply adds_ret].
  intros w. exists [Progress s]. split; [reflexivity|].
  simpl. rewrite count_progress. simpl. lia.
Qed.

Lemma adds_parse t : adds count 0 (parse t).
Proof. intros w. rewrite snd_parse. nothing. Qed.

Lemma adds_getSession p : adds count 0 (getSession p).
Proof.
  intros w. unfold getSession. destruct (chat (session p w)); [nothing|].
  eexists [_]. simpl. rewrite trace_with_session, trace_record.
  split; [reflexivity|]. rewrite count_create. simpl. lia.
Qed.

Lemma adds_clearSession p : adds count 0 (clearSession p).
Proof. intros w. unfold clearSession. nothing. Qed.

Lemma adds_sendMessage p c req : adds count per_message (sendMessage p c req).
Proof.
  intros w. unfold sendMessage. exists [SendMessage c req].
  destruct (reply _); simpl snd; rewrite ?trace_with_session, ?trace_record;
    (split; [reflexivity | rewrite count_message; lia]).
Qed.

Lemma adds_run p prompt schema : adds count per_message (run p prompt schema).
Proof.
  unfold run. apply adds_bind_l; [apply adds_getSession|]. intros c.
  apply adds_weaken with (k := per_message + 0); [|lia].
  apply adds_bind; [apply adds_sendMessage|]. intros r. apply adds_ret.
Qed.

Lemma adds_generateContent req : adds count per_request (generateContent req).
Proof.
  intros w. unfold generateContent. exists [GenerateContent req].
  destruct (reply _); simpl snd; rewrite ?trace_record;
    (split; [reflexivity | rewrite count_request; lia]).
Qed.

Lemma adds_evaluateOutput c k : adds count per_request (evaluateOutput c k).
Proof.
  unfold evaluateOutput. apply adds_weaken with (k := per_request + 0); [|lia].
  apply adds_bind; [apply adds_generateContent | intros; apply adds_parse].
Qed.

Lemma adds_attempt ctz res dest purp onProgress n previous :
  adds count (per_message + per_request) (attempt ctz res dest purp onProgress n previous).
Proof.
  unfold attempt.
  apply adds_bind_l; [intros w; nothing|]. intros year.
  apply adds_bind_l.
  { destruct (Nat.ltb 0 n).
    - apply adds_bind_l; [apply adds_notify|]. intros _.
      apply adds_bind_l; [apply adds_lift|]. intros r. apply adds_ret.
    - apply adds_bind_l; [apply adds_notify|]. intros _. apply adds_ret. }
  intros prompt.
  apply adds_bind; [apply adds_run|]. intros [t raw].
  apply adds_bind_l; [apply adds_parse|]. intros data.
  apply adds_bind_l; [apply adds_lift|]. intros declared.
  apply adds_bind_l; [apply adds_lift|]. intros jsonSources.
  apply adds_bind_l; [apply adds_lift|]. intros srcs.
  apply adds_bind_l; [apply adds_notify|]. intros _.
  apply adds_weaken with (k := per_request + 0); [|lia].
  apply adds_bind.
  { destruct t; [apply adds_evaluateOutput|].
    apply adds_weaken with (k := 0); [apply adds_throw | lia]. }
  intros v. apply adds_bind_l; [apply adds_lift|]. intros v'. apply adds_ret.
Qed.

Lemma adds_search_loop ctz res dest purp onProgress fuel :
  forall st,
    adds count ((S MAX_RETRIES - attempts st) * (per_message + per_request))
      (search_loop fuel ctz res dest purp onProgress st).
Proof.
  induction fuel as [|fuel IH]; intros st; rewrite search_loop_unfold.
  - destruct (Nat.leb (attempts st) MAX_RETRIES);
      [apply adds_weaken with (k := 0); [apply adds_lift | apply Nat.le_0_l]
      | apply adds_weaken with (k := 0); [apply adds_ret | apply Nat.le_0_l]].
  - destruct (Nat.leb (attempts st) MAX_RETRIES) eqn:Hle.
    + apply Nat.leb_le in Hle.
      apply adds_weaken
        with (k := (per_message + per_request)
                   + (S MAX_RETRIES - (attempts st + 1)) * (per_message + per_request)).
      * apply adds_bind; [apply adds_attempt|]. intros a.
        apply adds_bind_l; [apply adds_lift|]. intros [|].
        -- apply adds_weaken with (k := 0); [apply adds_ret | apply Nat.le_0_l].
        -- apply IH.
      * replace (S MAX_RETRIES - attempts st) with (S (S MAX_RETRIES - (attempts st + 1)))
          by lia.
        simpl. lia.
    + apply adds_weaken with (k := 0); [apply adds_ret | apply Nat.le_0_l].
Qed.

(** The body of [searchVisaInfo], inside its [try]. *)
Lemma adds_search_body ctz res dest purp onProgress :
  adds count (S MAX_RETRIES * (per_message + per_request))
    (clearSession visaConsultant ;;;
     st <- search_loop (S MAX_RETRIES) ctz res dest purp onProgress loop_start ;;
     lift (policy_of ctz res dest purp (currentData st) (currentSources st)
             (current_verification st))).
Proof.
  apply adds_bind_l; [apply adds_clearSession|]. intros _.
  apply adds_weaken with (k := S MAX_RETRIES * (per_message + per_request) + 0); [|lia].
  apply adds_bind; [apply (adds_search_loop _ _ _ _ _ (S MAX_RETRIES) loop_start)|].
  intros st. apply adds_lift.
Qed.

Lemma adds_searchVisaInfo ctz res dest purp onProgress :
  adds count (S MAX_RETRIES * (per_message + per_request) + per_log)
    (searchVisaInfo ctz res dest purp onProgress).
Proof.
  unfold searchVisaInfo, searchVisaInfo_with.
  apply adds_try_catch; [apply adds_search_body|].
  intros e. apply adds_weaken with (k := per_log + 0); [|lia].
  apply adds_bind; [|intros; apply adds_throw].
  intros w. exists [ConsoleError "Agent failed:" e]. split; [reflexivity|].
  rewrite count_log. lia.
Qed.

Lemma adds_one_shots ctz dest policy template data :
  adds count per_message (getCommonVisaPurposes ctz dest) /\
  adds count per_message (getTravelAdvisory dest) /\
  adds count per_message (generateDocumentChecklist policy) /\
  adds count per_message (generateVisaDocument template data).
Proof.
  split; [|split; [|split]].
  - apply adds_bind_l; [apply adds_clearSession|]. intros _.
    apply adds_weaken with (k := per_message + 0); [|lia].
    apply adds_bind; [apply adds_run | intros; apply adds_parse].
  - apply adds_bind_l; [apply adds_clearSession|]. intros _.
    apply adds_weaken with (k := per_message + 0); [|lia].
    apply adds_bind; [apply adds_run | intros; apply adds_parse].
  - apply adds_weaken with (k := per_message + 0); [|lia].
    apply adds_bind; [apply adds_run|]. intros r.
    apply adds_bind_l; [apply adds_parse | intros; apply adds_lift].
  - apply adds_weaken with (k := per_message + 0); [|lia].
    apply adds_bind; [apply adds_run | intros; apply adds_ret].
Qed.

End Counting.

Lemma adds_count {A} count k (m : M A) w :
  adds count k m ->
  List.length (filter count (trace (snd (m w))))
    <= List.length (filter count (trace w)) + k.
Proof.
  intros H. destruct (H w) as (evs & Ht & Hs). rewrite Ht, filter_app, length_app. lia.
Qed.

Section Cost.

Context {engine : Engine} {service : Service}.

(** X26: what a call costs.  A search sends the service at most six
    requests, a message to the consultant and an audit for each of at
    most three attempts; each of the purposes, the advisory, the
    checklist and the document costs at most one request. *)
Theorem calls_make_a_bounded_number_of_requests :
  forall (ctz res dest purp : string) (onProgress : bool) (policy : VisaPolicy)
         (template : string) (data : list (string * value)) (w : World),
    requests (trace (snd (searchVisaInfo ctz res dest purp onProgress w)))
      <= requests (trace w) + 6 /\
    requests (trace (snd (getCommonVisaPurposes ctz dest w))) <= requests (trace w) + 1 /\
    requests (trace (snd (getTravelAdvisory dest w))) <= requests (trace w) + 1 /\
    requests (trace (snd (generateDocumentChecklist policy w))) <= requests (trace w) + 1 /\
    requests (trace (snd (generateVisaDocument template data w))) <= requests (trace w) + 1.
Proof.
  intros. unfold requests.
  destruct (adds_one_shots is_request 1 (fun _ _ _ => eq_refl) (fun _ _ => eq_refl)
              ctz dest policy template data)
    as (H1 & H2 & H3 & H4).
  split.
  { apply (adds_count is_request (S MAX_RETRIES * (1 + 1) + 0)).
    apply (adds_searchVisaInfo is_request 1 1 0); reflexivity. }
  split; [apply (adds_count _ _ _ _ H1)|].
  split; [apply (adds_count _ _ _ _ H2)|].
  split; [apply (adds_count _ _ _ _ H3) | apply (adds_count _ _ _ _ H4)].
Qed.

(** X5: [searchVisaInfo] logs exactly what it throws.  An exception
    leaves it only after it was written to the console under "Agent
    failed:", as the last thing the call does; a call that returns a
    record has written no error to the console. *)
Theorem searchVisaInfo_logs_exactly_what_it_throws :
  forall (ctz res dest purp : string) (onProgress : bool) (w : World),
    let out := searchVisaInfo ctz res dest purp onProgress w in
    match fst out with
    | Ok _ => error_logs (trace (snd out)) = error_logs (trace w)
    | Throw e => exists tr, trace (snd out) = tr ++ [ConsoleError "Agent failed:" e]
    | OutOfFuel => False
    end.
Proof.
  intros ctz res dest purp onProgress w.
  destruct (adds_search_body is_error_log 0 0
              (fun _ _ _ => eq_refl) (fun _ => eq_refl)
              (fun _ _ => eq_refl) (fun _ => eq_refl)
              ctz res dest purp onProgress w) as (evs & Ht & Hn).
  pose proof (total_search ctz res dest purp
                (attempt ctz res dest purp onProgress)
                (fun fuel => search_loop fuel ctz res dest purp onProgress)
                (searchVisaInfo ctz res dest purp onProgress)
                (search_loop_unfold ctz res dest purp onProgress) eq_refl
                (total_attempt ctz res dest purp onProgress) w) as Htotal.
  unfold searchVisaInfo, searchVisaInfo_with, try_catch in *.
  destruct (bind _ _ w) as [[p | e |] w1]; simpl in *.
  - unfold error_logs. rewrite Ht, filter_app, length_app. lia.
  - exists (trace w1). reflexivity.
  - apply Htotal. reflexivity.
Qed.

End Cost.

(* ================================================================== *)
(** * Fresh chats, carried chats, and the second copy's guardrail *)
(* ================================================================== *)

Section Chats.

Context {engine : Engine} {service : Service}.

(** X27: the purposes, the advisory and the search start from an empty
    chat: the one message of the first two, and the first message of
    the search, go out with no earlier turn, whatever the persona held
    before the call. *)
Theorem consultant_and_guide_calls_start_from_an_empty_chat :
  forall (ctz res dest purp : string) (onProgress : bool) (w : World),
    contexts (trace (snd (getCommonVisaPurposes ctz dest w))) = contexts (trace w) ++ [[]] /\
    contexts (trace (snd (getTravelAdvisory dest w))) = contexts (trace w) ++ [[]] /\
    exists rest,
      contexts (trace (snd (searchVisaInfo ctz res dest purp onProgress w)))
        = contexts (trace w) ++ [] :: rest.
Proof.
  intros. split; [apply getCommonVisaPurposes_starts_afresh|].
  split; [apply getTravelAdvisory_starts_afresh | apply searchVisaInfo_starts_afresh].
Qed.

(** X28: the checklist and the document do not: their message goes
    out with every turn the drafter holds.  What the document leaves
    for the next call follows the answer of the service: a response with
    valid content leaves the drafter holding one turn more, a response
    without valid content or a failure leaves it holding what it held. *)
Theorem drafter_calls_carry_and_extend_the_chat :
  forall (policy : VisaPolicy) (template : string) (data : list (string * value))
         (w : World),
    let out := generateVisaDocument template data w in
    contexts (trace (snd (generateDocumentChecklist policy w)))
      = contexts (trace w) ++ [pending legalDrafter w] /\
    contexts (trace (snd out)) = contexts (trace w) ++ [pending legalDrafter w] /\
    match reply (trace (snd out)) with
    | Answer r =>
        fst out = Ok (text r) /\
        exists req,
          pending legalDrafter (snd out)
            = pending legalDrafter w
                ++ (if kept r then [{| sent := req; received := r |}] else [])
    | Failure e =>
        fst out = Throw e /\
        pending legalDrafter (snd out) = pending legalDrafter w
    end.
Proof.
  intros policy template data w out.
  destruct (drafter_functions_continue_the_chat policy template data w) as [H1 H2].
  split; [exact H1|]. split; [exact H2|].
  unfold out, generateVisaDocument.
  rewrite snd_bind_still by reflexivity.
  match goal with
  | |- context [bind (run ?p ?q ?s) _ _] =>
      pose proof (run_outcome p q s w) as Hrun;
      unfold bind; destruct (reply (trace (snd (run p q s w)))) as [r | e];
      destruct Hrun as [Hfst Hturns];
      destruct (run p q s w) as [[[t' r'] | e' |] w1]
  end; simpl in *; try discriminate.
  - inversion Hfst; subst. split; [reflexivity|].
    destruct Hturns as (req & _ & Hturns). exists req. exact Hturns.
  - inversion Hfst; subst. split; [reflexivity | exact Hturns].
Qed.

End Chats.

Section Second_guardrail.

Context {engine : Engine} {service : Service}.

(** X29: the guardrail of the second copy: a record its search returns
    without a single source does not reach the acceptance threshold
    either, and its reasoning ends with the notice of that copy. *)
Theorem second_copy_record_without_sources_is_not_accepted :
  forall (ctz res dest purp : string) (onProgress : bool) (w w' : World) (p : VisaPolicy),
    CoreServices.searchVisaInfo ctz res dest purp onProgress w = (Ok p, w') ->
    sources p = [] ->
    accepted (verification p) = Ok false /\
    reasoning_ends_with CoreServices.missing_sources_notice (verification p).
Proof.
  intros ctz res dest purp onProgress w w' p H Hnone.
  destruct (search_ends_with_an_attempt ctz res dest purp
              (CoreServices.attempt ctz res dest purp onProgress)
              (fun fuel => CoreServices.search_loop fuel ctz res dest purp onProgress)
              (CoreServices.searchVisaInfo ctz res dest purp onProgress)
              (CoreServices_search_loop_unfold ctz res dest purp onProgress) eq_refl
              _ _ _ H)
    as (n & previous & w1 & a & Hatt & Hp).
  destruct (policy_of_inv _ _ _ _ _ _ _ _ Hp) as (_ & _ & _ & _ & _ & _ & _ & _ & _ & Hs & Hv).
  rewrite Hs in Hnone. rewrite Hv.
  destruct (CoreServices_attempt_inv _ _ _ _ _ _ _ _ _ _ Hatt)
    as (declared & js & raw & v & _ & _ & _ & Hg).
  rewrite Hnone in Hg. unfold CoreServices.guardrail in Hg. simpl in Hg.
  destruct (CoreServices_penalize_inv _ _ Hg) as (sc & r & _ & _ & Hscore & _ & Hreason).
  split.
  - unfold accepted. rewrite Hscore. simpl. rewrite Math_min_5_below_8. reflexivity.
  - eexists. split; [exact Hreason | apply endsWith_append].
Qed.

End Second_guardrail.

Section Blocked.

Context {engine : Engine}.

(** X30: a record whose verification has no usable score (none at
    all, [null], [NaN], zero or an empty text) is blocked by the panel,
    which reports a confidence of 0. *)
Theorem record_without_usable_score_is_blocked :
  forall (p : VisaPolicy) (showPreliminaryDetails : bool),
    truthy (optional_get (verification p) "score") = false ->
    PolicyResults.render p showPreliminaryDetails = PolicyResults.DataUnavailable (of_num 0).
Proof.
  intros p shown H.
  unfold PolicyResults.render, PolicyResults.isCriticalFailure, PolicyResults.evalScore, or_else.
  rewrite H. reflexivity.
Qed.

End Blocked.

(** The search whose auditor leaves the score out ends blocked. *)
Lemma scoreless_search_is_blocked :
  exists p,
    fst (searchVisaInfo (engine := reference_engine) (service := scoreless_service)
           "Canada" "Canada" "Japan" "Tourism" false initial_world) = Ok p /\
    optional_get (verification p) "score" = VNum NaN /\
    PolicyResults.render (engine := reference_engine) p false
      = PolicyResults.DataUnavailable (of_num 0).
Proof.
  eassert (H : fst (searchVisaInfo (engine := reference_engine) (service := scoreless_service)
                      "Canada" "Canada" "Japan" "Tourism" false initial_world) = Ok _)
    by run.
  eexists. split; [exact H|]. split; [reflexivity|].
  apply (record_without_usable_score_is_blocked (engine := reference_engine)).
  reflexivity.
Defined.

(** The exhausted search of the second copy. *)
Lemma second_copy_exhausted_search_is_not_accepted :
  exists p w',
    CoreServices.searchVisaInfo (engine := reference_engine) (service := struggling_service)
      "Canada" "Canada" "Japan" "Tourism" false CoreServices.initial_world = (Ok p, w') /\
    sources p = [] /\
    accepted (engine := reference_engine) (verification p) = Ok false /\
    get (verification p) "reasoning" = Ok (VStr "Still no sources. Missing official sources.") /\
    reasoning_ends_with CoreServices.missing_sources_notice (verification p).
Proof.
  eassert (H : CoreServices.searchVisaInfo (engine := reference_engine)
                 (service := struggling_service)
                 "Canada" "Canada" "Japan" "Tourism" false CoreServices.initial_world
               = (Ok _, _))
    by run.
  match type of H with
  | _ = (Ok ?p, _) => assert (Hs : sources p = []) by run
  end.
  destruct (second_copy_record_without_sources_is_not_accepted
              (engine := reference_engine) (service := struggling_service)
              _ _ _ _ _ _ _ _ H Hs) as [Hno Hend].
  do 2 eexists. split; [exact H|]. split; [exact Hs|]. split; [exact Hno|].
  split; [reflexivity | exact Hend].
Defined.

(** A message answered without content, then one answered with a
    text: only the second turn is held for the next message. *)
Lemma answer_without_content_leaves_no_turn :
  let mute := answering (Answer silent) 2025 in
  let vocal := answering (Answer (plain "Noted.")) 2025 in
  kept silent = false /\
  kept (plain "Noted.") = true /\
  pending visaConsultant
    (snd (run (service := mute) visaConsultant "Hello" None initial_world)) = [] /\
  List.length
    (pending visaConsultant
       (snd (run (service := vocal) visaConsultant "Hello" None initial_world))) = 1.
Proof.
  intros mute vocal.
  pose proof (run_keeps_the_turns_with_content (service := mute)
                visaConsultant "Hello" None initial_world) as Hmute.
  pose proof (run_keeps_the_turns_with_content (service := vocal)
                visaConsultant "Hello" None initial_world) as Hvocal.
  cbv zeta in Hmute, Hvocal.
  change (reply (Service := mute) (trace (snd (run (service := mute) visaConsultant "Hello"
                                                 None initial_world))))
    with (Answer silent) in Hmute.
  change (reply (Service := vocal) (trace (snd (run (service := vocal) visaConsultant "Hello"
                                                  None initial_world))))
    with (Answer (plain "Noted.")) in Hvocal.
  destruct Hmute as (_ & req1 & _ & H1). destruct Hvocal as (_ & req2 & _ & H2).
  split; [reflexivity|]. split; [reflexivity|].
  split; [rewrite H1; reflexivity | rewrite H2; reflexivity].
Defined.

(** A letter that is answered without content, a second one that is
    answered, then a checklist: the three messages of the drafter go out
    with no, no and one earlier turn. *)
Lemma unanswered_letter_is_not_carried :
  let drafting :=
    scripted [Answer silent; Answer (plain "Dear Visa Officer, ...");
              Answer (plain "[]")] 2025 in
  let w1 := snd (generateVisaDocument (engine := reference_engine) (service := drafting)
                   "cover-letter" letter_data initial_world) in
  let w2 := snd (generateVisaDocument (engine := reference_engine) (service := drafting)
                   "itinerary" letter_data w1) in
  let w3 := snd (generateDocumentChecklist (engine := reference_engine) (service := drafting)
                   japan_policy w2) in
  map (@List.length Turn) (contexts (trace w3)) = [0; 0; 1] /\
  pending legalDrafter w1 = pending legalDrafter initial_world /\
  List.length (pending legalDrafter w2) = 1.
Proof.
  intros drafting w1 w2 w3.
  pose proof (drafter_calls_carry_and_extend_the_chat
                (engine := reference_engine) (service := drafting)
                japan_policy "cover-letter" letter_data initial_world) as H.
  cbv zeta in H. destruct H as (_ & _ & H).
  change (reply (Service := drafting)
            (trace (snd (generateVisaDocument (engine := reference_engine)
                           (service := drafting) "cover-letter" letter_data initial_world))))
    with (Answer silent) in H.
  destruct H as (_ & req & H).
  split; [run|]. split; [|run].
  unfold w1. rewrite H. change (kept silent) with false. cbv iota. apply app_nil_r.
Defined.
